(** * The LLM request router of [src/services/llm-integration-service.ts]

    A shallow embedding of the provider registry, the provider adapters, the
    response cache and [LLMService.sendRequest] with its helpers, followed by
    the properties of the router that the specification states.

    Conventions of the embedding.
    - A JavaScript string is a [string] holding its UTF-8 bytes (what
      [Buffer.toString] and the source file itself contain).
    - A JavaScript number is kept as its canonical decimal rendering
      ([Number::toString]), which is all the router ever does with a number
      besides testing its truthiness.  Priorities and clock readings, which
      the code subtracts and compares, are integers ([Z]).
    - [undefined]-able fields are [option]s.
    - Code that can throw returns a [completion]; code that also touches the
      cache, the clock, the console or the network runs in the monad [M]. *)

From Stdlib Require Import ZArith List String Ascii Bool Lia Permutation Sorted.
From stdpp Require Import base gmap strings list pretty.

Local Open Scope string_scope.

(** ** JavaScript values *)

Record number := Num { num_repr : string }.

#[warnings="-register-all"]
Inductive value :=
| VUndefined
| VNull
| VBool (b : bool)
| VNum (n : number)
| VStr (s : string)
| VArr (items : list value)
| VObj (fields : list (string * value)).

(** [0], [-0] (which prints as [0]) and [NaN] are the falsy numbers. *)
Definition num_truthy (n : number) : bool :=
  negb (String.eqb (num_repr n) "0" || String.eqb (num_repr n) "NaN").

Definition str_truthy (s : string) : bool := negb (String.eqb s "").

Definition truthy (v : value) : bool :=
  match v with
  | VUndefined | VNull => false
  | VBool b => b
  | VNum n => num_truthy n
  | VStr s => str_truthy s
  | VArr _ | VObj _ => true
  end.

(** [a || b] on values. *)
Definition or_else (a b : value) : value := if truthy a then a else b.

(** [s || d] for a [string | undefined]. *)
Definition str_or (s : option string) (d : string) : string :=
  match s with
  | Some s' => if str_truthy s' then s' else d
  | None => d
  end.

(** [n || d] for a [number | undefined]. *)
Definition num_or (n : option number) (d : number) : number :=
  match n with
  | Some n' => if num_truthy n' then n' else d
  | None => d
  end.

(** ** Exceptions *)

Inductive exn :=
| Error (msg : string)
| TypeError (msg : string)
| SyntaxError (msg : string).

(** [error.message] *)
Definition message (e : exn) : string :=
  match e with Error m | TypeError m | SyntaxError m => m end.

Inductive completion (A : Type) :=
| Returns (a : A)
| Throws (e : exn).
Arguments Returns {A} a.
Arguments Throws {A} e.

Definition cbind {A B} (c : completion A) (k : A -> completion B) : completion B :=
  match c with
  | Returns a => k a
  | Throws e => Throws e
  end.

(** ** Property access *)

Definition own_property (fields : list (string * value)) (key : string) : value :=
  match find (fun kv => String.eqb (fst kv) key) fields with
  | Some kv => snd kv
  | None => VUndefined
  end.

(** [v.key] for a [v] that is neither [undefined] nor [null].  None of the
    keys the service reads ([choices], [message], [content], [text], [usage],
    the token counters) is a property of a built-in prototype, so a primitive
    or an array answers [undefined]. *)
Definition member (v : value) (key : string) : value :=
  match v with
  | VObj fields => own_property fields key
  | _ => VUndefined
  end.

(** [v[i]] for a [v] that is neither [undefined] nor [null].  Indexing a
    string yields a one-unit string; only its being defined matters to the
    callers, which go on to read a named property of it. *)
Definition element (v : value) (i : nat) : value :=
  match v with
  | VArr items => nth i items VUndefined
  | VObj fields => own_property fields (pretty i)
  | VStr s => match String.get i s with
              | Some c => VStr (String c EmptyString)
              | None => VUndefined
              end
  | _ => VUndefined
  end.

Definition nullish (v : value) : bool :=
  match v with VUndefined | VNull => true | _ => false end.

Definition type_name (v : value) : string :=
  match v with VNull => "null" | _ => "undefined" end.

Definition cannot_read (v : value) (key : string) : exn :=
  TypeError ("Cannot read properties of " +:+ type_name v +:+ " (reading '" +:+ key +:+ "')").

(** [v.key] *)
Definition get (v : value) (key : string) : completion value :=
  if nullish v then Throws (cannot_read v key) else Returns (member v key).

(** [v[i]] *)
Definition get_index (v : value) (i : nat) : completion value :=
  if nullish v then Throws (cannot_read v (pretty i)) else Returns (element v i).

(** [v?.key] *)
Definition get_opt (v : value) (key : string) : value :=
  if nullish v then VUndefined else member v key.

(** ** Provider registry *)

Record LLMProviderConfig := {
  name : string;
  apiEndpoint : string;
  apiKey : string;
  models : list string;
  cfg_maxTokens : Z;
  streamingSupport : bool;
  priority : Z
}.

(** [process.env]: the three credentials the registry reads. *)
Record ProcessEnv := {
  NEXT_PUBLIC_OPENAI_API_KEY : option string;
  NEXT_PUBLIC_ANTHROPIC_API_KEY : option string;
  NEXT_PUBLIC_DEEPSEEK_API_KEY : option string
}.

(** The registry is an object literal; [Object.values] enumerates it in
    declaration order (its keys are not array indices), so it is kept as an
    association list in that order. *)
Definition LLM_PROVIDERS (env : ProcessEnv) : list (string * LLMProviderConfig) :=
  [ ("openai",
     {| name := "OpenAI";
        apiEndpoint := "https://api.openai.com/v1/chat/completions";
        apiKey := str_or (NEXT_PUBLIC_OPENAI_API_KEY env) "";
        models := ["gpt-4-turbo"; "gpt-3.5-turbo"];
        cfg_maxTokens := 4096;
        streamingSupport := true;
        priority := 1 |});
    ("claude",
     {| name := "Claude";
        apiEndpoint := "https://api.anthropic.com/v1/messages";
        apiKey := str_or (NEXT_PUBLIC_ANTHROPIC_API_KEY env) "";
        models := ["claude-3-5-sonnet"];
        cfg_maxTokens := 4096;
        streamingSupport := true;
        priority := 2 |});
    ("deepseek",
     {| name := "DeepSeek";
        apiEndpoint := "https://api.deepseek.com/v1/chat/completions";
        apiKey := str_or (NEXT_PUBLIC_DEEPSEEK_API_KEY env) "";
        models := ["deepseek-chat"];
        cfg_maxTokens := 2048;
        streamingSupport := false;
        priority := 3 |}) ].

(** [Array.prototype.sort] with a comparator.  ECMAScript requires the sort
    to be stable and, for a consistent comparator, ordered; a stable insertion
    sort is the canonical such function ([js_sort_unique] below shows that the
    two requirements leave no other result). *)
Section Sort.
Context {A : Type} (cmp : A -> A -> Z).

Fixpoint sort_insert (x : A) (l : list A) : list A :=
  match l with
  | [] => [x]
  | y :: l' => if (cmp x y <=? 0)%Z then x :: y :: l' else y :: sort_insert x l'
  end.

Definition js_sort (l : list A) : list A := foldr sort_insert [] l.
End Sort.

Definition available (p : LLMProviderConfig) : bool := str_truthy (apiKey p).

Definition by_priority (a b : LLMProviderConfig) : Z := (priority a - priority b)%Z.

Section Registry.
Variable registry : list (string * LLMProviderConfig).

(** [Object.values(LLM_PROVIDERS)] *)
Definition registry_values : list LLMProviderConfig := map snd registry.

(** [LLM_PROVIDERS[key]].  The members inherited from [Object.prototype]
    ([constructor], [toString], ...) are truthy but carry no [apiKey], which
    sends [getBestProvider] down the same path as an unknown key. *)
Definition registry_lookup (key : string) : option LLMProviderConfig :=
  snd <$> find (fun kv => String.eqb (fst kv) key) registry.

Definition getAvailableProviders : list LLMProviderConfig :=
  js_sort by_priority (List.filter available registry_values).

Definition getBestProvider (requestedProvider : option string)
  : option LLMProviderConfig :=
  let requested :=
    match requestedProvider with
    | Some key => if str_truthy key then registry_lookup key else None
    | None => None
    end in
  match requested with
  | Some provider =>
      if available provider then Some provider
      else head getAvailableProviders
  | None => head getAvailableProviders
  end.
End Registry.


(** ** String primitives *)

(** [s.split(sep)] for a one-unit separator: never empty, [""] splits to [[""]]. *)
Fixpoint split_on (sep : ascii) (s : string) : list string :=
  match s with
  | EmptyString => [EmptyString]
  | String c s' =>
      if Ascii.eqb c sep then EmptyString :: split_on sep s'
      else match split_on sep s' with
           | h :: t => String c h :: t
           | [] => [String c EmptyString]
           end
  end.

Definition newline : ascii := ascii_of_nat 10.

(** The one-character string ["\n"]. *)
Definition nl : string := String newline EmptyString.

(** [s.substring(n)] *)
Fixpoint string_drop (n : nat) (s : string) : string :=
  match n, s with
  | O, _ => s
  | S n', String _ s' => string_drop n' s'
  | S _, EmptyString => EmptyString
  end.

Fixpoint strip_prefix (p s : string) : option string :=
  match p, s with
  | EmptyString, _ => Some s
  | String a p', String b s' => if Ascii.eqb a b then strip_prefix p' s' else None
  | String _ _, EmptyString => None
  end.

(** The code points ECMAScript calls WhiteSpace or LineTerminator, as UTF-8
    byte sequences: TAB LF VT FF CR SP, U+00A0, U+1680, U+2000..U+200A,
    U+2028, U+2029, U+202F, U+205F, U+3000, U+FEFF. *)
Definition white_space_bytes : list (list nat) :=
  [ [9]; [10]; [11]; [12]; [13]; [32]; [194; 160]; [225; 154; 128];
    [226; 128; 128]; [226; 128; 129]; [226; 128; 130]; [226; 128; 131];
    [226; 128; 132]; [226; 128; 133]; [226; 128; 134]; [226; 128; 135];
    [226; 128; 136]; [226; 128; 137]; [226; 128; 138];
    [226; 128; 168]; [226; 128; 169]; [226; 128; 175]; [226; 129; 159];
    [227; 128; 128]; [239; 187; 191] ].

Definition white_space : list string :=
  map (fun bytes => string_of_list_ascii (map ascii_of_nat bytes)) white_space_bytes.

Definition strip_one (units : list string) (s : string) : option string :=
  foldr (fun u found => match strip_prefix u s with
                        | Some rest => Some rest
                        | None => found
                        end) None units.

(** Strips leading units for as long as there are any; every unit is at least
    one byte long, so [fuel] = the length of the string is enough. *)
Fixpoint strip_all (fuel : nat) (units : list string) (s : string) : string :=
  match fuel with
  | O => s
  | S fuel' => match strip_one units s with
               | Some rest => strip_all fuel' units rest
               | None => s
               end
  end.

Definition string_rev (s : string) : string :=
  string_of_list_ascii (rev (list_ascii_of_string s)).

Definition trimStart (s : string) : string :=
  strip_all (String.length s) white_space s.

Definition trimEnd (s : string) : string :=
  string_rev (strip_all (String.length s) (map string_rev white_space) (string_rev s)).

(** [s.trim()] *)
Definition trim (s : string) : string := trimEnd (trimStart s).

(** ** Requests, responses, cache entries *)

(** A caller's [onStreamingUpdate] function.  The router only tests that it
    is there and calls it; the calls are recorded in the stream's state. *)
Inductive StreamingCallback := callback (id : nat).

Record LLMRequest := {
  prompt : string;
  model : option string;
  maxTokens : option number;
  temperature : option number;
  provider : option string;
  streaming : option bool;
  onStreamingUpdate : option StreamingCallback
}.

Record TokenUsage := {
  usage_prompt : value;
  usage_completion : value;
  usage_total : value
}.

(** [text] is declared a string, but is whatever the adapter extracted. *)
Record LLMResponse := {
  text : value;
  resp_provider : string;
  resp_model : option string;
  tokenUsage : option TokenUsage
}.

Record CacheItem := {
  response : LLMResponse;
  timestamp : Z
}.

Definition CACHE_DURATION : Z := 30 * 60 * 1000.

Definition createCacheKey (request : LLMRequest) : string :=
  str_or (provider request) "auto" +:+ "-" +:+
  str_or (model request) "default" +:+ "-" +:+
  num_repr (num_or (maxTokens request) (Num "0")) +:+ "-" +:+
  num_repr (num_or (temperature request) (Num "0.7")) +:+ "-" +:+
  prompt request.

(** [{ ...request, provider: undefined }] *)
Definition clear_provider (request : LLMRequest) : LLMRequest :=
  {| prompt := prompt request;
     model := model request;
     maxTokens := maxTokens request;
     temperature := temperature request;
     provider := None;
     streaming := streaming request;
     onStreamingUpdate := onStreamingUpdate request |}.

(** ** Provider adapters *)

Inductive ProviderFamily := OpenAI | Claude | DeepSeek.

(** The [switch (provider.name)] of the three adapter functions; [None] is
    its [default:] branch. *)
Definition family (p : LLMProviderConfig) : option ProviderFamily :=
  if String.eqb (name p) "OpenAI" then Some OpenAI
  else if String.eqb (name p) "Claude" then Some Claude
  else if String.eqb (name p) "DeepSeek" then Some DeepSeek
  else None.

Definition SYSTEM_PROMPT : string :=
  "Ești un asistent specializat în analiza datelor despre case de schimb valutar din România. Răspunde concis și direct, oferind informații relevante și factuale.".

Definition unknown_provider (p : LLMProviderConfig) : exn :=
  Error ("Provider necunoscut: " +:+ name p).

(** [model || provider.models[0]] *)
Definition model_or_first (p : LLMProviderConfig) (model : option string) : option string :=
  match model with
  | Some m => if str_truthy m then Some m else head (models p)
  | None => head (models p)
  end.

Definition opt_str (s : option string) : value :=
  match s with Some s' => VStr s' | None => VUndefined end.

Definition chat_message (role content : string) : value :=
  VObj [("role", VStr role); ("content", VStr content)].

Definition formatPromptForProvider
  (p : LLMProviderConfig) (prompt : string) (model : option string)
  : completion value :=
  match family p with
  | Some OpenAI =>
      Returns (VObj [
        ("model", opt_str (model_or_first p model));
        ("messages", VArr [chat_message "system" SYSTEM_PROMPT;
                           chat_message "user" prompt]);
        ("max_tokens", VNum (Num "1000"));
        ("temperature", VNum (Num "0.7")) ])
  | Some Claude =>
      Returns (VObj [
        ("model", opt_str (model_or_first p model));
        ("messages", VArr [chat_message "user" prompt]);
        ("max_tokens", VNum (Num "1000"));
        ("temperature", VNum (Num "0.7"));
        ("system", VStr SYSTEM_PROMPT) ])
  | Some DeepSeek =>
      Returns (VObj [
        ("model", opt_str (model_or_first p model));
        ("messages", VArr [chat_message "system" SYSTEM_PROMPT;
                           chat_message "user" prompt]);
        ("max_tokens", VNum (Num "1000"));
        ("temperature", VNum (Num "0.7")) ])
  | None => Throws (unknown_provider p)
  end.

(** [responseData.choices[0]?.message?.content || ''] *)
Definition chat_completion_text (responseData : value) : completion value :=
  cbind (get responseData "choices") (fun choices =>
  cbind (get_index choices 0) (fun first =>
  Returns (or_else (get_opt (get_opt first "message") "content") (VStr "")))).

(** [responseData.content[0]?.text || ''] *)
Definition messages_text (responseData : value) : completion value :=
  cbind (get responseData "content") (fun content =>
  cbind (get_index content 0) (fun first =>
  Returns (or_else (get_opt first "text") (VStr "")))).

Definition extractResponseFromProvider
  (p : LLMProviderConfig) (responseData : value) : completion value :=
  match family p with
  | Some OpenAI => chat_completion_text responseData
  | Some Claude => messages_text responseData
  | Some DeepSeek => chat_completion_text responseData
  | None => Throws (unknown_provider p)
  end.

(** ** What the JavaScript runtime supplies

    [JSON.parse], [JSON.stringify] and the [+] operator on arbitrary values
    are taken from the runtime; of [+] only its behaviour on two strings is
    fixed.  Both [JSON.parse] and [+] may throw ([+] does when an operand is
    an object that cannot be converted to a primitive). *)
Class Runtime := {
  JSON_parse : string -> completion value;
  JSON_stringify : value -> string;
  js_add : value -> value -> completion value;
  js_add_strings : forall a b, js_add (VStr a) (VStr b) = Returns (VStr (a +:+ b))
}.

(** ** The world the service runs in *)

(** One [axios.post(url, data, { headers, responseType })]. *)
Record PostCall := {
  url : string;
  data : value;
  headers : list (string * string);
  responseType : option string
}.

(** [response.data]: a parsed body, or a readable stream and the chunks it
    is going to emit. *)
Inductive ResponseData :=
| Body (v : value)
| Stream (chunks : list string).

(** What awaiting a request brings back, and how long the wait took. *)
Record Reply := {
  outcome : completion ResponseData;
  elapsed : Z
}.

Inductive LogEntry :=
| console_log (msg : string)
| console_error (msg : string) (e : exn).

(** A ['data'] listener registered on a response stream, with the
    variable [accumulatedText] it closes over, the chunks the stream has yet
    to emit, the arguments [onStreamingUpdate] has been called with, and what
    the listener wrote to the console. *)
Record StreamState := {
  stream_provider : LLMProviderConfig;
  pending : list string;
  accumulatedText : value;
  updates : list value;
  stream_console : list LogEntry
}.

Record World := {
  responseCache : gmap string CacheItem;
  now : Z;
  posts : list PostCall;
  console : list LogEntry;
  streams : list StreamState
}.

Definition M (A : Type) : Type := World -> completion A * World.

Definition ret {A} (a : A) : M A := fun w => (Returns a, w).

Definition throw {A} (e : exn) : M A := fun w => (Throws e, w).

Definition bind {A B} (m : M A) (k : A -> M B) : M B :=
  fun w => match m w with
           | (Returns a, w') => k a w'
           | (Throws e, w') => (Throws e, w')
           end.

Definition lift {A} (c : completion A) : M A := fun w => (c, w).

Notation "x <-- m ;; k" := (bind m (fun x => k))
  (at level 100, m at next level, right associativity, only parsing).

Definition with_cache (c : gmap string CacheItem) (w : World) : World :=
  {| responseCache := c; now := now w; posts := posts w;
     console := console w; streams := streams w |}.

Definition with_now (t : Z) (w : World) : World :=
  {| responseCache := responseCache w; now := t; posts := posts w;
     console := console w; streams := streams w |}.

Definition with_posts (l : list PostCall) (w : World) : World :=
  {| responseCache := responseCache w; now := now w; posts := l;
     console := console w; streams := streams w |}.

Definition with_console (l : list LogEntry) (w : World) : World :=
  {| responseCache := responseCache w; now := now w; posts := posts w;
     console := l; streams := streams w |}.

Definition with_streams (l : list StreamState) (w : World) : World :=
  {| responseCache := responseCache w; now := now w; posts := posts w;
     console := console w; streams := l |}.

Definition log (entry : LogEntry) (w : World) : World :=
  with_console (console w ++ [entry]) w.

(** [Date.now()] *)
Definition Date_now : M Z := fun w => (Returns (now w), w).

(** [responseCache[key] = item] *)
Definition cache_put (key : string) (item : CacheItem) : M unit :=
  fun w => (Returns tt, with_cache (<[key := item]> (responseCache w)) w).

Definition is_streaming (request : LLMRequest) : bool :=
  match streaming request with Some b => b | None => false end.

Definition has_callback (request : LLMRequest) : bool :=
  match onStreamingUpdate request with Some _ => true | None => false end.

(** The condition under which [sendRequest] streams the dispatch. *)
Definition streamed (p : LLMProviderConfig) (request : LLMRequest) : bool :=
  is_streaming request && streamingSupport p && has_callback request.

Section Service.
Context `{Runtime}.

(** ** Token usage *)

(** [responseData.usage?.key || 0] *)
Definition usage_count (responseData : value) (key : string) : completion value :=
  cbind (get responseData "usage") (fun usage =>
  Returns (or_else (get_opt usage key) (VNum (Num "0")))).

(** The [try] block of [extractTokenUsage]. *)
Definition extractTokenUsage_try
  (p : LLMProviderConfig) (responseData : value) : completion (option TokenUsage) :=
  match family p with
  | Some OpenAI =>
      cbind (usage_count responseData "prompt_tokens") (fun pr =>
      cbind (usage_count responseData "completion_tokens") (fun co =>
      cbind (usage_count responseData "total_tokens") (fun to =>
      Returns (Some {| usage_prompt := pr; usage_completion := co; usage_total := to |}))))
  | Some Claude =>
      cbind (usage_count responseData "input_tokens") (fun pr =>
      cbind (usage_count responseData "output_tokens") (fun co =>
      cbind (usage_count responseData "input_tokens") (fun i =>
      cbind (usage_count responseData "output_tokens") (fun o =>
      cbind (js_add i o) (fun to =>
      Returns (Some {| usage_prompt := pr; usage_completion := co; usage_total := to |}))))))
  | Some DeepSeek =>
      cbind (usage_count responseData "prompt_tokens") (fun pr =>
      cbind (usage_count responseData "completion_tokens") (fun co =>
      cbind (usage_count responseData "total_tokens") (fun to =>
      Returns (Some {| usage_prompt := pr; usage_completion := co; usage_total := to |}))))
  | None => Returns None
  end.

Definition extractTokenUsage
  (p : LLMProviderConfig) (responseData : value) : M (option TokenUsage) :=
  fun w =>
    match extractTokenUsage_try p responseData with
    | Returns usage => (Returns usage, w)
    | Throws error =>
        (Returns None,
         log (console_error
                "Eroare la extragerea informațiilor despre utilizarea token-urilor:"
                error) w)
    end.

(** ** The ['data'] listener of a streamed response *)

(** The body of [for (const line of lines)], with its early [return] on the
    [[DONE]] sentinel and its inner [try]/[catch]. *)
Fixpoint handle_lines (lines : list string) (st : StreamState) : StreamState :=
  match lines with
  | [] => st
  | line :: rest =>
      if String.prefix "data: " line then
        let data := string_drop 6 line in
        if String.eqb data "[DONE]" then st
        else
          let caught e :=
            {| stream_provider := stream_provider st;
               pending := pending st;
               accumulatedText := accumulatedText st;
               updates := updates st;
               stream_console :=
                 stream_console st ++
                 [console_error "Eroare la parsarea datelor de streaming:" e] |} in
          let st' :=
            match cbind (JSON_parse data)
                        (extractResponseFromProvider (stream_provider st)) with
            | Returns content =>
                if truthy content then
                  match js_add (accumulatedText st) content with
                  | Returns acc =>
                      {| stream_provider := stream_provider st;
                         pending := pending st;
                         accumulatedText := acc;
                         updates := updates st ++ [acc];
                         stream_console := stream_console st |}
                  | Throws e => caught e
                  end
                else st
            | Throws e => caught e
            end in
          handle_lines rest st'
      else handle_lines rest st
  end.

(** [response.data.on('data', chunk => ...)] applied to one chunk. *)
Definition on_data (chunk : string) (st : StreamState) : StreamState :=
  handle_lines
    (List.filter (fun line => negb (String.eqb (trim line) "")) (split_on newline chunk))
    st.

(** The stream emits everything it still has. *)
Definition drain (st : StreamState) : StreamState :=
  let st' := fold_left (fun s chunk => on_data chunk s) (pending st) st in
  {| stream_provider := stream_provider st';
     pending := [];
     accumulatedText := accumulatedText st';
     updates := updates st';
     stream_console := stream_console st' |}.

(** ** The router *)

Section Router.
Variable registry : list (string * LLMProviderConfig).

(** The network: its answer to a request may depend on the requests sent
    before it. *)
Variable network : list PostCall -> PostCall -> Reply.

(** [await axios.post(...)] *)
Definition axios_post (call : PostCall) : M ResponseData :=
  fun w =>
    let reply := network (posts w) call in
    (outcome reply,
     with_now (now w + elapsed reply)%Z (with_posts (posts w ++ [call]) w)).

Definition request_headers (p : LLMProviderConfig) : list (string * string) :=
  [ ("Content-Type", "application/json");
    ("Authorization", "Bearer " +:+ apiKey p) ].

(** [{ ...requestData, stream: true }]; no adapter sets [stream] itself. *)
Definition with_stream_flag (requestData : value) : value :=
  match requestData with
  | VObj fields => VObj (fields ++ [("stream", VBool true)])
  | _ => VObj [("stream", VBool true)]
  end.

(** A parsed body has no callable [on]. *)
Definition not_a_stream (v : value) : exn :=
  if nullish v then cannot_read v "on"
  else TypeError "response.data.on is not a function".

(** A stream object read as a response body: none of the fields the adapters
    look for is there. *)
Definition as_body (d : ResponseData) : value :=
  match d with
  | Body v => v
  | Stream _ => VObj []
  end.

(** [response.data.on('data', listener)], with [accumulatedText] as it is at
    that point. *)
Definition subscribe (p : LLMProviderConfig) (d : ResponseData) (acc : value) : M unit :=
  fun w =>
    match d with
    | Stream chunks =>
        (Returns tt,
         with_streams (streams w ++
           [{| stream_provider := p; pending := chunks; accumulatedText := acc;
               updates := []; stream_console := [] |}]) w)
    | Body v => (Throws (not_a_stream v), w)
    end.

(** The [try] block of [sendRequest]. *)
Definition dispatch
  (p : LLMProviderConfig) (request : LLMRequest) (selectedModel : option string)
  : M LLMResponse :=
  requestData <-- lift (formatPromptForProvider p (prompt request) selectedModel) ;;
  if is_streaming request && streamingSupport p && has_callback request then
    response <-- axios_post {| url := apiEndpoint p;
                               data := with_stream_flag requestData;
                               headers := request_headers p;
                               responseType := Some "stream" |} ;;
    let accumulatedText := VStr "" in
    _ <-- subscribe p response accumulatedText ;;
    ret {| text := accumulatedText;
           resp_provider := name p;
           resp_model := selectedModel;
           tokenUsage := None |}
  else
    response <-- axios_post {| url := apiEndpoint p;
                               data := requestData;
                               headers := request_headers p;
                               responseType := None |} ;;
    responseText <-- lift (extractResponseFromProvider p (as_body response)) ;;
    tokenUsage <-- extractTokenUsage p (as_body response) ;;
    let llmResponse := {| text := responseText;
                          resp_provider := name p;
                          resp_model := selectedModel;
                          tokenUsage := tokenUsage |} in
    let cacheKey := createCacheKey request in
    t <-- Date_now ;;
    _ <-- cache_put cacheKey {| response := llmResponse; timestamp := t |} ;;
    ret llmResponse.

(** The cache check at the head of [sendRequest]: [Some] response when the
    call returns from the cache.  Every fingerprint contains a [-] and no
    member of [Object.prototype] does, so [responseCache[cacheKey]] is an
    entry of the cache, always truthy, or [undefined]. *)
Definition cache_check (request : LLMRequest) (w : World) : option (LLMResponse * World) :=
  if negb (is_streaming request) then
    match responseCache w !! createCacheKey request with
    | Some cachedResponse =>
        if (now w - timestamp cachedResponse <? CACHE_DURATION)%Z then
          Some (response cachedResponse,
                log (console_log "Răspuns LLM găsit în cache") w)
        else None
    | None => None
    end
  else None.

Definition has_provider (request : LLMRequest) : bool :=
  match provider request with
  | Some key => str_truthy key
  | None => false
  end.

Definition NO_PROVIDER : exn :=
  Error "Nu a fost găsit niciun provider LLM disponibil. Verificați cheile API.".

Definition communication_error (error : exn) : exn :=
  Error ("Eroare la comunicarea cu API-ul LLM: " +:+ message error).

(** [sendRequest] calls itself from its [catch] block; [depth] bounds the
    number of nested calls, and [None] means the bound was reached. *)
Fixpoint sendRequest_depth (depth : nat) (request : LLMRequest) (w : World)
  : option (completion LLMResponse * World) :=
  match depth with
  | O => None
  | S depth' =>
      match cache_check request w with
      | Some (cached, w') => Some (Returns cached, w')
      | None =>
          match getBestProvider registry (provider request) with
          | None => Some (Throws NO_PROVIDER, w)
          | Some p =>
              let selectedModel := model_or_first p (model request) in
              match dispatch p request selectedModel w with
              | (Returns llmResponse, w') => Some (Returns llmResponse, w')
              | (Throws error, w') =>
                  let w1 :=
                    log (console_error
                           "Eroare la trimiterea cererii către API-ul LLM:" error) w' in
                  if has_provider request then
                    sendRequest_depth depth' (clear_provider request)
                      (log (console_log "Încercare cu un alt provider...") w1)
                  else Some (Throws (communication_error error), w1)
              end
          end
      end
  end.

(** Two nested calls are all [sendRequest] ever makes ([sendRequest_depth_two]). *)
Definition sendRequest (request : LLMRequest) (w : World)
  : option (completion LLMResponse * World) :=
  sendRequest_depth 2 request w.

End Router.
End Service.

(** ** The helpers built on the router *)

(** [Partial<LLMRequest>]: the keys a caller may pass along. *)
Record RequestOptions := {
  opt_prompt : option string;
  opt_model : option string;
  opt_maxTokens : option number;
  opt_temperature : option number;
  opt_provider : option string;
  opt_streaming : option bool;
  opt_onStreamingUpdate : option StreamingCallback
}.

Definition no_options : RequestOptions :=
  {| opt_prompt := None; opt_model := None; opt_maxTokens := None;
     opt_temperature := None; opt_provider := None; opt_streaming := None;
     opt_onStreamingUpdate := None |}.

(** [{ prompt, ...options }] *)
Definition with_options (prompt : string) (options : RequestOptions) : LLMRequest :=
  {| prompt := default prompt (opt_prompt options);
     model := opt_model options;
     maxTokens := opt_maxTokens options;
     temperature := opt_temperature options;
     provider := opt_provider options;
     streaming := opt_streaming options;
     onStreamingUpdate := opt_onStreamingUpdate options |}.

(** [text.split('\n').map(line => line.trim()).filter(line => line.length > 0)];
    a [text] that is not a string has no [split] to call. *)
Definition insights_of (text : value) : completion (list string) :=
  match text with
  | VStr t =>
      Returns (List.filter (fun line => (0 <? String.length line)%nat)
                 (map trim (split_on newline t)))
  | v =>
      Throws (if nullish v then cannot_read v "split"
              else TypeError "response.text.split is not a function")
  end.

Section Helpers.
Context `{Runtime}.
Variable registry : list (string * LLMProviderConfig).
Variable network : list PostCall -> PostCall -> Reply.

Definition insights_prompt (dataContextStr : string) : string :=
  nl +:+
  "Analizează următoarele date despre casele de schimb valutar și identifică 3-5 insights valoroase sau tendințe interesante:"
  +:+ nl +:+ nl +:+
  dataContextStr +:+ nl +:+ nl +:+
  "Răspunde cu o listă de insights separate prin newline, fără numerotare sau marcatori. Fiecare insight trebuie să fie o propoziție concisă și informativă."
  +:+ nl.

Definition suggestInsights (dataContext : value) (options : RequestOptions) (w : World)
  : option (completion (list string) * World) :=
  let dataContextStr := JSON_stringify dataContext in
  let prompt := insights_prompt dataContextStr in
  match sendRequest registry network (with_options prompt options) w with
  | Some (Returns response, w') => Some (insights_of (text response), w')
  | Some (Throws e, w') => Some (Throws e, w')
  | None => None
  end.

(** [clearCache]: every key is deleted. *)
Definition clearCache (w : World) : World :=
  log (console_log "Cache LLM golit") (with_cache ∅ w).

End Helpers.

(** * Vocabulary of the properties *)

(** The comparator [(a, b) => key(a) - key(b)], the order it sorts by, and
    the test for one key. *)
Definition by_key {A} (key : A -> Z) (a b : A) : Z := (key a - key b)%Z.

Definition key_le_of {A} (key : A -> Z) (a b : A) : Prop := (key a <= key b)%Z.

Definition keyed_by {A} (key : A -> Z) (k : Z) (a : A) : bool := (key a =? k)%Z.

(** The line feed, the tab and the carriage return by their codes, and two
    of the white space characters that take more than one byte: U+00A0 and
    U+3000. *)
Definition LF : ascii := "010"%char.
Definition LINE_FEED : string := String LF EmptyString.
Definition TAB : string := String "009"%char EmptyString.
Definition CR : string := String "013"%char EmptyString.
Definition NBSP : string := String "194"%char (String "160"%char EmptyString).
Definition IDEOGRAPHIC_SPACE : string :=
  String "227"%char (String "128"%char (String "128"%char EmptyString)).

(** The lines, joined by line feeds. *)
Fixpoint join_lines (lines : list string) : string :=
  match lines with
  | [] => ""
  | line :: rest =>
      match rest with
      | [] => line
      | _ :: _ => line +:+ String LF (join_lines rest)
      end
  end.

Definition has_line_feed (s : string) : Prop := In LF (list_ascii_of_string s).

(** The units, one after the other. *)
Definition glue (units : list string) : string := foldr String.append "" units.

(** Nothing but white space. *)
Definition blank (s : string) : Prop :=
  exists units, Forall (fun u => In u white_space) units /\ s = glue units.

(** Neither starts nor ends with white space. *)
Definition trimmed (s : string) : Prop :=
  forall u r, In u white_space -> s <> u +:+ r /\ s <> r +:+ u.

(** [core] is [line] without the white space at its two ends; nothing is
    left of a line of white space. *)
Definition trim_of (line core : string) : Prop :=
  trimmed core /\ (blank line -> core = "") /\
  exists pre post, blank pre /\ blank post /\ line = pre +:+ core +:+ post.

(** Dropping the empty strings. *)
Definition nonempty (l : list string) : list string :=
  List.filter (fun s => negb (String.eqb s "")) l.

(** The text of the example: [a], a blank line, [b], [c]. *)
Definition example_text : string :=
  "a" +:+ LINE_FEED +:+ LINE_FEED +:+ "b" +:+ LINE_FEED +:+ "c".

(** A text whose lines have white space at their ends and in their middle,
    with lines of white space only and a line feed at its end. *)
Definition spaced_text : string :=
  "  first insight " +:+ CR +:+ LINE_FEED +:+
  TAB +:+ " " +:+ NBSP +:+ LINE_FEED +:+
  LINE_FEED +:+
  IDEOGRAPHIC_SPACE +:+ "second" +:+ TAB +:+ LINE_FEED +:+
  "third" +:+ NBSP +:+ LINE_FEED.

(** The registry of the source with the first credential missing. *)
Definition registryABC : list (string * LLMProviderConfig) :=
  LLM_PROVIDERS {| NEXT_PUBLIC_OPENAI_API_KEY := None;
                   NEXT_PUBLIC_ANTHROPIC_API_KEY := Some "sk-b";
                   NEXT_PUBLIC_DEEPSEEK_API_KEY := Some "sk-c" |}.

(** The requested name does not select a provider: it is absent, empty,
    unknown, or names a provider without credential. *)
Definition falls_back
  (registry : list (string * LLMProviderConfig)) (requested : option string) : Prop :=
  match requested with
  | None => True
  | Some key =>
      key = "" \/ registry_lookup registry key = None \/
      exists p, registry_lookup registry key = Some p /\ apiKey p = ""
  end.

(** A provider descriptor of the given family name, for evaluating the
    adapters, which look at nothing but the name and the first model. *)
Definition adapter (family_name : string) : LLMProviderConfig :=
  {| name := family_name; apiEndpoint := ""; apiKey := "key";
     models := ["m"]; cfg_maxTokens := 0; streamingSupport := true; priority := 0 |}.

(** A request body with the sampling parameters the adapters write. *)
Definition fixed_sampling (body : value) : Prop :=
  member body "max_tokens" = VNum (Num "1000") /\
  member body "temperature" = VNum (Num "0.7").

(** The five components of the cache fingerprint. *)
Definition key_components (request : LLMRequest)
  : string * string * number * number * string :=
  (str_or (provider request) "auto",
   str_or (model request) "default",
   num_or (maxTokens request) (Num "0"),
   num_or (temperature request) (Num "0.7"),
   prompt request).

Definition RETRY : LogEntry := console_log "Încercare cu un alt provider...".
Definition CACHE_HIT : LogEntry := console_log "Răspuns LLM găsit în cache".
Definition SEND_FAILED (error : exn) : LogEntry :=
  console_error "Eroare la trimiterea cererii către API-ul LLM:" error.

Definition is_retry (entry : LogEntry) : bool :=
  match entry with
  | console_log msg => String.eqb msg "Încercare cu un alt provider..."
  | console_error _ _ => false
  end.

(** How often the console says that another provider is being tried: once
    per nested call of [sendRequest]. *)
Definition retries (entries : list LogEntry) : nat :=
  length (List.filter is_retry entries).

(** A world with its cache taken out. *)
Definition outside_cache (w : World) : World := with_cache ∅ w.

(** Whether two runs end alike, up to the contents of the cache. *)
Definition alike {A} (run1 run2 : option (completion A * World)) : Prop :=
  match run1, run2 with
  | Some (out1, w1), Some (out2, w2) => out1 = out2 /\ outside_cache w1 = outside_cache w2
  | None, None => True
  | _, _ => False
  end.

(** The caller has been told the accumulated text: it is the last argument
    [onStreamingUpdate] was called with, or still [initial] when the callback
    has not been called. *)
Definition reported (initial : value) (st : StreamState) : Prop :=
  match last (updates st) with
  | Some v => accumulatedText st = v
  | None => accumulatedText st = initial
  end.

(** [{ ...request, maxTokens, temperature }] *)
Definition with_sampling (mt temp : option number) (request : LLMRequest) : LLMRequest :=
  {| prompt := prompt request;
     model := model request;
     maxTokens := mt;
     temperature := temp;
     provider := provider request;
     streaming := streaming request;
     onStreamingUpdate := onStreamingUpdate request |}.

Section Dispatched.
Context `{Runtime}.
Variable network : list PostCall -> PostCall -> Reply.

(** The request [dispatch] sends for a body the adapter built. *)
Definition call_of (p : LLMProviderConfig) (request : LLMRequest) (body : value) : PostCall :=
  if streamed p request then
    {| url := apiEndpoint p; data := with_stream_flag body;
       headers := request_headers p; responseType := Some "stream" |}
  else
    {| url := apiEndpoint p; data := body;
       headers := request_headers p; responseType := None |}.

(** The world when the [await] resumes. *)
Definition after_post (call : PostCall) (w : World) : World :=
  with_now (now w + elapsed (network (posts w) call))%Z (with_posts (posts w ++ [call]) w).

(** The six ways through the [try] block. *)
Inductive dispatched (p : LLMProviderConfig) (request : LLMRequest)
  (m : option string) (w : World) : completion LLMResponse * World -> Prop :=
| adapter_failed e :
    formatPromptForProvider p (prompt request) m = Throws e ->
    dispatched p request m w (Throws e, w)
| post_failed body e :
    formatPromptForProvider p (prompt request) m = Returns body ->
    outcome (network (posts w) (call_of p request body)) = Throws e ->
    dispatched p request m w (Throws e, after_post (call_of p request body) w)
| stream_opened body chunks :
    formatPromptForProvider p (prompt request) m = Returns body ->
    streamed p request = true ->
    outcome (network (posts w) (call_of p request body)) = Returns (Stream chunks) ->
    dispatched p request m w
      (Returns {| text := VStr ""; resp_provider := name p; resp_model := m;
                  tokenUsage := None |},
       with_streams
         (streams w ++ [{| stream_provider := p; pending := chunks;
                           accumulatedText := VStr ""; updates := [];
                           stream_console := [] |}])
         (after_post (call_of p request body) w))
| stream_missing body v :
    formatPromptForProvider p (prompt request) m = Returns body ->
    streamed p request = true ->
    outcome (network (posts w) (call_of p request body)) = Returns (Body v) ->
    dispatched p request m w
      (Throws (not_a_stream v), after_post (call_of p request body) w)
| extraction_failed body d e :
    formatPromptForProvider p (prompt request) m = Returns body ->
    streamed p request = false ->
    outcome (network (posts w) (call_of p request body)) = Returns d ->
    extractResponseFromProvider p (as_body d) = Throws e ->
    dispatched p request m w (Throws e, after_post (call_of p request body) w)
| completed body d responseText usage w1 :
    formatPromptForProvider p (prompt request) m = Returns body ->
    streamed p request = false ->
    outcome (network (posts w) (call_of p request body)) = Returns d ->
    extractResponseFromProvider p (as_body d) = Returns responseText ->
    extractTokenUsage p (as_body d) (after_post (call_of p request body) w)
      = (Returns usage, w1) ->
    dispatched p request m w
      (Returns {| text := responseText; resp_provider := name p;
                  resp_model := m; tokenUsage := usage |},
       with_cache
         (<[createCacheKey request :=
              {| response := {| text := responseText; resp_provider := name p;
                                resp_model := m; tokenUsage := usage |};
                 timestamp := now w1 |}]> (responseCache w1)) w1).

End Dispatched.

(** ** A concrete environment for the examples *)

Definition dq : string := String (ascii_of_nat 34) EmptyString.

Definition quoted (s : string) : string := dq +:+ s +:+ dq.

(** The JSON text of a chat completion whose content is [hi]. *)
Definition hi_payload : string :=
  "{" +:+ quoted "choices" +:+ ":[{" +:+ quoted "message" +:+ ":{" +:+
  quoted "content" +:+ ":" +:+ quoted "hi" +:+ "}}]}".

Definition hi_body : value :=
  VObj [("choices", VArr [VObj [("message", VObj [("content", VStr "hi")])]])].

(** A runtime for the examples: its [JSON.parse] knows the one payload they
    use, and its [+] is the concatenation of two strings (the examples add
    nothing else). *)
Definition example_parse (s : string) : completion value :=
  if String.eqb s hi_payload then Returns hi_body
  else Throws (SyntaxError "Unexpected token").

Definition example_add (a b : value) : completion value :=
  match a, b with
  | VStr x, VStr y => Returns (VStr (x +:+ y))
  | _, _ => Throws (TypeError "Cannot convert object to primitive value")
  end.

Definition example_runtime : Runtime :=
  {| JSON_parse := example_parse;
     JSON_stringify := fun _ => "{}";
     js_add := example_add;
     js_add_strings := fun a b => eq_refl |}.

Definition all_keys : ProcessEnv :=
  {| NEXT_PUBLIC_OPENAI_API_KEY := Some "sk-a";
     NEXT_PUBLIC_ANTHROPIC_API_KEY := Some "sk-b";
     NEXT_PUBLIC_DEEPSEEK_API_KEY := Some "sk-c" |}.

Definition boot : World :=
  {| responseCache := ∅; now := 0; posts := []; console := []; streams := [] |}.

Definition ask (prompt : string) : LLMRequest :=
  {| prompt := prompt; model := None; maxTokens := None; temperature := None;
     provider := None; streaming := None; onStreamingUpdate := None |}.

Definition ask_provider (key prompt : string) : LLMRequest :=
  {| prompt := prompt; model := None; maxTokens := None; temperature := None;
     provider := Some key; streaming := None; onStreamingUpdate := None |}.

Definition ask_streaming (prompt : string) (cb : option StreamingCallback) : LLMRequest :=
  {| prompt := prompt; model := None; maxTokens := None; temperature := None;
     provider := None; streaming := Some true; onStreamingUpdate := cb |}.

(** A network that answers every request with the [hi] completion, as a body
    or, when a stream is asked for, as one server-sent event. *)
Definition net_hi (_ : list PostCall) (call : PostCall) : Reply :=
  match responseType call with
  | Some _ => {| outcome := Returns (Stream ["data: " +:+ hi_payload]); elapsed := 5 |}
  | None => {| outcome := Returns (Body hi_body); elapsed := 5 |}
  end.

(** A network whose first request fails. *)
Definition net_fail_first (sent : list PostCall) (call : PostCall) : Reply :=
  match sent with
  | [] => {| outcome := Throws (Error "Network Error"); elapsed := 5 |}
  | _ => net_hi sent call
  end.

(** A network that is down. *)
Definition net_down (_ : list PostCall) (_ : PostCall) : Reply :=
  {| outcome := Throws (Error "Network Error"); elapsed := 5 |}.

Definition world_after {A} (run : option (completion A * World)) : World :=
  match run with Some (_, w) => w | None => boot end.

Definition result_of {A} (run : option (completion A * World)) : option (completion A) :=
  fst <$> run.

Definition example_registry : list (string * LLMProviderConfig) := LLM_PROVIDERS all_keys.

Definition example_openai : LLMProviderConfig :=
  nth 0 (registry_values example_registry) (adapter "").

Definition example_deepseek : LLMProviderConfig :=
  nth 2 (registry_values example_registry) (adapter "").

Definition no_usage : TokenUsage :=
  {| usage_prompt := VNum (Num "0"); usage_completion := VNum (Num "0");
     usage_total := VNum (Num "0") |}.

Definition hi_response : LLMResponse :=
  {| text := VStr "hi"; resp_provider := "OpenAI"; resp_model := Some "gpt-4-turbo";
     tokenUsage := Some no_usage |}.

Definition hi_response_deepseek : LLMResponse :=
  {| text := VStr "hi"; resp_provider := "DeepSeek"; resp_model := Some "deepseek-chat";
     tokenUsage := Some no_usage |}.

Definition ask_streaming_from (key prompt : string) (cb : option StreamingCallback)
  : LLMRequest :=
  {| prompt := prompt; model := None; maxTokens := None; temperature := None;
     provider := Some key; streaming := Some true; onStreamingUpdate := cb |}.

(** A network that answers with a completion of three lines and a blank one. *)
Definition net_lines (_ : list PostCall) (_ : PostCall) : Reply :=
  {| outcome :=
       Returns (Body (VObj [("choices",
         VArr [VObj [("message", VObj [("content", VStr example_text)])]])]));
     elapsed := 5 |}.

(** The response a run of the [try] block returned. *)
Definition fst_response (d : completion LLMResponse * World) : LLMResponse :=
  match fst d with
  | Returns r => r
  | Throws _ => hi_response
  end.

Definition run (network : list PostCall -> PostCall -> Reply)
  (request : LLMRequest) (w : World) : option (completion LLMResponse * World) :=
  sendRequest (H := example_runtime) example_registry network request w.

Definition lines_response : LLMResponse :=
  {| text := VStr example_text; resp_provider := "OpenAI"; resp_model := Some "gpt-4-turbo";
     tokenUsage := Some no_usage |}.

(** A network that answers with the text that has white space in it. *)
Definition net_spaced (_ : list PostCall) (_ : PostCall) : Reply :=
  {| outcome :=
       Returns (Body (VObj [("choices",
         VArr [VObj [("message", VObj [("content", VStr spaced_text)])]])]));
     elapsed := 5 |}.

Definition spaced_response : LLMResponse :=
  {| text := VStr spaced_text; resp_provider := "OpenAI"; resp_model := Some "gpt-4-turbo";
     tokenUsage := Some no_usage |}.

(** * The report and question helpers *)

Section Reports.
Context `{Runtime}.
Variable registry : list (string * LLMProviderConfig).
Variable network : list PostCall -> PostCall -> Reply.

Definition report_prompt (promptTemplate dataContextStr : string) : string :=
  nl +:+ promptTemplate +:+ nl +:+ nl +:+
  "Date de analizat:" +:+ nl +:+
  dataContextStr +:+ nl +:+ nl +:+
  "Formatează răspunsul ca un raport scurt, clar și informativ." +:+ nl.

Definition generateReport
  (dataContext : value) (promptTemplate : string) (options : RequestOptions) (w : World)
  : option (completion value * World) :=
  let dataContextStr := JSON_stringify dataContext in
  let prompt := report_prompt promptTemplate dataContextStr in
  match sendRequest registry network (with_options prompt options) w with
  | Some (Returns response, w') => Some (Returns (text response), w')
  | Some (Throws e, w') => Some (Throws e, w')
  | None => None
  end.

Definition question_prompt (question dataContextStr : string) : string :=
  nl +:+ "Întrebarea utilizatorului: " +:+ quoted question +:+ nl +:+ nl +:+
  "Date disponibile pentru a răspunde la întrebare:" +:+ nl +:+
  dataContextStr +:+ nl +:+ nl +:+
  "Răspunde la întrebarea utilizatorului în mod direct și concis, bazat pe datele furnizate."
  +:+ nl.

Definition interpretQuestion
  (question : string) (dataContext : value) (options : RequestOptions) (w : World)
  : option (completion value * World) :=
  let dataContextStr := JSON_stringify dataContext in
  let prompt := question_prompt question dataContextStr in
  match sendRequest registry network (with_options prompt options) w with
  | Some (Returns response, w') => Some (Returns (text response), w')
  | Some (Throws e, w') => Some (Throws e, w')
  | None => None
  end.

(** One call of [sendRequest] that makes no nested call: the four ways it
    can end. *)
Inductive single (request : LLMRequest) (w : World)
  : completion LLMResponse -> World -> Prop :=
| from_cache r w' :
    cache_check request w = Some (r, w') ->
    single request w (Returns r) w'
| no_provider :
    cache_check request w = None ->
    getBestProvider registry (provider request) = None ->
    single request w (Throws NO_PROVIDER) w
| own_dispatch p r w' :
    cache_check request w = None ->
    getBestProvider registry (provider request) = Some p ->
    dispatch network p request (model_or_first p (model request)) w = (Returns r, w') ->
    single request w (Returns r) w'
| gave_up p e w0 :
    cache_check request w = None ->
    getBestProvider registry (provider request) = Some p ->
    dispatch network p request (model_or_first p (model request)) w = (Throws e, w0) ->
    has_provider request = false ->
    single request w (Throws (communication_error e)) (log (SEND_FAILED e) w0).

(** A call of [sendRequest]: one call, or a failed dispatch followed by one
    call on the request with its provider cleared. *)
Inductive routed (request : LLMRequest) (w : World)
  : completion LLMResponse -> World -> Prop :=
| directly out w' :
    single request w out w' ->
    routed request w out w'
| after_retry p e w0 out w' :
    cache_check request w = None ->
    getBestProvider registry (provider request) = Some p ->
    dispatch network p request (model_or_first p (model request)) w = (Throws e, w0) ->
    has_provider request = true ->
    single (clear_provider request) (log RETRY (log (SEND_FAILED e) w0)) out w' ->
    routed request w out w'.

End Reports.

(** ** More vocabulary *)

(** No credential is configured. *)
Definition no_keys : ProcessEnv :=
  {| NEXT_PUBLIC_OPENAI_API_KEY := None;
     NEXT_PUBLIC_ANTHROPIC_API_KEY := None;
     NEXT_PUBLIC_DEEPSEEK_API_KEY := None |}.

(** The request goes to the endpoint of the provider, with the two headers
    of a JSON request that is authorised by the provider's key. *)
Definition sent_to (p : LLMProviderConfig) (call : PostCall) : Prop :=
  url call = apiEndpoint p /\
  headers call = [ ("Content-Type", "application/json");
                   ("Authorization", "Bearer " +:+ apiKey p) ].

(** The request goes to a provider of the registry that has a credential,
    at its endpoint and with its key. *)
Definition targets (registry : list (string * LLMProviderConfig)) (call : PostCall) : Prop :=
  exists q, In q (registry_values registry) /\ apiKey q <> "" /\ sent_to q call.

(** The [content] of the last of the [messages] of a request body. *)
Definition user_content (body : value) : value :=
  match member body "messages" with
  | VArr msgs => match last msgs with
                 | Some msg => member msg "content"
                 | None => VUndefined
                 end
  | _ => VUndefined
  end.

(** [{ ...request, streaming, onStreamingUpdate }] *)
Definition with_streaming (s : option bool) (cb : option StreamingCallback)
  (request : LLMRequest) : LLMRequest :=
  {| prompt := prompt request;
     model := model request;
     maxTokens := maxTokens request;
     temperature := temperature request;
     provider := provider request;
     streaming := s;
     onStreamingUpdate := cb |}.

(** [{ ...request, provider, model }] *)
Definition with_route (pr md : option string) (request : LLMRequest) : LLMRequest :=
  {| prompt := prompt request;
     model := md;
     maxTokens := maxTokens request;
     temperature := temperature request;
     provider := pr;
     streaming := streaming request;
     onStreamingUpdate := onStreamingUpdate request |}.

(** The listener with other chunks to come. *)
Definition with_pending (chunks : list string) (st : StreamState) : StreamState :=
  {| stream_provider := stream_provider st;
     pending := chunks;
     accumulatedText := accumulatedText st;
     updates := updates st;
     stream_console := stream_console st |}.

(** The line that carries the end-of-stream sentinel. *)
Definition DONE_LINE : string := "data: [DONE]".

(** From [st] to [st'] the listener only called [onStreamingUpdate] some
    more times, and its accumulated text is the argument of the last of
    these calls, or what it was when there was none. *)
Definition told (st st' : StreamState) : Prop :=
  exists more,
    updates st' = (updates st ++ more)%list /\
    accumulatedText st' = default (accumulatedText st) (last more).

(** A list extends another at its end. *)
Definition extends {A} (l l' : list A) : Prop := exists more, l' = (l ++ more)%list.


(** The lines of a chunk the listener takes for events. *)
Definition event_lines (chunk : string) : list string :=
  List.filter (String.prefix "data: ")
    (List.filter (fun line => negb (String.eqb (trim line) "")) (split_on newline chunk)).

(** The events of these chunks carry their text as strings: whenever the
    adapter of the provider gets a text from one of them, it is a string. *)
Definition textual `{Runtime} (p : LLMProviderConfig) (chunks : list string) : Prop :=
  forall chunk line v,
    In chunk chunks -> In line (event_lines chunk) ->
    cbind (JSON_parse (string_drop 6 line)) (extractResponseFromProvider p) = Returns v ->
    exists s, v = VStr s.

(** A streamed event in the shape of the OpenAI streaming protocol: the text
    sits under [delta], not under [message]. *)
Definition delta_body : value :=
  VObj [("choices", VArr [VObj [("delta", VObj [("content", VStr "hi")])]])].

(** A runtime whose [JSON.parse] reads every payload as that event. *)
Definition delta_runtime : Runtime :=
  {| JSON_parse := fun _ => Returns delta_body;
     JSON_stringify := fun _ => "{}";
     js_add := example_add;
     js_add_strings := fun a b => eq_refl |}.

(** The JSON text of a chat completion whose content is the number 5, and
    a runtime whose [JSON.parse] knows it beside the [hi] payload. *)
Definition five_payload : string :=
  "{" +:+ quoted "choices" +:+ ":[{" +:+ quoted "message" +:+ ":{" +:+
  quoted "content" +:+ ":5}}]}".

Definition five_body : value :=
  VObj [("choices", VArr [VObj [("message", VObj [("content", VNum (Num "5"))])]])].

Definition two_payload_parse (s : string) : completion value :=
  if String.eqb s hi_payload then Returns hi_body
  else if String.eqb s five_payload then Returns five_body
  else Throws (SyntaxError "Unexpected token").

Definition two_payload_runtime : Runtime :=
  {| JSON_parse := two_payload_parse;
     JSON_stringify := fun _ => "{}";
     js_add := example_add;
     js_add_strings := fun a b => eq_refl |}.

(** Two chunks of a stream: two events and a comment line, then a broken
    event and the sentinel. *)
Definition hi_chunks : list string :=
  [ "data: " +:+ hi_payload +:+ LINE_FEED +:+ LINE_FEED +:+
    ": keep-alive" +:+ LINE_FEED +:+
    "data: " +:+ hi_payload +:+ LINE_FEED;
    "data: {" +:+ LINE_FEED +:+ "data: [DONE]" +:+ LINE_FEED ].

(** A network that answers with a completion whose content is the number 5. *)
Definition net_number (_ : list PostCall) (_ : PostCall) : Reply :=
  {| outcome :=
       Returns (Body (VObj [("choices",
         VArr [VObj [("message", VObj [("content", VNum (Num "5"))])]])]));
     elapsed := 5 |}.

Definition number_response : LLMResponse :=
  {| text := VNum (Num "5"); resp_provider := "OpenAI";
     resp_model := Some "gpt-4-turbo"; tokenUsage := Some no_usage |}.

(** A registry whose only provider has no adapter. *)
Definition mistral_registry : list (string * LLMProviderConfig) :=
  [("mistral", adapter "Mistral")].

(** The run of the examples' runtime against a registry without credentials. *)
Definition run_without_keys (request : LLMRequest) (w : World)
  : option (completion LLMResponse * World) :=
  sendRequest (H := example_runtime) (LLM_PROVIDERS no_keys) net_hi request w.

(** The world after the examples' plain request was answered. *)
Definition answered : World := world_after (run net_hi (ask "p") boot).

(** What the [try] block does for the examples' OpenAI provider. *)
Definition try_openai (network : list PostCall -> PostCall -> Reply)
  (request : LLMRequest) (w : World) : completion LLMResponse * World :=
  dispatch (H := example_runtime) network example_openai request
    (Some "gpt-4-turbo") w.

(** A listener of the examples' OpenAI provider that has reported nothing. *)
Definition fresh_listener (chunks : list string) : StreamState :=
  {| stream_provider := example_openai; pending := chunks;
     accumulatedText := VStr ""; updates := []; stream_console := [] |}.

(** * Properties *)

(** Runs the [try] block up to its request, along the branch [S] selects. *)
Ltac dispatch_step E S :=
  unfold dispatch, bind, lift; rewrite E;
  unfold call_of in *; unfold streamed in *;
  rewrite ?S in *; cbv beta iota in *; unfold axios_post, after_post, subscribe, ret.

(** ** Sorting by an integer key *)

Section SortFacts.
Context {A : Type} (key : A -> Z).

Lemma sort_insert_perm x l : Permutation (sort_insert (by_key key) x l) (x :: l).
Proof.
  induction l as [|y l IH]; simpl; [reflexivity|].
  destruct (by_key key x y <=? 0)%Z; [reflexivity|].
  rewrite IH. apply perm_swap.
Qed.

Lemma js_sort_perm l : Permutation (js_sort (by_key key) l) l.
Proof.
  induction l as [|x l IH]; simpl; [reflexivity|].
  rewrite sort_insert_perm. now constructor.
Qed.

Lemma sort_insert_sorted x l :
  StronglySorted (key_le_of key) l -> StronglySorted (key_le_of key) (sort_insert (by_key key) x l).
Proof.
  induction 1 as [|y l Hl IH Hy]; simpl.
  - repeat constructor.
  - destruct (by_key key x y <=? 0)%Z eqn:E.
    + apply Z.leb_le in E. unfold by_key in E.
      constructor; [now constructor|].
      constructor; [unfold key_le_of; lia|].
      eapply Forall_impl; [exact Hy|]. unfold key_le_of. intros a Ha. simpl in Ha. lia.
    + apply Z.leb_gt in E. unfold by_key in E.
      constructor; [exact IH|].
      rewrite (sort_insert_perm x l).
      constructor; [unfold key_le_of; lia|exact Hy].
Qed.

Lemma js_sort_sorted l : StronglySorted (key_le_of key) (js_sort (by_key key) l).
Proof.
  induction l as [|x l IH]; simpl; [constructor|].
  now apply sort_insert_sorted.
Qed.

Lemma sort_insert_keyed k x l :
  List.filter (keyed_by key k) (sort_insert (by_key key) x l) = List.filter (keyed_by key k) (x :: l).
Proof.
  induction l as [|y l IH]; [reflexivity|].
  cbn [sort_insert].
  destruct (by_key key x y <=? 0)%Z eqn:E; [reflexivity|].
  apply Z.leb_gt in E. unfold by_key in E.
  cbn [List.filter] in *. rewrite IH. unfold keyed_by.
  destruct (key x =? k)%Z eqn:Ex, (key y =? k)%Z eqn:Ey; try reflexivity.
  apply Z.eqb_eq in Ex, Ey. lia.
Qed.

(** Stability: the elements of any one key keep their order. *)
Lemma js_sort_stable k l :
  List.filter (keyed_by key k) (js_sort (by_key key) l) = List.filter (keyed_by key k) l.
Proof.
  induction l as [|x l IH]; [reflexivity|].
  cbn [js_sort foldr]. rewrite sort_insert_keyed.
  cbn [List.filter]. fold (js_sort (by_key key) l). now rewrite IH.
Qed.

Lemma keyed_nil l : (forall k, List.filter (keyed_by key k) l = []) -> l = [].
Proof.
  destruct l as [|x l]; [reflexivity|].
  intros Hk. specialize (Hk (key x)). cbn in Hk.
  unfold keyed_by in Hk. rewrite Z.eqb_refl in Hk. discriminate.
Qed.

Lemma sorted_head_le y t x :
  StronglySorted (key_le_of key) (y :: t) -> In x (y :: t) -> (key y <= key x)%Z.
Proof.
  intros Hs [->|Hin]; [lia|].
  apply StronglySorted_inv in Hs. destruct Hs as [_ Hall].
  rewrite Forall_forall in Hall. apply Hall. now apply list_elem_of_In.
Qed.

Lemma keyed_self x : keyed_by key (key x) x = true.
Proof. unfold keyed_by. apply Z.eqb_refl. Qed.

Lemma keyed_In k x l : In x (List.filter (keyed_by key k) l) <-> In x l /\ key x = k.
Proof. rewrite filter_In. unfold keyed_by. now rewrite Z.eqb_eq. Qed.

(** An ordered list is determined by its per-key sublists: a stable, ordered
    rearrangement of a list is unique. *)
Lemma stable_sorted_unique l1 l2 :
  StronglySorted (key_le_of key) l1 -> StronglySorted (key_le_of key) l2 ->
  (forall k, List.filter (keyed_by key k) l1 = List.filter (keyed_by key k) l2) ->
  l1 = l2.
Proof.
  revert l2. induction l1 as [|x t1 IH]; intros l2 H1 H2 Hk.
  - symmetry. apply keyed_nil. intros k. now rewrite <- Hk.
  - destruct l2 as [|y t2].
    + apply keyed_nil. intros k. now rewrite Hk.
    + assert (Hxy : key x = key y).
      { apply Z.le_antisymm.
        - apply (sorted_head_le x t1 y H1).
          apply (keyed_In (key y)). rewrite Hk. apply keyed_In. split; [now left|reflexivity].
        - apply (sorted_head_le y t2 x H2).
          apply (keyed_In (key x)). rewrite <- Hk. apply keyed_In. split; [now left|reflexivity]. }
      pose proof (Hk (key x)) as E. cbn [List.filter] in E.
      rewrite keyed_self in E. rewrite Hxy in E. rewrite keyed_self in E.
      injection E as -> E.
      f_equal. apply IH.
      * now apply StronglySorted_inv in H1.
      * now apply StronglySorted_inv in H2.
      * intros k. specialize (Hk k). cbn [List.filter] in Hk.
        destruct (keyed_by key k y); [now injection Hk|exact Hk].
Qed.

(** Whatever stable, ordering sort the engine runs, it returns [js_sort]. *)
Lemma js_sort_unique l l' :
  StronglySorted (key_le_of key) l' ->
  (forall k, List.filter (keyed_by key k) l' = List.filter (keyed_by key k) l) ->
  l' = js_sort (by_key key) l.
Proof.
  intros Hs Hk. apply stable_sorted_unique; [exact Hs|apply js_sort_sorted|].
  intros k. now rewrite js_sort_stable.
Qed.

End SortFacts.

(** ** The provider registry *)

Lemma str_truthy_spec s : str_truthy s = true <-> s <> "".
Proof.
  unfold str_truthy. rewrite negb_true_iff. apply String.eqb_neq.
Qed.

Lemma str_truthy_false s : str_truthy s = false <-> s = "".
Proof.
  unfold str_truthy. rewrite negb_false_iff. apply String.eqb_eq.
Qed.

Lemma available_spec p : available p = true <-> apiKey p <> "".
Proof. apply str_truthy_spec. Qed.

Lemma available_false p : available p = false <-> apiKey p = "".
Proof. apply str_truthy_false. Qed.

Lemma getAvailableProviders_In registry p :
  In p (getAvailableProviders registry) <->
  In p (registry_values registry) /\ apiKey p <> "".
Proof.
  unfold getAvailableProviders.
  rewrite <- available_spec, <- filter_In.
  split; apply Permutation_in; [|symmetry]; apply (js_sort_perm priority).
Qed.

Lemma head_sorted_least (l : list LLMProviderConfig) q :
  StronglySorted (fun a b => (priority a <= priority b)%Z) l ->
  head l = Some q -> forall q', In q' l -> (priority q <= priority q')%Z.
Proof.
  intros Hs Hq q' Hin. destruct l as [|x l]; [discriminate|].
  injection Hq as ->. now apply (sorted_head_le priority q l q').
Qed.

(** C7.  [getAvailableProviders()] returns exactly the providers whose
    credential is non-empty (as a rearrangement of the filtered registry, so
    with the same members), in ascending order of [priority], and the
    providers of any one priority appear in the order the registry declares
    them. *)
Theorem getAvailableProviders_filtered_sorted_stable
  (registry : list (string * LLMProviderConfig)) :
  Permutation (getAvailableProviders registry)
              (List.filter available (registry_values registry)) /\
  (forall p, In p (getAvailableProviders registry) <->
             In p (registry_values registry) /\ apiKey p <> "") /\
  StronglySorted (fun a b => (priority a <= priority b)%Z)
                 (getAvailableProviders registry) /\
  (forall k, List.filter (fun p => (priority p =? k)%Z) (getAvailableProviders registry)
           = List.filter (fun p => (priority p =? k)%Z)
                         (List.filter available (registry_values registry))).
Proof.
  split; [apply (js_sort_perm priority)|].
  split; [apply getAvailableProviders_In|].
  split; [apply (js_sort_sorted priority)|].
  intros k. apply (js_sort_stable priority).
Qed.

Lemma getBestProvider_explicit registry key p :
  key <> "" -> registry_lookup registry key = Some p -> apiKey p <> "" ->
  getBestProvider registry (Some key) = Some p.
Proof.
  intros Hk Hl Ha. unfold getBestProvider.
  apply str_truthy_spec in Hk. apply available_spec in Ha.
  rewrite Hk, Hl. cbv beta iota zeta. now rewrite Ha.
Qed.

Lemma getBestProvider_fallback registry requested :
  falls_back registry requested ->
  getBestProvider registry requested = head (getAvailableProviders registry).
Proof.
  unfold getBestProvider. destruct requested as [key|]; [|reflexivity].
  intros [->|[Hl|(p & Hl & Ha)]].
  - reflexivity.
  - rewrite Hl. now destruct (str_truthy key).
  - rewrite Hl. apply available_false in Ha.
    destruct (str_truthy key); cbv beta iota zeta; [now rewrite Ha|reflexivity].
Qed.

Lemma best_available_least registry q :
  head (getAvailableProviders registry) = Some q ->
  In q (registry_values registry) /\ apiKey q <> "" /\
  forall q', In q' (registry_values registry) -> apiKey q' <> "" ->
             (priority q <= priority q')%Z.
Proof.
  intros Hq.
  assert (Hin : In q (getAvailableProviders registry)).
  { destruct (getAvailableProviders registry); [discriminate|].
    injection Hq as ->. now left. }
  apply getAvailableProviders_In in Hin. destruct Hin as [Hin Ha].
  repeat split; [exact Hin|exact Ha|].
  intros q' Hin' Ha'.
  apply (head_sorted_least (getAvailableProviders registry)); [|exact Hq|].
  - apply (js_sort_sorted priority).
  - apply getAvailableProviders_In. now split.
Qed.

Lemma best_available_none registry :
  head (getAvailableProviders registry) = None <->
  forall q, In q (registry_values registry) -> apiKey q = "".
Proof.
  split.
  - intros Hn q Hin.
    destruct (String.eqb_spec (apiKey q) "") as [E|E]; [exact E|].
    assert (Hq : In q (getAvailableProviders registry))
      by (apply getAvailableProviders_In; now split).
    destruct (getAvailableProviders registry); [destruct Hq|discriminate].
  - intros Hall.
    destruct (getAvailableProviders registry) as [|q l] eqn:E; [reflexivity|].
    assert (Hq : In q (getAvailableProviders registry)) by (rewrite E; now left).
    apply getAvailableProviders_In in Hq. destruct Hq as [Hin Ha].
    now apply Hall in Hin.
Qed.

(** C6.  [getBestProvider(name)]: a known name with a credential is honoured
    whatever the priorities; an absent, empty or unknown name, or one whose
    provider has no credential, yields the first of the available providers,
    which has the least priority number among them; the result is [null]
    exactly when no provider has a credential.  With A (priority 1, no
    credential), B (priority 2) and C (priority 3) the three calls of the
    example answer B, B and C. *)
Theorem getBestProvider_resolves :
  (forall registry : list (string * LLMProviderConfig),
     (forall key p,
        key <> "" -> registry_lookup registry key = Some p -> apiKey p <> "" ->
        getBestProvider registry (Some key) = Some p) /\
     (forall requested,
        falls_back registry requested ->
        getBestProvider registry requested = head (getAvailableProviders registry)) /\
     (forall q,
        head (getAvailableProviders registry) = Some q ->
        In q (registry_values registry) /\ apiKey q <> "" /\
        forall q', In q' (registry_values registry) -> apiKey q' <> "" ->
                   (priority q <= priority q')%Z) /\
     (head (getAvailableProviders registry) = None <->
      forall q, In q (registry_values registry) -> apiKey q = "")) /\
  (forall (ka kb kc : string) (a b c : LLMProviderConfig),
     ka <> "" -> kc <> "" -> kb <> kc -> ka <> kc ->
     priority a = 1%Z -> priority b = 2%Z -> priority c = 3%Z ->
     apiKey a = "" -> apiKey b <> "" -> apiKey c <> "" ->
     let registry := [(ka, a); (kb, b); (kc, c)] in
     getBestProvider registry None = Some b /\
     getBestProvider registry (Some ka) = Some b /\
     getBestProvider registry (Some kc) = Some c).
Proof.
  split.
  - intros registry. repeat split.
    + apply getBestProvider_explicit.
    + apply getBestProvider_fallback.
    + now apply best_available_least in H.
    + now apply best_available_least in H.
    + now apply best_available_least in H.
    + now apply best_available_none.
    + now apply best_available_none.
  - intros ka kb kc a b c Hka Hkc Hbc Hac Pa Pb Pc Ka Kb Kc registry.
    assert (Hhead : head (getAvailableProviders registry) = Some b).
    { unfold getAvailableProviders, registry, registry_values. cbn [map snd List.filter].
      apply available_false in Ka. apply available_spec in Kb, Kc.
      rewrite Ka, Kb, Kc. cbn [js_sort foldr sort_insert].
      unfold by_priority. rewrite Pb, Pc. reflexivity. }
    split; [|split].
    + rewrite getBestProvider_fallback; [exact Hhead|exact I].
    + rewrite getBestProvider_fallback; [exact Hhead|].
      right; right. exists a. split; [|exact Ka].
      unfold registry_lookup, registry. cbn [find fst]. now rewrite String.eqb_refl.
    + apply getBestProvider_explicit; [exact Hkc| |exact Kc].
      unfold registry_lookup, registry. cbn [find fst].
      apply String.eqb_neq in Hac, Hbc. now rewrite Hac, Hbc, String.eqb_refl.
Qed.

Lemma getBestProvider_resolves_witness :
  getBestProvider registryABC (Some "deepseek")
    = registry_lookup registryABC "deepseek" /\
  getBestProvider registryABC (Some "openai")
    = head (getAvailableProviders registryABC) /\
  (getBestProvider registryABC None = registry_lookup registryABC "claude" /\
   getBestProvider registryABC (Some "openai") = registry_lookup registryABC "claude" /\
   getBestProvider registryABC (Some "deepseek") = registry_lookup registryABC "deepseek").
Proof.
  split; [|split].
  - eapply (proj1 (proj1 getBestProvider_resolves registryABC));
      [discriminate|reflexivity|discriminate].
  - apply (proj1 (proj2 (proj1 getBestProvider_resolves registryABC))).
    right; right. eexists. split; reflexivity.
  - apply (proj2 getBestProvider_resolves "openai" "claude" "deepseek");
      solve [discriminate | reflexivity].
Defined.

Lemma getAvailableProviders_witness :
  map name (getAvailableProviders registryABC) = ["Claude"; "DeepSeek"] /\
  Permutation (getAvailableProviders registryABC)
              (List.filter available (registry_values registryABC)).
Proof.
  split; [reflexivity|].
  apply (proj1 (getAvailableProviders_filtered_sorted_stable registryABC)).
Defined.

(** ** The provider adapters *)

Lemma chat_completion_text_throws_iff responseData :
  (exists e, chat_completion_text responseData = Throws e) <->
  nullish responseData = true \/ nullish (member responseData "choices") = true.
Proof.
  unfold chat_completion_text, get, get_index, cbind.
  destruct (nullish responseData) eqn:E1.
  - split; [now left|eauto].
  - destruct (nullish (member responseData "choices")) eqn:E2.
    + split; [now right|eauto].
    + split; [intros [e He]; discriminate|intros [?|?]; discriminate].
Qed.

Lemma messages_text_throws_iff responseData :
  (exists e, messages_text responseData = Throws e) <->
  nullish responseData = true \/ nullish (member responseData "content") = true.
Proof.
  unfold messages_text, get, get_index, cbind.
  destruct (nullish responseData) eqn:E1.
  - split; [now left|eauto].
  - destruct (nullish (member responseData "content")) eqn:E2.
    + split; [now right|eauto].
    + split; [intros [e He]; discriminate|intros [?|?]; discriminate].
Qed.

(** Below its first level the path is guarded: with [choices] present, a
    missing [choices[0]], [message] or [content] gives the empty string. *)
Lemma chat_completion_text_guarded responseData :
  nullish responseData = false ->
  nullish (member responseData "choices") = false ->
  truthy (get_opt (get_opt (element (member responseData "choices") 0) "message")
                  "content") = false ->
  chat_completion_text responseData = Returns (VStr "").
Proof.
  intros E1 E2 E3. unfold chat_completion_text, get, get_index, cbind, or_else.
  now rewrite E1, E2, E3.
Qed.

(** C5.  The claim does not hold of the code: on the well-formed body [{}],
    where the expected path is absent from its first level on, each of the
    three adapters throws a [TypeError] instead of returning the empty string
    (the optional chaining starts only after [choices[0]] / [content[0]]). *)
Theorem extractResponseFromProvider_throws_without_top_level_field :
  extractResponseFromProvider (adapter "OpenAI") (VObj [])
    = Throws (TypeError "Cannot read properties of undefined (reading '0')") /\
  extractResponseFromProvider (adapter "Claude") (VObj [])
    = Throws (TypeError "Cannot read properties of undefined (reading '0')") /\
  extractResponseFromProvider (adapter "DeepSeek") (VObj [])
    = Throws (TypeError "Cannot read properties of undefined (reading '0')") /\
  (forall env : ProcessEnv,
     Forall (fun p => extractResponseFromProvider p (VObj [("error", VStr "overloaded")])
                      = Throws (TypeError "Cannot read properties of undefined (reading '0')"))
            (registry_values (LLM_PROVIDERS env))).
Proof.
  repeat split; try reflexivity.
  intros env. repeat constructor.
Qed.

Lemma usage_count_nullish responseData key :
  nullish responseData = true ->
  usage_count responseData key = Throws (cannot_read responseData "usage").
Proof. intros E. unfold usage_count, get, cbind. now rewrite E. Qed.


Section AdapterFacts.
Context `{Runtime}.

Lemma extractTokenUsage_returns
  (p : LLMProviderConfig) (responseData : value) (w : World) :
  exists usage w', extractTokenUsage p responseData w = (Returns usage, w').
Proof.
  unfold extractTokenUsage.
  destruct (extractTokenUsage_try p responseData) as [usage|e]; eauto.
Qed.

Lemma extractTokenUsage_caught p responseData w e :
  extractTokenUsage_try p responseData = Throws e ->
  extractTokenUsage p responseData w
    = (Returns None,
       log (console_error
              "Eroare la extragerea informațiilor despre utilizarea token-urilor:" e) w).
Proof. intros E. unfold extractTokenUsage. now rewrite E. Qed.

Lemma extractTokenUsage_unknown p responseData w :
  family p = None -> extractTokenUsage p responseData w = (Returns None, w).
Proof.
  intros Hf. unfold extractTokenUsage, extractTokenUsage_try. now rewrite Hf.
Qed.

(** C8.  [extractTokenUsage] returns for every provider and every response
    body, of any shape: it never throws.  Whatever the [try] block throws
    while reading the usage fields is caught and answered with [undefined],
    and so is an unknown provider name. *)
Theorem extractTokenUsage_never_throws
  (p : LLMProviderConfig) (responseData : value) (w : World) :
  exists usage w',
    extractTokenUsage p responseData w = (Returns usage, w') /\
    (forall e, extractTokenUsage_try p responseData = Throws e -> usage = None) /\
    (family p = None -> usage = None).
Proof.
  destruct (extractTokenUsage_returns p responseData w) as (usage & w' & E).
  exists usage, w'. split; [exact E|]. split.
  - intros e T. rewrite (extractTokenUsage_caught _ _ _ _ T) in E. congruence.
  - intros Hf. rewrite (extractTokenUsage_unknown _ _ _ Hf) in E. congruence.
Qed.

(** The [catch] is taken exactly on a [null] or [undefined] body, unless the
    addition of the Claude adapter throws. *)
Lemma extractTokenUsage_try_nullish p responseData :
  family p <> None -> nullish responseData = true ->
  extractTokenUsage_try p responseData = Throws (cannot_read responseData "usage").
Proof.
  intros Hf E. unfold extractTokenUsage_try.
  destruct (family p) as [[]|]; [| | |congruence];
    now rewrite usage_count_nullish.
Qed.

End AdapterFacts.

Lemma formatPromptForProvider_fixed p prompt model body :
  formatPromptForProvider p prompt model = Returns body -> fixed_sampling body.
Proof.
  unfold formatPromptForProvider.
  destruct (family p) as [[]|]; intros [= <-]; split; reflexivity.
Qed.

Lemma formatPromptForProvider_known p prompt model :
  family p <> None -> exists body, formatPromptForProvider p prompt model = Returns body.
Proof.
  unfold formatPromptForProvider. destruct (family p) as [[]|]; eauto. congruence.
Qed.

Lemma own_property_app_l fields more key :
  own_property fields key <> VUndefined ->
  own_property (fields ++ more) key = own_property fields key.
Proof.
  unfold own_property. induction fields as [|kv fields IH]; cbn [find app].
  - congruence.
  - destruct (String.eqb (fst kv) key); [reflexivity|exact IH].
Qed.

Lemma with_stream_flag_fixed body : fixed_sampling body -> fixed_sampling (with_stream_flag body).
Proof.
  destruct body; intros [H1 H2]; try discriminate.
  unfold fixed_sampling, with_stream_flag, member in *.
  rewrite !own_property_app_l; [now split|congruence|congruence].
Qed.

(** ** The router *)

Lemma key_components_key r1 r2 :
  key_components r1 = key_components r2 -> createCacheKey r1 = createCacheKey r2.
Proof.
  unfold key_components, createCacheKey. intros [= -> -> -> -> ->]. reflexivity.
Qed.

Section RouterFacts.
Context `{Runtime}.
Variable registry : list (string * LLMProviderConfig).
Variable network : list PostCall -> PostCall -> Reply.

Lemma dispatch_format_throws p request m w e :
  formatPromptForProvider p (prompt request) m = Throws e ->
  dispatch network p request m w = (Throws e, w).
Proof.
  intros E. unfold dispatch, bind, lift. now rewrite E.
Qed.

Lemma dispatch_post_throws p request m w body e :
  formatPromptForProvider p (prompt request) m = Returns body ->
  outcome (network (posts w) (call_of p request body)) = Throws e ->
  dispatch network p request m w = (Throws e, after_post network (call_of p request body) w).
Proof.
  intros E O.
  destruct (streamed p request) eqn:S; dispatch_step E S; now rewrite O.
Qed.

Lemma dispatch_streamed_stream p request m w body chunks :
  formatPromptForProvider p (prompt request) m = Returns body ->
  streamed p request = true ->
  outcome (network (posts w) (call_of p request body)) = Returns (Stream chunks) ->
  dispatch network p request m w =
    (Returns {| text := VStr ""; resp_provider := name p; resp_model := m;
                tokenUsage := None |},
     with_streams
       (streams w ++ [{| stream_provider := p; pending := chunks;
                         accumulatedText := VStr ""; updates := [];
                         stream_console := [] |}])
       (after_post network (call_of p request body) w)).
Proof.
  intros E S O. dispatch_step E S. now rewrite O.
Qed.

Lemma dispatch_streamed_body p request m w body v :
  formatPromptForProvider p (prompt request) m = Returns body ->
  streamed p request = true ->
  outcome (network (posts w) (call_of p request body)) = Returns (Body v) ->
  dispatch network p request m w =
    (Throws (not_a_stream v), after_post network (call_of p request body) w).
Proof.
  intros E S O. dispatch_step E S. now rewrite O.
Qed.

Lemma dispatch_sync_extract_throws p request m w body d e :
  formatPromptForProvider p (prompt request) m = Returns body ->
  streamed p request = false ->
  outcome (network (posts w) (call_of p request body)) = Returns d ->
  extractResponseFromProvider p (as_body d) = Throws e ->
  dispatch network p request m w = (Throws e, after_post network (call_of p request body) w).
Proof.
  intros E S O X. dispatch_step E S. now rewrite O, X.
Qed.

Lemma dispatch_sync_returns p request m w body d responseText :
  formatPromptForProvider p (prompt request) m = Returns body ->
  streamed p request = false ->
  outcome (network (posts w) (call_of p request body)) = Returns d ->
  extractResponseFromProvider p (as_body d) = Returns responseText ->
  exists usage w1,
    extractTokenUsage p (as_body d) (after_post network (call_of p request body) w)
      = (Returns usage, w1) /\
    let llmResponse := {| text := responseText; resp_provider := name p;
                          resp_model := m; tokenUsage := usage |} in
    dispatch network p request m w =
      (Returns llmResponse,
       with_cache (<[createCacheKey request :=
                       {| response := llmResponse; timestamp := now w1 |}]>
                     (responseCache w1)) w1).
Proof.
  intros E S O X.
  destruct (extractTokenUsage_returns p (as_body d)
              (after_post network (call_of p request body) w)) as (usage & w1 & U).
  exists usage, w1. split; [exact U|].
  dispatch_step E S. unfold after_post in U. rewrite O, X, U. reflexivity.
Qed.

Lemma dispatch_dispatched p request m w :
  dispatched network p request m w (dispatch network p request m w).
Proof.
  destruct (formatPromptForProvider p (prompt request) m) as [body|e] eqn:E.
  2: { rewrite (dispatch_format_throws _ _ _ _ _ E). now apply adapter_failed. }
  destruct (outcome (network (posts w) (call_of p request body))) as [d|e] eqn:O.
  2: { rewrite (dispatch_post_throws _ _ _ _ _ _ E O). now apply post_failed. }
  destruct (streamed p request) eqn:S.
  - destruct d as [v|chunks].
    + rewrite (dispatch_streamed_body _ _ _ _ _ _ E S O). now apply stream_missing.
    + rewrite (dispatch_streamed_stream _ _ _ _ _ _ E S O). now apply stream_opened.
  - destruct (extractResponseFromProvider p (as_body d)) as [responseText|e] eqn:X.
    + destruct (dispatch_sync_returns _ _ _ _ _ _ _ E S O X) as (usage & w1 & U & ->).
      eapply completed; eauto.
    + rewrite (dispatch_sync_extract_throws _ _ _ _ _ _ _ E S O X).
      eapply extraction_failed; eauto.
Qed.

(** [extractTokenUsage] touches nothing but the console. *)
Lemma extractTokenUsage_world p d w usage w1 :
  extractTokenUsage p d w = (Returns usage, w1) ->
  responseCache w1 = responseCache w /\ posts w1 = posts w /\ now w1 = now w /\
  streams w1 = streams w /\
  exists entries, console w1 = (console w ++ entries)%list /\
                  forall msg, ~ In (console_log msg) entries.
Proof.
  unfold extractTokenUsage.
  destruct (extractTokenUsage_try p d); intros [= <- <-]; repeat split.
  - exists []. rewrite app_nil_r. split; [reflexivity|]. intros msg [].
  - eexists. split; [reflexivity|]. intros msg [|[]]. discriminate.
Qed.

(** What a run of the [try] block does to the world outside the cache. *)
Lemma dispatch_posts p request m w out w' :
  dispatch network p request m w = (out, w') ->
  exists calls,
    posts w' = (posts w ++ calls)%list /\ (length calls <= 1)%nat /\
    Forall (fun call => fixed_sampling (data call)) calls /\
    (forall r, out = Returns r -> length calls = 1%nat).
Proof.
  intros D. pose proof (dispatch_dispatched p request m w) as Hd. rewrite D in Hd.
  assert (Hfix : forall body, formatPromptForProvider p (prompt request) m = Returns body ->
                              Forall (fun call => fixed_sampling (data call))
                                     [call_of p request body]).
  { intros body E. constructor; [|constructor].
    apply formatPromptForProvider_fixed in E. unfold call_of.
    destruct (streamed p request); cbn [data]; [now apply with_stream_flag_fixed|exact E]. }
  inversion Hd; subst; clear Hd.
  - exists []. rewrite app_nil_r. repeat split; [cbn; lia|constructor|discriminate].
  - eexists [_]. repeat split; [cbn; lia|now apply Hfix].
  - eexists [_]. repeat split; [cbn; lia|now apply Hfix].
  - eexists [_]. repeat split; [cbn; lia|now apply Hfix].
  - eexists [_]. repeat split; [cbn; lia|now apply Hfix].
  - match goal with U : extractTokenUsage _ _ _ = _ |- _ =>
      apply extractTokenUsage_world in U; destruct U as (_ & Up & _) end.
    eexists [_]. cbn [posts with_cache]. rewrite Up.
    repeat split; [cbn; lia|now apply Hfix].
Qed.

Lemma dispatch_console p request m w out w' :
  dispatch network p request m w = (out, w') ->
  exists entries, console w' = (console w ++ entries)%list /\
                  forall msg, ~ In (console_log msg) entries.
Proof.
  intros D. pose proof (dispatch_dispatched p request m w) as Hd. rewrite D in Hd.
  inversion Hd; subst; clear Hd;
    try (exists []; rewrite app_nil_r; split; [reflexivity|intros msg []]).
  match goal with U : extractTokenUsage _ _ _ = _ |- _ =>
    apply extractTokenUsage_world in U; destruct U as (_ & _ & _ & _ & Uc) end.
  exact Uc.
Qed.

(** What a run of the [try] block does to the cache. *)
Lemma dispatch_cache p request m w out w' :
  dispatch network p request m w = (out, w') ->
  match out with
  | Returns r =>
      if streamed p request then responseCache w' = responseCache w
      else responseCache w' =
             <[createCacheKey request := {| response := r; timestamp := now w' |}]>
               (responseCache w)
  | Throws _ => responseCache w' = responseCache w
  end.
Proof.
  intros D. pose proof (dispatch_dispatched p request m w) as Hd. rewrite D in Hd.
  inversion Hd; subst; clear Hd; try reflexivity.
  - match goal with S : streamed _ _ = true |- _ => rewrite S end. reflexivity.
  - match goal with S : streamed _ _ = false |- _ => rewrite S end.
    match goal with U : extractTokenUsage _ _ _ = _ |- _ =>
      apply extractTokenUsage_world in U; destruct U as (Uc & _) end.
    cbn [responseCache with_cache now]. now rewrite Uc.
Qed.

(** *** The shape of [sendRequest] *)

Lemma sendRequest_depth_S depth request w :
  sendRequest_depth registry network (S depth) request w =
    match cache_check request w with
    | Some (cached, w') => Some (Returns cached, w')
    | None =>
        match getBestProvider registry (provider request) with
        | None => Some (Throws NO_PROVIDER, w)
        | Some p =>
            match dispatch network p request (model_or_first p (model request)) w with
            | (Returns llmResponse, w') => Some (Returns llmResponse, w')
            | (Throws error, w') =>
                if has_provider request then
                  sendRequest_depth registry network depth (clear_provider request)
                    (log RETRY (log (SEND_FAILED error) w'))
                else Some (Throws (communication_error error), log (SEND_FAILED error) w')
            end
        end
    end.
Proof. reflexivity. Qed.

Lemma has_provider_clear request : has_provider (clear_provider request) = false.
Proof. reflexivity. Qed.

Lemma is_streaming_clear request :
  is_streaming (clear_provider request) = is_streaming request.
Proof. reflexivity. Qed.

(** A call whose request names no provider makes no nested call. *)
Lemma sendRequest_depth_auto depth request w :
  has_provider request = false ->
  sendRequest_depth registry network (S depth) request w
    = sendRequest_depth registry network 1 request w /\
  exists out, sendRequest_depth registry network 1 request w = Some out.
Proof.
  intros Hp. rewrite !sendRequest_depth_S.
  destruct (cache_check request w) as [[cached w']|]; [eauto|].
  destruct (getBestProvider registry (provider request)) as [p|]; [|eauto].
  destruct (dispatch network p request (model_or_first p (model request)) w)
    as [[llmResponse|error] w']; [eauto|].
  rewrite Hp. eauto.
Qed.

(** Two nested calls are enough for every request. *)
Lemma sendRequest_depth_two depth request w :
  sendRequest_depth registry network (S (S depth)) request w
    = sendRequest registry network request w /\
  exists out, sendRequest registry network request w = Some out.
Proof.
  unfold sendRequest. rewrite !(sendRequest_depth_S (S _)).
  destruct (cache_check request w) as [[cached w']|]; [eauto|].
  destruct (getBestProvider registry (provider request)) as [p|]; [|eauto].
  destruct (dispatch network p request (model_or_first p (model request)) w)
    as [[llmResponse|error] w']; [eauto|].
  destruct (has_provider request); [|eauto].
  apply sendRequest_depth_auto, has_provider_clear.
Qed.

(** A call that misses the cache and whose own dispatch returns, returns
    that response. *)
Lemma sendRequest_own_dispatch request w p llmResponse w' :
  cache_check request w = None ->
  getBestProvider registry (provider request) = Some p ->
  dispatch network p request (model_or_first p (model request)) w
    = (Returns llmResponse, w') ->
  sendRequest registry network request w = Some (Returns llmResponse, w').
Proof.
  intros C P D. unfold sendRequest. now rewrite sendRequest_depth_S, C, P, D.
Qed.

(** *** The cache check *)

Lemma cache_check_streaming request w :
  is_streaming request = true -> cache_check request w = None.
Proof. intros S. unfold cache_check. now rewrite S. Qed.

Lemma cache_check_hit request w item :
  is_streaming request = false ->
  responseCache w !! createCacheKey request = Some item ->
  (now w - timestamp item < CACHE_DURATION)%Z ->
  cache_check request w = Some (response item, log CACHE_HIT w).
Proof.
  intros S L T. unfold cache_check. rewrite S, L. cbn [negb].
  apply Z.ltb_lt in T. now rewrite T.
Qed.

Lemma cache_check_expired request w item :
  responseCache w !! createCacheKey request = Some item ->
  (CACHE_DURATION <= now w - timestamp item)%Z ->
  cache_check request w = None.
Proof.
  intros L T. unfold cache_check. rewrite L.
  apply Z.ltb_ge in T. rewrite T. now destruct (negb _).
Qed.

Lemma cache_check_absent request w :
  responseCache w !! createCacheKey request = None ->
  cache_check request w = None.
Proof.
  intros L. unfold cache_check. rewrite L. now destruct (negb _).
Qed.

Lemma sendRequest_cache_hit request w item :
  is_streaming request = false ->
  responseCache w !! createCacheKey request = Some item ->
  (now w - timestamp item < CACHE_DURATION)%Z ->
  sendRequest registry network request w
    = Some (Returns (response item), log CACHE_HIT w).
Proof.
  intros S L T. unfold sendRequest.
  now rewrite sendRequest_depth_S, (cache_check_hit _ _ _ S L T).
Qed.

End RouterFacts.

(** ** The fallback *)

Lemma retries_app l1 l2 : retries (l1 ++ l2) = (retries l1 + retries l2)%nat.
Proof. unfold retries. now rewrite List.filter_app, length_app. Qed.

Lemma retries_no_log entries :
  (forall msg, ~ In (console_log msg) entries) -> retries entries = 0%nat.
Proof.
  unfold retries. induction entries as [|e entries IH]; intros Hn; [reflexivity|].
  cbn [List.filter]. destruct e as [msg|msg err]; cbn [is_retry].
  - exfalso. apply (Hn msg). now left.
  - apply IH. intros msg' Hin. apply (Hn msg'). now right.
Qed.

Section Fallback.
Context `{Runtime}.
Variable registry : list (string * LLMProviderConfig).
Variable network : list PostCall -> PostCall -> Reply.

Lemma sendRequest_auto_retries request w out w' :
  has_provider request = false ->
  sendRequest_depth registry network 1 request w = Some (out, w') ->
  retries (console w') = retries (console w).
Proof.
  intros Hp. rewrite sendRequest_depth_S.
  destruct (cache_check request w) as [[cached w0]|] eqn:C.
  - intros [= <- <-]. unfold cache_check in C.
    destruct (negb (is_streaming request)); [|discriminate].
    destruct (responseCache w !! createCacheKey request); [|discriminate].
    destruct (_ <? _)%Z; [|discriminate].
    injection C as <- <-. cbn [console log with_console].
    rewrite retries_app. cbn. lia.
  - destruct (getBestProvider registry (provider request)) as [p|];
      [|now intros [= <- <-]].
    destruct (dispatch network p request (model_or_first p (model request)) w)
      as [[llmResponse|error] w0] eqn:D;
      apply dispatch_console in D; destruct D as (entries & Hc & Hn).
    + intros [= <- <-]. rewrite Hc, retries_app, (retries_no_log entries Hn). lia.
    + rewrite Hp. intros [= <- <-]. cbn [console log with_console].
      rewrite Hc, !retries_app, (retries_no_log entries Hn). cbn. lia.
Qed.

(** C3.  [sendRequest] nests at most two calls deep: two levels answer every
    request, and more levels change nothing.  When the dispatch of a request
    that names a provider throws, the call continues as exactly one nested
    call on the request with [provider] cleared (so that selection is by
    priority), a call that itself nests no further; the console records one
    retry.  When the dispatch of a request that names no provider throws,
    there is no nested call and the caller gets the error
    ["Eroare la comunicarea cu API-ul LLM: " + error.message]. *)
Theorem sendRequest_single_fallback (request : LLMRequest) (w : World) :
  (exists out, sendRequest registry network request w = Some out) /\
  (forall depth,
     sendRequest_depth registry network (S (S depth)) request w
       = sendRequest registry network request w) /\
  forall p error w',
    cache_check request w = None ->
    getBestProvider registry (provider request) = Some p ->
    dispatch network p request (model_or_first p (model request)) w = (Throws error, w') ->
    (has_provider request = true ->
       let retried := clear_provider request in
       let w1 := log RETRY (log (SEND_FAILED error) w') in
       provider retried = None /\
       getBestProvider registry (provider retried)
         = head (getAvailableProviders registry) /\
       sendRequest registry network request w
         = sendRequest_depth registry network 1 retried w1 /\
       exists out w2,
         sendRequest registry network request w = Some (out, w2) /\
         retries (console w2) = S (retries (console w))) /\
    (has_provider request = false ->
       sendRequest_depth registry network 1 request w
         = Some (Throws (communication_error error), log (SEND_FAILED error) w') /\
       sendRequest registry network request w
         = Some (Throws (communication_error error), log (SEND_FAILED error) w') /\
       retries (console (log (SEND_FAILED error) w')) = retries (console w)).
Proof.
  split; [apply (sendRequest_depth_two registry network 0)|].
  split; [intros depth; apply sendRequest_depth_two|].
  intros p error w' C P D. split; intros Hp.
  - cbv zeta. split; [reflexivity|]. split; [reflexivity|].
    assert (E : sendRequest registry network request w
                = sendRequest_depth registry network 1 (clear_provider request)
                    (log RETRY (log (SEND_FAILED error) w'))).
    { unfold sendRequest. now rewrite sendRequest_depth_S, C, P, D, Hp. }
    split; [exact E|].
    destruct (sendRequest_depth_auto registry network 0 (clear_provider request)
                (log RETRY (log (SEND_FAILED error) w')) (has_provider_clear request))
      as [_ [[out w2] R]].
    exists out, w2. split; [now rewrite E|].
    apply sendRequest_auto_retries in R; [|apply has_provider_clear].
    rewrite R. cbn [console log with_console].
    apply dispatch_console in D. destruct D as (entries & Hc & Hn).
    rewrite Hc, !retries_app, (retries_no_log entries Hn). cbn. lia.
  - assert (E : sendRequest_depth registry network 1 request w
                = Some (Throws (communication_error error), log (SEND_FAILED error) w')).
    { now rewrite sendRequest_depth_S, C, P, D, Hp. }
    split; [exact E|]. split.
    + unfold sendRequest.
      now rewrite (proj1 (sendRequest_depth_auto registry network 1 request w Hp)).
    + apply sendRequest_auto_retries in E; assumption.
Qed.

End Fallback.

(** ** The cache *)

Section Caching.
Context `{Runtime}.
Variable registry : list (string * LLMProviderConfig).
Variable network : list PostCall -> PostCall -> Reply.

Lemma streamed_not_streaming p request :
  is_streaming request = false -> streamed p request = false.
Proof. intros S. unfold streamed. now rewrite S. Qed.

(** A dispatch through a known adapter reaches the network. *)
Lemma dispatch_reaches_network p request m w out w' :
  family p <> None ->
  dispatch network p request m w = (out, w') ->
  exists call, posts w' = (posts w ++ [call])%list.
Proof.
  intros Hf D. pose proof (dispatch_dispatched network p request m w) as Hd.
  rewrite D in Hd.
  inversion Hd; subst; clear Hd; try (eexists; reflexivity).
  - destruct (formatPromptForProvider_known p (prompt request) m Hf) as [body E].
    congruence.
  - match goal with U : extractTokenUsage _ _ _ = _ |- _ =>
      apply extractTokenUsage_world in U; destruct U as (_ & Up & _) end.
    eexists. cbn [posts with_cache]. rewrite Up. reflexivity.
Qed.

(** Every request a call sends carries the fixed sampling parameters. *)
Lemma sendRequest_posts depth request w out w' :
  sendRequest_depth registry network depth request w = Some (out, w') ->
  exists calls, posts w' = (posts w ++ calls)%list /\
                Forall (fun call => fixed_sampling (data call)) calls.
Proof.
  revert request w. induction depth as [|depth IH]; intros request w; [discriminate|].
  rewrite sendRequest_depth_S.
  destruct (cache_check request w) as [[cached w0]|] eqn:C.
  - intros [= <- <-]. exists []. rewrite app_nil_r. split; [|constructor].
    unfold cache_check in C.
    destruct (negb (is_streaming request)); [|discriminate].
    destruct (responseCache w !! createCacheKey request); [|discriminate].
    destruct (_ <? _)%Z; [|discriminate]. now injection C as <- <-.
  - destruct (getBestProvider registry (provider request)) as [p|].
    2: { intros [= <- <-]. exists []. rewrite app_nil_r. split; [reflexivity|constructor]. }
    destruct (dispatch network p request (model_or_first p (model request)) w)
      as [[llmResponse|error] w0] eqn:D;
      apply dispatch_posts in D; destruct D as (calls & Hp & _ & Hf & _).
    + intros [= <- <-]. eauto.
    + destruct (has_provider request).
      * intros R. apply IH in R. destruct R as (calls' & Hp' & Hf').
        exists (calls ++ calls')%list. split; [|now apply Forall_app].
        rewrite Hp'. cbn [posts log with_console]. rewrite Hp. now rewrite app_assoc.
      * intros [= <- <-]. cbn [posts log with_console]. eauto.
Qed.

(** A call that misses the cache and selects a provider with a known
    adapter sends at least one request. *)
Lemma sendRequest_reaches_network depth request w p :
  cache_check request w = None ->
  getBestProvider registry (provider request) = Some p ->
  family p <> None ->
  exists out w' call rest,
    sendRequest_depth registry network (S (S depth)) request w = Some (out, w') /\
    posts w' = (posts w ++ call :: rest)%list.
Proof.
  intros C P Hf.
  destruct (sendRequest_depth_two registry network depth request w) as [E [[out w'] R]].
  exists out, w'. rewrite E, R.
  unfold sendRequest in R. rewrite sendRequest_depth_S, C, P in R.
  destruct (dispatch network p request (model_or_first p (model request)) w)
    as [[llmResponse|error] w0] eqn:D;
    apply (dispatch_reaches_network _ _ _ _ _ _ Hf) in D; destruct D as [call Hp].
  - injection R as <- <-. exists call, []. now split.
  - destruct (has_provider request).
    + apply sendRequest_posts in R. destruct R as (calls & Hp' & _).
      exists call, calls. split; [reflexivity|].
      rewrite Hp'. cbn [posts log with_console]. rewrite Hp. now rewrite <- app_assoc.
    + injection R as <- <-. exists call, []. now split.
Qed.

(** C2, as the code has it.  Let two non-streaming requests have equal
    fingerprint components, and let the first miss the cache and complete
    through its own dispatch.  Then its response is stored under the common
    fingerprint with the time of completion.  Submitted less than
    [CACHE_DURATION] after that time, the second request returns exactly that
    response and sends nothing.  Submitted [CACHE_DURATION] or more after it,
    the second request is not served from the cache: it goes to the network
    again (whenever a provider with a known adapter is selected), and when
    its dispatch returns, the response is stored as a fresh entry. *)
Theorem cache_hit_within_ttl_after_own_dispatch
  (request1 request2 : LLMRequest) (p : LLMProviderConfig)
  (w0 w1 : World) (resp1 : LLMResponse) (t2 : Z) :
  is_streaming request1 = false ->
  is_streaming request2 = false ->
  key_components request1 = key_components request2 ->
  cache_check request1 w0 = None ->
  getBestProvider registry (provider request1) = Some p ->
  dispatch network p request1 (model_or_first p (model request1)) w0 = (Returns resp1, w1) ->
  sendRequest registry network request1 w0 = Some (Returns resp1, w1) /\
  responseCache w1 !! createCacheKey request2
    = Some {| response := resp1; timestamp := now w1 |} /\
  ((t2 - now w1 < CACHE_DURATION)%Z ->
     sendRequest registry network request2 (with_now t2 w1)
       = Some (Returns resp1, log CACHE_HIT (with_now t2 w1)) /\
     posts (log CACHE_HIT (with_now t2 w1)) = posts w1) /\
  ((CACHE_DURATION <= t2 - now w1)%Z ->
     cache_check request2 (with_now t2 w1) = None /\
     (forall p2,
        getBestProvider registry (provider request2) = Some p2 ->
        family p2 <> None ->
        exists out w2 call rest,
          sendRequest registry network request2 (with_now t2 w1) = Some (out, w2) /\
          posts w2 = (posts w1 ++ call :: rest)%list) /\
     (forall p2 resp2 w2,
        getBestProvider registry (provider request2) = Some p2 ->
        dispatch network p2 request2 (model_or_first p2 (model request2)) (with_now t2 w1)
          = (Returns resp2, w2) ->
        sendRequest registry network request2 (with_now t2 w1) = Some (Returns resp2, w2) /\
        responseCache w2 !! createCacheKey request2
          = Some {| response := resp2; timestamp := now w2 |})).
Proof.
  intros S1 S2 K C P D.
  apply key_components_key in K.
  assert (L : responseCache w1 !! createCacheKey request2
              = Some {| response := resp1; timestamp := now w1 |}).
  { pose proof (dispatch_cache network _ _ _ _ _ _ D) as Hc. cbv beta iota in Hc.
    rewrite (streamed_not_streaming p request1 S1) in Hc.
    rewrite Hc, <- K. apply lookup_insert_eq. }
  split; [now apply sendRequest_own_dispatch with p|].
  split; [exact L|].
  split.
  - intros T. split; [|reflexivity].
    apply (sendRequest_cache_hit registry network request2 (with_now t2 w1)
             {| response := resp1; timestamp := now w1 |} S2 L T).
  - intros T.
    assert (C2 : cache_check request2 (with_now t2 w1) = None).
    { eapply cache_check_expired; [exact L|exact T]. }
    split; [exact C2|]. split.
    + intros p2 P2 Hf.
      destruct (sendRequest_reaches_network 0 request2 (with_now t2 w1) p2 C2 P2 Hf)
        as (out & w2 & call & rest & R & Hp).
      exists out, w2, call, rest. split; [exact R|exact Hp].
    + intros p2 resp2 w2 P2 D2.
      split; [now apply sendRequest_own_dispatch with p2|].
      pose proof (dispatch_cache network _ _ _ _ _ _ D2) as Hc. cbv beta iota in Hc.
      rewrite (streamed_not_streaming p2 request2 S2) in Hc.
      rewrite Hc. apply lookup_insert_eq.
Qed.


(** *** Streaming requests and the cache *)

(** The [try] block never reads the cache. *)
Lemma dispatch_ignores_cache p request m w c :
  fst (dispatch network p request m (with_cache c w))
    = fst (dispatch network p request m w) /\
  outside_cache (snd (dispatch network p request m (with_cache c w)))
    = outside_cache (snd (dispatch network p request m w)).
Proof.
  unfold dispatch, bind, lift, axios_post, subscribe, extractTokenUsage,
    Date_now, cache_put, ret, outside_cache.
  destruct (formatPromptForProvider p (prompt request) m) as [body|e];
    [|split; reflexivity].
  destruct (is_streaming request && streamingSupport p && has_callback request);
    cbn [posts now with_cache with_posts with_now].
  - destruct (outcome (network (posts w) _)) as [[v|chunks]|e]; split; reflexivity.
  - destruct (outcome (network (posts w) _)) as [d|e]; [|split; reflexivity].
    destruct (extractResponseFromProvider p (as_body d)); [|split; reflexivity].
    destruct (extractTokenUsage_try p (as_body d)); split; reflexivity.
Qed.

Lemma outside_cache_with_cache c w : outside_cache (with_cache c w) = outside_cache w.
Proof. reflexivity. Qed.

Lemma outside_cache_eq w1 w2 :
  outside_cache w1 = outside_cache w2 -> w1 = with_cache (responseCache w1) w2.
Proof.
  destruct w1, w2. unfold outside_cache, with_cache. cbn. now intros [= -> -> -> ->].
Qed.

Lemma log_with_cache entry c w : log entry (with_cache c w) = with_cache c (log entry w).
Proof. reflexivity. Qed.

(** A streaming request runs the same way whatever the cache holds. *)
Lemma sendRequest_streaming_ignores_cache depth request w c :
  is_streaming request = true ->
  alike (sendRequest_depth registry network depth request (with_cache c w))
        (sendRequest_depth registry network depth request w).
Proof.
  revert request w c. induction depth as [|depth IH]; intros request w c S; [exact I|].
  rewrite !sendRequest_depth_S, !cache_check_streaming by exact S.
  destruct (getBestProvider registry (provider request)) as [p|]; [|now split].
  destruct (dispatch_ignores_cache p request (model_or_first p (model request)) w c)
    as [Ho Hw].
  destruct (dispatch network p request (model_or_first p (model request)) (with_cache c w))
    as [out1 w1], (dispatch network p request (model_or_first p (model request)) w)
    as [out2 w2].
  cbn [fst snd] in Ho, Hw. subst out2.
  destruct out1 as [llmResponse|error]; [now split|].
  destruct (has_provider request); [|split; [reflexivity|]].
  - apply outside_cache_eq in Hw. rewrite Hw, !log_with_cache. now apply IH.
  - apply outside_cache_eq in Hw. rewrite Hw. reflexivity.
Qed.

(** A request whose dispatch cannot be streamed takes the synchronous path,
    streaming flag or not, and that path stores its response. *)
Lemma dispatch_sync_stores p request m w llmResponse w' :
  streamed p request = false ->
  dispatch network p request m w = (Returns llmResponse, w') ->
  responseCache w' !! createCacheKey request
    = Some {| response := llmResponse; timestamp := now w' |}.
Proof.
  intros S D. pose proof (dispatch_cache network _ _ _ _ _ _ D) as Hc.
  cbv beta iota in Hc. rewrite S in Hc. rewrite Hc. apply lookup_insert_eq.
Qed.

Lemma dispatch_streamed_keeps_cache p request m w out w' :
  streamed p request = true ->
  dispatch network p request m w = (out, w') ->
  responseCache w' = responseCache w.
Proof.
  intros S D. pose proof (dispatch_cache network _ _ _ _ _ _ D) as Hc.
  cbv beta iota in Hc. rewrite S in Hc. now destruct out.
Qed.

(** C1, as the code has it.  A request with [streaming = true] never
    consults the cache: it runs the same way, with the same result and the
    same requests sent, whatever the cache holds, and with a provider of a
    known adapter selected it sends a request every time it is submitted.
    Its response is not written to the cache when the dispatch is streamed
    (the provider supports streaming and [onStreamingUpdate] is supplied).
    When the provider does not support streaming or no callback is supplied,
    the request takes the synchronous path, whose response is written to the
    cache under the request's fingerprint. *)
Theorem streaming_request_and_cache (request : LLMRequest) (w : World) :
  is_streaming request = true ->
  (forall c depth,
     alike (sendRequest_depth registry network depth request (with_cache c w))
           (sendRequest_depth registry network depth request w)) /\
  (forall p,
     getBestProvider registry (provider request) = Some p ->
     family p <> None ->
     exists out w' call rest,
       sendRequest registry network request w = Some (out, w') /\
       posts w' = (posts w ++ call :: rest)%list) /\
  (forall p m out w',
     streamingSupport p = true -> has_callback request = true ->
     dispatch network p request m w = (out, w') ->
     responseCache w' = responseCache w) /\
  (forall p m llmResponse w',
     streamingSupport p = false \/ has_callback request = false ->
     dispatch network p request m w = (Returns llmResponse, w') ->
     responseCache w' !! createCacheKey request
       = Some {| response := llmResponse; timestamp := now w' |}).
Proof.
  intros S. split; [|split; [|split]].
  - intros c depth. apply sendRequest_streaming_ignores_cache, S.
  - intros p P Hf.
    apply (sendRequest_reaches_network 0 request w p); [|exact P|exact Hf].
    now apply cache_check_streaming.
  - intros p m out w' Hs Hc D.
    eapply dispatch_streamed_keeps_cache; [|exact D].
    unfold streamed. now rewrite S, Hs, Hc.
  - intros p m llmResponse w' Hn D.
    eapply dispatch_sync_stores; [|exact D].
    unfold streamed. rewrite S. destruct Hn as [->| ->]; [reflexivity|].
    now destruct (streamingSupport p).
Qed.

End Caching.

(** ** Strings *)

Lemma string_app_assoc (a b c : string) : (a +:+ b) +:+ c = a +:+ (b +:+ c).
Proof.
  induction a as [|x a IH]; [reflexivity|].
  apply (f_equal (String x)) in IH. exact IH.
Qed.

Lemma string_app_nil_r (a : string) : a +:+ "" = a.
Proof.
  induction a as [|x a IH]; [reflexivity|].
  apply (f_equal (String x)) in IH. exact IH.
Qed.

Lemma list_ascii_app (a b : string) :
  list_ascii_of_string (a +:+ b)
  = (list_ascii_of_string a ++ list_ascii_of_string b)%list.
Proof.
  induction a as [|x a IH]; [reflexivity|].
  apply (f_equal (cons x)) in IH. exact IH.
Qed.

Lemma string_app_inv_tail (a b t : string) : a +:+ t = b +:+ t -> a = b.
Proof.
  intros E. apply (f_equal list_ascii_of_string) in E.
  rewrite !list_ascii_app in E. apply app_inv_tail in E.
  apply (f_equal string_of_list_ascii) in E.
  now rewrite !string_of_list_ascii_of_string in E.
Qed.

Lemma str_truthy_app_r (a b : string) : b <> "" -> str_truthy (a +:+ b) = true.
Proof.
  intros Hb. apply str_truthy_spec. destruct a; [exact Hb|discriminate].
Qed.

Lemma string_length_app (a b : string) :
  String.length (a +:+ b) = (String.length a + String.length b)%nat.
Proof.
  induction a as [|x a IH]; [reflexivity|].
  apply (f_equal S) in IH. exact IH.
Qed.

Lemma strip_prefix_Some u s r : strip_prefix u s = Some r -> s = u +:+ r.
Proof.
  revert s. induction u as [|a u IH]; intros s.
  - cbn. now intros [= ->].
  - destruct s as [|b s]; cbn [strip_prefix]; [discriminate|].
    destruct (Ascii.eqb a b) eqn:E; [|discriminate].
    apply Ascii.eqb_eq in E. subst b. intros S. apply IH in S.
    apply (f_equal (String a)) in S. exact S.
Qed.

Lemma strip_prefix_app u r : strip_prefix u (u +:+ r) = Some r.
Proof.
  induction u as [|a u IH]; [reflexivity|].
  change (strip_prefix (String a u) (String a (u +:+ r)) = Some r).
  cbn [strip_prefix]. now rewrite Ascii.eqb_refl.
Qed.

Lemma strip_one_Some units s r :
  strip_one units s = Some r -> exists u, In u units /\ s = u +:+ r.
Proof.
  unfold strip_one. induction units as [|u units IH]; cbn [foldr]; [discriminate|].
  destruct (strip_prefix u s) as [rest|] eqn:P.
  - intros [= <-]. exists u. split; [now left|now apply strip_prefix_Some].
  - intros S. destruct (IH S) as (v & Hin & E). exists v. split; [now right|exact E].
Qed.

Lemma strip_one_None units s :
  strip_one units s = None -> forall u r, In u units -> s <> u +:+ r.
Proof.
  unfold strip_one. induction units as [|u units IH]; cbn [foldr]; [intros _ ? ? []|].
  destruct (strip_prefix u s) as [rest|] eqn:P; [discriminate|].
  intros S v r [<-|Hin] E.
  - subst s. now rewrite strip_prefix_app in P.
  - now apply (IH S v r).
Qed.

Lemma strip_one_empty units :
  Forall (fun u => u <> "") units -> strip_one units "" = None.
Proof.
  unfold strip_one. induction 1 as [|u units Hu _ IH]; cbn [foldr]; [reflexivity|].
  destruct u; [now destruct Hu|]. cbn [strip_prefix]. exact IH.
Qed.

(** What [strip_all] takes away is a run of units. *)
Lemma strip_all_glue fuel units s :
  exists us, Forall (fun u => In u units) us /\ s = glue us +:+ strip_all fuel units s.
Proof.
  revert s. induction fuel as [|fuel IH]; intros s.
  - exists []. split; [constructor|reflexivity].
  - cbn [strip_all]. destruct (strip_one units s) as [rest|] eqn:S.
    + apply strip_one_Some in S. destruct S as (u & Hin & ->).
      destruct (IH rest) as (us & Hus & E).
      exists (u :: us). split; [now constructor|].
      cbn [glue foldr]. fold (glue us). rewrite string_app_assoc. now rewrite <- E.
    + exists []. split; [constructor|reflexivity].
Qed.

(** With fuel for every byte, no unit is left at the head. *)
Lemma strip_all_done fuel units s :
  Forall (fun u => u <> "") units -> (String.length s <= fuel)%nat ->
  strip_one units (strip_all fuel units s) = None.
Proof.
  intros Hn. revert s. induction fuel as [|fuel IH]; intros s L.
  - destruct s; [|cbn in L; lia]. now apply strip_one_empty.
  - cbn [strip_all]. destruct (strip_one units s) as [rest|] eqn:S; [|exact S].
    apply IH. apply strip_one_Some in S. destruct S as (u & Hin & ->).
    rewrite string_length_app in L.
    rewrite Forall_forall in Hn. apply list_elem_of_In, Hn in Hin.
    destruct u; [now destruct Hin|]. cbn in L. lia.
Qed.

Lemma white_space_nonempty : Forall (fun u => u <> "") white_space.
Proof. repeat constructor; discriminate. Qed.

Lemma string_rev_app a b : string_rev (a +:+ b) = string_rev b +:+ string_rev a.
Proof.
  unfold string_rev. rewrite list_ascii_app, rev_app_distr.
  generalize (rev (list_ascii_of_string b)) (rev (list_ascii_of_string a)).
  intros l1 l2. induction l1 as [|x l1 IH]; [reflexivity|].
  apply (f_equal (String x)) in IH. exact IH.
Qed.

Lemma string_rev_involutive s : string_rev (string_rev s) = s.
Proof.
  unfold string_rev. rewrite list_ascii_of_string_of_list_ascii, rev_involutive.
  apply string_of_list_ascii_of_string.
Qed.

Lemma string_rev_length s : String.length (string_rev s) = String.length s.
Proof.
  unfold string_rev.
  assert (L : forall l, String.length (string_of_list_ascii l) = length l).
  { induction l as [|x l IH]; [reflexivity|]. cbn. now rewrite IH. }
  rewrite L, length_rev, <- (L (list_ascii_of_string s)).
  now rewrite string_of_list_ascii_of_string.
Qed.

Lemma glue_app us vs : glue (us ++ vs) = glue us +:+ glue vs.
Proof.
  induction us as [|u us IH]; [reflexivity|].
  cbn [app glue foldr]. fold (glue (us ++ vs)) (glue us).
  now rewrite IH, string_app_assoc.
Qed.

Lemma string_rev_glue us :
  string_rev (glue us) = glue (rev (map string_rev us)).
Proof.
  induction us as [|u us IH]; [reflexivity|].
  cbn [glue foldr map rev]. fold (glue us).
  rewrite string_rev_app, IH, glue_app. cbn [glue foldr].
  now rewrite string_app_nil_r.
Qed.

Lemma blank_app a b : blank a -> blank b -> blank (a +:+ b).
Proof.
  intros (us & Hu & ->) (vs & Hv & ->). exists (us ++ vs)%list.
  split; [now apply Forall_app|now rewrite glue_app].
Qed.

(** [trimStart] takes a run of white space from the head, all of it. *)
Lemma trimStart_spec s :
  (exists pre, blank pre /\ s = pre +:+ trimStart s) /\
  forall u r, In u white_space -> trimStart s <> u +:+ r.
Proof.
  unfold trimStart. split.
  - destruct (strip_all_glue (String.length s) white_space s) as (us & Hus & E).
    exists (glue us). split; [now exists us|exact E].
  - apply strip_one_None, strip_all_done; [apply white_space_nonempty|lia].
Qed.

(** [trimEnd] takes a run of white space from the end, all of it. *)
Lemma trimEnd_spec s :
  (exists post, blank post /\ s = trimEnd s +:+ post) /\
  forall u r, In u white_space -> trimEnd s <> r +:+ u.
Proof.
  unfold trimEnd.
  set (units := map string_rev white_space).
  set (core := strip_all (String.length s) units (string_rev s)).
  split.
  - destruct (strip_all_glue (String.length s) units (string_rev s)) as (us & Hus & E).
    fold core in E. exists (string_rev (glue us)). split.
    + exists (rev (map string_rev us)). split; [|apply string_rev_glue].
      apply Forall_forall. intros v Hv.
      apply list_elem_of_In, in_rev, in_map_iff in Hv. destruct Hv as (x & <- & Hx).
      rewrite Forall_forall in Hus. apply list_elem_of_In, Hus in Hx.
      apply in_map_iff in Hx. destruct Hx as (y & <- & Hy).
      now rewrite string_rev_involutive.
    + rewrite <- string_rev_app, <- E. symmetry. apply string_rev_involutive.
  - intros u r Hin E.
    assert (N : strip_one units core = None).
    { apply strip_all_done; [|rewrite string_rev_length; lia].
      apply Forall_forall. intros v Hv. apply list_elem_of_In, in_map_iff in Hv.
      destruct Hv as (x & <- & Hx). intros Z.
      apply (f_equal string_rev) in Z. rewrite string_rev_involutive in Z. subst x.
      pose proof white_space_nonempty as W. rewrite Forall_forall in W.
      now apply (W "" (proj2 (list_elem_of_In _ _) Hx)). }
    apply (strip_one_None _ _ N (string_rev u) (string_rev r)).
    + now apply in_map.
    + rewrite <- string_rev_app, <- E. symmetry. apply string_rev_involutive.
Qed.

(** No unit starts with another: a run of white space is read off in one
    way only. *)
Lemma strip_one_unit u r : In u white_space -> strip_one white_space (u +:+ r) = Some r.
Proof.
  intros Hin. vm_compute in Hin.
  repeat (destruct Hin as [<-|Hin]; [reflexivity|]). destruct Hin.
Qed.

Lemma strip_all_blank fuel us :
  Forall (fun u => In u white_space) us -> (length us <= fuel)%nat ->
  strip_all fuel white_space (glue us) = "".
Proof.
  intros Hus. revert fuel. induction Hus as [|u us Hu _ IH]; intros fuel L.
  - destruct fuel; [reflexivity|]. reflexivity.
  - destruct fuel as [|fuel]; [cbn in L; lia|].
    cbn [strip_all glue foldr]. fold (glue us).
    rewrite (strip_one_unit u (glue us) Hu). apply IH. cbn in L. lia.
Qed.

Lemma glue_length us :
  Forall (fun u => In u white_space) us -> (length us <= String.length (glue us))%nat.
Proof.
  induction 1 as [|u us Hu _ IH]; [cbn; lia|].
  cbn [glue foldr length]. fold (glue us). rewrite string_length_app.
  pose proof white_space_nonempty as W. rewrite Forall_forall in W.
  apply list_elem_of_In, W in Hu. destruct u; [now destruct Hu|]. cbn. lia.
Qed.

Lemma trim_blank s : blank s -> trim s = "".
Proof.
  intros (us & Hus & ->). unfold trim, trimStart.
  rewrite strip_all_blank; [reflexivity|exact Hus|now apply glue_length].
Qed.

Lemma trim_trim_of line : trim_of line (trim line).
Proof.
  destruct (trimStart_spec line) as [(pre & Bpre & E1) N1].
  destruct (trimEnd_spec (trimStart line)) as [(post & Bpost & E2) N2].
  fold (trim line) in E2, N2.
  split; [|split; [apply trim_blank|]].
  - intros u r Hin. split; [|now apply N2].
    intros E. apply (N1 u (r +:+ post) Hin).
    now rewrite E2, E, string_app_assoc.
  - exists pre, post. split; [exact Bpre|]. split; [exact Bpost|].
    now rewrite <- E2.
Qed.

(** ** Lines *)

Lemma split_on_cons sep s : exists h t, split_on sep s = h :: t.
Proof.
  destruct s as [|c s]; cbn; [eauto|].
  destruct (Ascii.eqb c sep); [eauto|]. destruct (split_on sep s); eauto.
Qed.

Lemma split_on_join s : join_lines (split_on newline s) = s.
Proof.
  induction s as [|c s IH]; [reflexivity|].
  cbn [split_on]. destruct (Ascii.eqb c newline) eqn:E.
  - apply Ascii.eqb_eq in E. subst c.
    destruct (split_on_cons newline s) as (h & t & S). rewrite S in IH |- *.
    cbn [join_lines]. cbn [join_lines] in IH. rewrite IH. reflexivity.
  - destruct (split_on_cons newline s) as (h & t & S). rewrite S in IH |- *.
    cbn [join_lines] in IH |- *. destruct t as [|h' t].
    + now rewrite IH.
    + rewrite <- IH. reflexivity.
Qed.

Lemma split_on_no_line_feed s :
  Forall (fun line => ~ has_line_feed line) (split_on newline s).
Proof.
  induction s as [|c s IH]; [repeat constructor; intros []|].
  cbn [split_on]. destruct (Ascii.eqb c newline) eqn:E.
  - constructor; [intros []|exact IH].
  - destruct (split_on_cons newline s) as (h & t & S). rewrite S in IH |- *.
    inversion IH as [|? ? Hh Ht]; subst. constructor; [|exact Ht].
    intros [Hc|Hin]; [|now apply Hh].
    apply Ascii.eqb_neq in E. now apply E.
Qed.

(** ** Streaming *)

Section Streaming.
Context `{Runtime}.
Variable registry : list (string * LLMProviderConfig).
Variable network : list PostCall -> PostCall -> Reply.

Lemma handle_lines_reported initial lines st :
  reported initial st -> reported initial (handle_lines lines st).
Proof.
  revert st. induction lines as [|line rest IH]; intros st R; [exact R|].
  cbn [handle_lines].
  destruct (String.prefix "data: " line); [|now apply IH].
  destruct (String.eqb (string_drop 6 line) "[DONE]"); [exact R|].
  apply IH.
  destruct (cbind (JSON_parse (string_drop 6 line))
                  (extractResponseFromProvider (stream_provider st)))
    as [content|e]; [|exact R].
  destruct (truthy content); [|exact R].
  destruct (js_add (accumulatedText st) content) as [acc|e]; [|exact R].
  unfold reported. cbn [updates accumulatedText]. now rewrite last_snoc.
Qed.

(** One event whose payload carries a non-empty string: the listener
    appends it to [accumulatedText] and reports the new text. *)
Lemma handle_lines_appends line st a c parsedData :
  String.prefix "data: " line = true ->
  String.eqb (string_drop 6 line) "[DONE]" = false ->
  JSON_parse (string_drop 6 line) = Returns parsedData ->
  extractResponseFromProvider (stream_provider st) parsedData = Returns (VStr c) ->
  c <> "" ->
  accumulatedText st = VStr a ->
  handle_lines [line] st =
    {| stream_provider := stream_provider st;
       pending := pending st;
       accumulatedText := VStr (a +:+ c);
       updates := updates st ++ [VStr (a +:+ c)];
       stream_console := stream_console st |}.
Proof.
  intros P D J X C A. cbn [handle_lines]. rewrite P, D, J. cbn [cbind]. rewrite X.
  apply str_truthy_spec in C. cbn [truthy]. rewrite C, A, js_add_strings.
  reflexivity.
Qed.

Lemma handle_lines_provider lines st :
  stream_provider (handle_lines lines st) = stream_provider st.
Proof.
  revert st. induction lines as [|line rest IH]; intros st; [reflexivity|].
  cbn [handle_lines].
  destruct (String.prefix "data: " line); [|now apply IH].
  destruct (String.eqb (string_drop 6 line) "[DONE]"); [reflexivity|].
  rewrite IH.
  destruct (cbind _ _) as [content|e]; [|reflexivity].
  destruct (truthy content); [|reflexivity].
  now destruct (js_add (accumulatedText st) content).
Qed.

Lemma drain_reported initial st : reported initial st -> reported initial (drain st).
Proof.
  intros R. unfold drain.
  assert (G : forall chunks s, reported initial s ->
                reported initial (fold_left (fun s chunk => on_data chunk s) chunks s)).
  { induction chunks as [|chunk chunks IH]; intros s Rs; [exact Rs|].
    cbn [fold_left]. apply IH. now apply handle_lines_reported. }
  apply (G (pending st)) in R. exact R.
Qed.

(** C4, as the code has it.  When a request with [streaming = true] and an
    [onStreamingUpdate] callback is dispatched to a provider that supports
    streaming and the dispatch returns, [sendRequest] returns that response:
    its [text] is the empty string, the value [accumulatedText] has when the
    listener is registered and before the stream has emitted anything; it
    carries no [tokenUsage]; and the cache is left as it was.  The text the
    stream goes on to deliver accumulates in the listener only, which passes
    it to [onStreamingUpdate]. *)
Theorem streamed_dispatch_returns_placeholder
  (request : LLMRequest) (w : World) (p : LLMProviderConfig)
  (llmResponse : LLMResponse) (w' : World) :
  is_streaming request = true ->
  streamingSupport p = true ->
  has_callback request = true ->
  getBestProvider registry (provider request) = Some p ->
  dispatch network p request (model_or_first p (model request)) w
    = (Returns llmResponse, w') ->
  sendRequest registry network request w = Some (Returns llmResponse, w') /\
  text llmResponse = VStr "" /\
  tokenUsage llmResponse = None /\
  responseCache w' = responseCache w /\
  exists st,
    streams w' = (streams w ++ [st])%list /\
    stream_provider st = p /\
    accumulatedText st = VStr "" /\
    updates st = [] /\
    reported (VStr "") (drain st).
Proof.
  intros S Hs Hc P D.
  assert (St : streamed p request = true) by (unfold streamed; now rewrite S, Hs, Hc).
  split.
  { eapply sendRequest_own_dispatch; [now apply cache_check_streaming|exact P|exact D]. }
  pose proof (dispatch_dispatched network p request (model_or_first p (model request)) w)
    as Hd.
  rewrite D in Hd. inversion Hd; subst; clear Hd; try congruence.
  repeat split. eexists. repeat split. now apply drain_reported.
Qed.

(** The sampling fields of the request reach nothing but the fingerprint:
    with other values for them the [try] block sends the same request, gets
    the same response and leaves the same world outside the cache. *)
Lemma dispatch_ignores_sampling p request m w mt temp :
  fst (dispatch network p (with_sampling mt temp request) m w)
    = fst (dispatch network p request m w) /\
  outside_cache (snd (dispatch network p (with_sampling mt temp request) m w))
    = outside_cache (snd (dispatch network p request m w)).
Proof.
  unfold dispatch, bind, lift, axios_post, subscribe, extractTokenUsage,
    Date_now, cache_put, ret, outside_cache.
  change (prompt (with_sampling mt temp request)) with (prompt request).
  change (is_streaming (with_sampling mt temp request)) with (is_streaming request).
  change (has_callback (with_sampling mt temp request)) with (has_callback request).
  destruct (formatPromptForProvider p (prompt request) m) as [body|e];
    [|split; reflexivity].
  destruct (is_streaming request && streamingSupport p && has_callback request);
    cbn [posts now with_cache with_posts with_now].
  - destruct (outcome (network (posts w) _)) as [[v|chunks]|e]; split; reflexivity.
  - destruct (outcome (network (posts w) _)) as [d|e]; [|split; reflexivity].
    destruct (extractResponseFromProvider p (as_body d)); [|split; reflexivity].
    destruct (extractTokenUsage_try p (as_body d)); split; reflexivity.
Qed.

(** C10.  Every body [formatPromptForProvider] builds, and it builds one for
    each of the three provider families, has [max_tokens] 1000 and
    [temperature] 0.7; so has every request [sendRequest] sends, whatever the
    request's [maxTokens] and [temperature], which change neither what is
    sent nor what is returned, only the key under which it is cached. *)
Theorem dispatched_body_has_fixed_sampling :
  (forall p prompt model body,
     formatPromptForProvider p prompt model = Returns body -> fixed_sampling body) /\
  (forall p prompt model,
     family p <> None ->
     exists body, formatPromptForProvider p prompt model = Returns body) /\
  (forall depth request w out w',
     sendRequest_depth registry network depth request w = Some (out, w') ->
     exists calls, posts w' = (posts w ++ calls)%list /\
                   Forall (fun call => fixed_sampling (data call)) calls) /\
  (forall p request m w mt temp,
     fst (dispatch network p (with_sampling mt temp request) m w)
       = fst (dispatch network p request m w) /\
     posts (snd (dispatch network p (with_sampling mt temp request) m w))
       = posts (snd (dispatch network p request m w))).
Proof.
  split; [apply formatPromptForProvider_fixed|].
  split; [apply formatPromptForProvider_known|].
  split; [apply sendRequest_posts|].
  intros p request m w mt temp.
  destruct (dispatch_ignores_sampling p request m w mt temp) as [Ho Hw].
  split; [exact Ho|].
  change (posts (outside_cache (snd (dispatch network p (with_sampling mt temp request) m w)))
          = posts (outside_cache (snd (dispatch network p request m w)))).
  now rewrite Hw.
Qed.

(** C9.  [suggestInsights] splits the text [sendRequest] returns at its line
    feeds, trims every line and drops the empty ones, in order.  The lines
    are the pieces of the text between its line feeds: joined by line feeds
    they give the text back, and none contains one.  Each line gives its
    core, the line without the run of white space at its head and the one at
    its end, so that a core neither starts nor ends with white space, keeps
    what is in between, and is empty for a line of white space.  The result
    is the cores that are not empty, so no line of it is empty.  For the text
    of the example it is [a], [b], [c]; for a text with white space around
    and inside its lines it is the three lines with their inner white space
    only. *)
Theorem suggestInsights_trimmed_nonempty_lines
  (dataContext : value) (options : RequestOptions) (w : World)
  (llmResponse : LLMResponse) (w' : World) (t : string) :
  sendRequest registry network
    (with_options (insights_prompt (JSON_stringify dataContext)) options) w
    = Some (Returns llmResponse, w') ->
  text llmResponse = VStr t ->
  exists lines cores,
    t = join_lines lines /\ lines <> [] /\
    Forall (fun line => ~ has_line_feed line) lines /\
    Forall2 trim_of lines cores /\
    suggestInsights registry network dataContext options w
      = Some (Returns (nonempty cores), w') /\
    Forall (fun line => line <> "") (nonempty cores) /\
    (t = example_text -> nonempty cores = ["a"; "b"; "c"]) /\
    (t = spaced_text -> nonempty cores = ["first insight"; "second"; "third"]).
Proof.
  intros R T.
  exists (split_on newline t), (map trim (split_on newline t)).
  split; [symmetry; apply split_on_join|].
  split; [destruct (split_on_cons newline t) as (h & l & ->); discriminate|].
  split; [apply split_on_no_line_feed|].
  split.
  { induction (split_on newline t) as [|line lines IH]; constructor;
      [apply trim_trim_of|exact IH]. }
  split.
  { unfold suggestInsights. rewrite R, T. cbn [insights_of]. do 3 f_equal.
    apply filter_ext. intros [|c s]; reflexivity. }
  split.
  { apply Forall_forall. intros line Hin. apply list_elem_of_In, filter_In in Hin.
    destruct Hin as [_ Hn]. apply negb_true_iff, String.eqb_neq in Hn. exact Hn. }
  split; intros ->; reflexivity.
Qed.

End Streaming.

(** ** The claims on concrete runs *)

Lemma run_eta {A} (r : option (completion A * World)) (out : completion A) :
  result_of r = Some out -> r = Some (out, world_after r).
Proof. destruct r as [[out' w]|]; cbn; congruence. Qed.

Lemma pair_eta {A B} (d : A * B) (a : A) : fst d = a -> d = (a, snd d).
Proof. destruct d; cbn; congruence. Qed.

(** C1, counterexample.  A streaming request without callback, and a
    streaming request with callback to the provider that does not support
    streaming, both leave their response in the cache. *)
Lemma streaming_request_written_to_cache_counterexample :
  let request := ask_streaming "p" None in
  let request' := ask_streaming_from "deepseek" "p" (Some (callback 0)) in
  streaming request = Some true /\
  responseCache boot !! createCacheKey request = None /\
  result_of (run net_hi request boot) = Some (Returns hi_response) /\
  responseCache (world_after (run net_hi request boot)) !! createCacheKey request
    = Some {| response := hi_response; timestamp := 5 |} /\
  streaming request' = Some true /\
  responseCache boot !! createCacheKey request' = None /\
  result_of (run net_hi request' boot) = Some (Returns hi_response_deepseek) /\
  responseCache (world_after (run net_hi request' boot)) !! createCacheKey request'
    = Some {| response := hi_response_deepseek; timestamp := 5 |}.
Proof. vm_compute. repeat split; reflexivity. Qed.

Lemma streaming_request_and_cache_witness :
  let request := ask_streaming "p" None in
  let request' := ask_streaming "p" (Some (callback 0)) in
  alike (sendRequest_depth (H := example_runtime) example_registry net_hi 2 request
           (with_cache (responseCache (world_after (run net_hi (ask "p") boot))) boot))
        (sendRequest_depth (H := example_runtime) example_registry net_hi 2 request boot) /\
  (exists out w' call rest,
     run net_hi request boot = Some (out, w') /\
     posts w' = (posts boot ++ call :: rest)%list) /\
  responseCache
    (snd (dispatch (H := example_runtime) net_hi example_openai request' None boot))
    = responseCache boot /\
  responseCache
    (snd (dispatch (H := example_runtime) net_hi example_openai request None boot))
    !! createCacheKey request
    = Some {| response := {| text := VStr "hi"; resp_provider := "OpenAI";
                             resp_model := None; tokenUsage := Some no_usage |};
              timestamp := 5 |}.
Proof.
  intros request request'.
  pose proof (streaming_request_and_cache (H := example_runtime)
                example_registry net_hi request boot eq_refl) as (A & B & _ & D).
  pose proof (streaming_request_and_cache (H := example_runtime)
                example_registry net_hi request' boot eq_refl) as (_ & _ & C & _).
  split; [apply A|]. split.
  - apply (B example_openai); [reflexivity|discriminate].
  - split.
    + eapply (C example_openai None _ _ eq_refl eq_refl). apply surjective_pairing.
    + assert (E : now (snd (dispatch (H := example_runtime) net_hi example_openai
                              request None boot)) = 5%Z) by reflexivity.
      rewrite <- E. apply (D example_openai None); [right; reflexivity|].
      apply pair_eta. vm_compute. reflexivity.
Defined.

(** C2, counterexample.  The request names the provider [openai]; its first
    dispatch fails and the fallback call, made for the request without
    provider, succeeds and is cached under the fingerprint of that request.
    The same request, submitted again at the very moment the first completes,
    misses the cache and goes to the network. *)
Lemma cache_miss_after_fallback_counterexample :
  let request := ask_provider "openai" "p" in
  let w1 := world_after (run net_fail_first request boot) in
  is_streaming request = false /\
  key_components request = key_components request /\
  result_of (run net_fail_first request boot) = Some (Returns hi_response) /\
  (now w1 - now w1 < CACHE_DURATION)%Z /\
  length (posts w1) = 2%nat /\
  responseCache w1 !! createCacheKey request = None /\
  responseCache w1 !! createCacheKey (ask "p")
    = Some {| response := hi_response; timestamp := 10 |} /\
  result_of (run net_fail_first request w1) = Some (Returns hi_response) /\
  length (posts (world_after (run net_fail_first request w1))) = 3%nat.
Proof. vm_compute. repeat split; reflexivity. Qed.

Lemma cache_hit_within_ttl_after_own_dispatch_witness :
  let w1 := world_after (run net_hi (ask "p") boot) in
  run net_hi (ask "p") boot = Some (Returns hi_response, w1) /\
  run net_hi (ask "p") (with_now 1800004 w1)
    = Some (Returns hi_response, log CACHE_HIT (with_now 1800004 w1)) /\
  cache_check (ask "p") (with_now 1800005 w1) = None /\
  exists out w2 call rest,
    run net_hi (ask "p") (with_now 1800005 w1) = Some (out, w2) /\
    posts w2 = (posts w1 ++ call :: rest)%list.
Proof.
  intros w1.
  assert (W : w1 = snd (dispatch (H := example_runtime) net_hi example_openai (ask "p")
                          (model_or_first example_openai (model (ask "p"))) boot))
    by reflexivity.
  assert (D : dispatch (H := example_runtime) net_hi example_openai (ask "p")
                (model_or_first example_openai (model (ask "p"))) boot
              = (Returns hi_response, w1)).
  { rewrite W. apply pair_eta. vm_compute. reflexivity. }
  assert (N : now w1 = 5%Z) by (vm_compute; reflexivity).
  pose proof (cache_hit_within_ttl_after_own_dispatch (H := example_runtime)
                example_registry net_hi (ask "p") (ask "p") example_openai boot w1
                hi_response 1800004 eq_refl eq_refl eq_refl eq_refl eq_refl D)
    as (R1 & _ & Hit & _).
  pose proof (cache_hit_within_ttl_after_own_dispatch (H := example_runtime)
                example_registry net_hi (ask "p") (ask "p") example_openai boot w1
                hi_response 1800005 eq_refl eq_refl eq_refl eq_refl eq_refl D)
    as (_ & _ & _ & Miss).
  split; [exact R1|]. split.
  - apply Hit. rewrite N. reflexivity.
  - assert (T : (CACHE_DURATION <= 1800005 - now w1)%Z) by (rewrite N; discriminate).
    destruct (Miss T) as (C & Again & _).
    split; [exact C|]. apply (Again example_openai); [reflexivity|discriminate].
Defined.

Lemma sendRequest_single_fallback_witness :
  run net_fail_first (ask_provider "openai" "p") boot
    = sendRequest_depth (H := example_runtime) example_registry net_fail_first 1
        (ask "p")
        (log RETRY (log (SEND_FAILED (Error "Network Error"))
           (snd (dispatch (H := example_runtime) net_fail_first example_openai
                   (ask_provider "openai" "p") (Some "gpt-4-turbo") boot)))) /\
  result_of (run net_fail_first (ask_provider "openai" "p") boot)
    = Some (Returns hi_response) /\
  result_of (run net_down (ask "p") boot)
    = Some (Throws (Error "Eroare la comunicarea cu API-ul LLM: Network Error")).
Proof.
  pose proof (sendRequest_single_fallback (H := example_runtime)
                example_registry net_fail_first (ask_provider "openai" "p") boot)
    as (_ & _ & F).
  pose proof (sendRequest_single_fallback (H := example_runtime)
                example_registry net_down (ask "p") boot) as (_ & _ & G).
  specialize (F example_openai (Error "Network Error")
                (snd (dispatch (H := example_runtime) net_fail_first example_openai
                        (ask_provider "openai" "p") (Some "gpt-4-turbo") boot))
                eq_refl eq_refl eq_refl).
  specialize (G example_openai (Error "Network Error")
                (snd (dispatch (H := example_runtime) net_down example_openai
                        (ask "p") (Some "gpt-4-turbo") boot))
                eq_refl eq_refl eq_refl).
  destruct F as [F _]. destruct G as [_ G].
  destruct (F eq_refl) as (_ & _ & E & _).
  destruct (G eq_refl) as (_ & E' & _).
  split; [exact E|]. split; [reflexivity|].
  unfold run. rewrite E'. reflexivity.
Defined.

(** C4, counterexample.  The stream delivers one event with the text [hi];
    the listener accumulates it and reports it to the callback, while the
    response [sendRequest] returned has the empty text. *)
Lemma streamed_response_text_counterexample :
  let request := ask_streaming "p" (Some (callback 0)) in
  let st := {| stream_provider := example_openai;
               pending := ["data: " +:+ hi_payload];
               accumulatedText := VStr ""; updates := []; stream_console := [] |} in
  streamed example_openai request = true /\
  getBestProvider example_registry (provider request) = Some example_openai /\
  result_of (run net_hi request boot)
    = Some (Returns {| text := VStr ""; resp_provider := "OpenAI";
                       resp_model := Some "gpt-4-turbo"; tokenUsage := None |}) /\
  streams (world_after (run net_hi request boot)) = [st] /\
  accumulatedText (drain (H := example_runtime) st) = VStr "hi" /\
  updates (drain (H := example_runtime) st) = [VStr "hi"] /\
  VStr "" <> accumulatedText (drain (H := example_runtime) st).
Proof. vm_compute. repeat split; try reflexivity. discriminate. Qed.

Lemma streamed_dispatch_returns_placeholder_witness :
  let request := ask_streaming "p" (Some (callback 0)) in
  exists llmResponse w',
    run net_hi request boot = Some (Returns llmResponse, w') /\
    text llmResponse = VStr "" /\
    tokenUsage llmResponse = None /\
    responseCache w' = responseCache boot.
Proof.
  intros request.
  destruct (streamed_dispatch_returns_placeholder (H := example_runtime)
              example_registry net_hi request boot example_openai
              (fst_response
                 (dispatch (H := example_runtime) net_hi example_openai request
                    (Some "gpt-4-turbo") boot))
              (snd (dispatch (H := example_runtime) net_hi example_openai request
                      (Some "gpt-4-turbo") boot))
              eq_refl eq_refl eq_refl eq_refl eq_refl)
    as (R & T & U & C & _).
  eexists _, _. split; [exact R|]. split; [exact T|]. split; [exact U|exact C].
Defined.

Lemma extractTokenUsage_never_throws_witness :
  (exists w', extractTokenUsage (H := example_runtime) (adapter "Claude") VNull boot
              = (Returns None, w')) /\
  (exists w', extractTokenUsage (H := example_runtime) (adapter "Mistral") hi_body boot
              = (Returns None, w')).
Proof.
  split.
  - destruct (extractTokenUsage_never_throws (H := example_runtime)
                (adapter "Claude") VNull boot) as (usage & w' & E & T & _).
    exists w'. rewrite <- (T (cannot_read VNull "usage") eq_refl). exact E.
  - destruct (extractTokenUsage_never_throws (H := example_runtime)
                (adapter "Mistral") hi_body boot) as (usage & w' & E & _ & U).
    exists w'. rewrite <- (U eq_refl). exact E.
Defined.

Lemma suggestInsights_trimmed_nonempty_lines_witness :
  let request :=
    with_options (insights_prompt (JSON_stringify (Runtime := example_runtime) VNull))
                 no_options in
  suggestInsights (H := example_runtime) example_registry net_lines VNull no_options boot
  = Some (Returns ["a"; "b"; "c"], world_after (run net_lines request boot)) /\
  suggestInsights (H := example_runtime) example_registry net_spaced VNull no_options boot
  = Some (Returns ["first insight"; "second"; "third"],
          world_after (run net_spaced request boot)).
Proof.
  intros request. split.
  - destruct (suggestInsights_trimmed_nonempty_lines (H := example_runtime)
                example_registry net_lines VNull no_options boot lines_response
                (world_after (run net_lines request boot)) example_text)
      as (lines & cores & _ & _ & _ & _ & E & _ & L & _).
    + apply run_eta. vm_compute. reflexivity.
    + reflexivity.
    + rewrite E, (L eq_refl). reflexivity.
  - destruct (suggestInsights_trimmed_nonempty_lines (H := example_runtime)
                example_registry net_spaced VNull no_options boot spaced_response
                (world_after (run net_spaced request boot)) spaced_text)
      as (lines & cores & _ & _ & _ & _ & E & _ & _ & L).
    + apply run_eta. vm_compute. reflexivity.
    + reflexivity.
    + rewrite E, (L eq_refl). reflexivity.
Defined.

Lemma dispatched_body_has_fixed_sampling_witness :
  fixed_sampling
    (VObj [("model", VStr "m");
           ("messages", VArr [chat_message "user" "p"]);
           ("max_tokens", VNum (Num "1000"));
           ("temperature", VNum (Num "0.7"));
           ("system", VStr SYSTEM_PROMPT)]) /\
  (exists body, formatPromptForProvider (adapter "DeepSeek") "p" None = Returns body) /\
  (exists calls,
     posts (world_after (run net_fail_first (ask_provider "openai" "p") boot))
       = (posts boot ++ calls)%list /\
     Forall (fun call => fixed_sampling (data call)) calls).
Proof.
  destruct (dispatched_body_has_fixed_sampling (H := example_runtime)
              example_registry net_fail_first) as (F & K & P & _).
  split; [|split].
  - apply (F (adapter "Claude") "p" None). reflexivity.
  - apply K. discriminate.
  - eapply (P 2%nat (ask_provider "openai" "p") boot). apply run_eta. reflexivity.
Defined.

(** * Further properties of the service *)

Lemma registry_lookup_In registry key p :
  registry_lookup registry key = Some p -> In p (registry_values registry).
Proof.
  unfold registry_lookup, registry_values.
  destruct (find _ registry) as [[k q]|] eqn:F; [|discriminate].
  intros [= <-]. apply find_some in F. destruct F as [F _].
  apply in_map_iff. exists (k, q). now split.
Qed.

(** Whatever [getBestProvider] returns is in the registry and has a
    credential. *)
Lemma getBestProvider_available registry requested p :
  getBestProvider registry requested = Some p ->
  In p (registry_values registry) /\ apiKey p <> "".
Proof.
  assert (Hd : head (getAvailableProviders registry) = Some p ->
               In p (registry_values registry) /\ apiKey p <> "").
  { intros Hh. apply best_available_least in Hh. tauto. }
  unfold getBestProvider.
  destruct requested as [key|]; [|exact Hd].
  destruct (str_truthy key); [|exact Hd].
  destruct (registry_lookup registry key) as [q|] eqn:L; [|exact Hd].
  destruct (available q) eqn:A; [|exact Hd].
  intros [= <-]. split; [now apply registry_lookup_In with key|now apply available_spec].
Qed.

Lemma getBestProvider_none registry requested :
  getBestProvider registry requested = None ->
  forall q, In q (registry_values registry) -> apiKey q = "".
Proof.
  intros Hn. apply best_available_none.
  unfold getBestProvider in Hn.
  destruct requested as [key|]; [|exact Hn].
  destruct (str_truthy key); [|exact Hn].
  destruct (registry_lookup registry key) as [q|]; [|exact Hn].
  destruct (available q); [discriminate|exact Hn].
Qed.

Lemma getBestProvider_without_credentials registry requested :
  (forall q, In q (registry_values registry) -> apiKey q = "") ->
  getBestProvider registry requested = None.
Proof.
  intros Hall.
  destruct (getBestProvider registry requested) as [p|] eqn:E; [|reflexivity].
  apply getBestProvider_available in E. destruct E as [Hin Hk].
  now apply Hall in Hin.
Qed.

(** Once a provider was found for some name, one is found without a name. *)
Lemma getBestProvider_default_exists registry requested p :
  getBestProvider registry requested = Some p ->
  exists q, getBestProvider registry None = Some q.
Proof.
  intros E. destruct (getBestProvider registry None) as [q|] eqn:N; [eauto|].
  apply getBestProvider_available in E. destruct E as [Hin Hk].
  now apply (getBestProvider_none registry None N) in Hin.
Qed.

Lemma cache_check_inv `{Runtime} request w r w' :
  cache_check request w = Some (r, w') ->
  is_streaming request = false /\ w' = log CACHE_HIT w /\
  exists item, responseCache w !! createCacheKey request = Some item /\
               r = response item /\
               (now w - timestamp item < CACHE_DURATION)%Z.
Proof.
  unfold cache_check.
  destruct (is_streaming request); [discriminate|]. cbn [negb].
  destruct (responseCache w !! createCacheKey request) as [item|]; [|discriminate].
  destruct (now w - timestamp item <? CACHE_DURATION)%Z eqn:T; [|discriminate].
  intros [= <- <-]. apply Z.ltb_lt in T. eauto 6.
Qed.

Section Further.
Context `{Runtime}.
Variable registry : list (string * LLMProviderConfig).
Variable network : list PostCall -> PostCall -> Reply.

Lemma sendRequest_depth_single request w out w' :
  sendRequest_depth registry network 1 request w = Some (out, w') ->
  single registry network request w out w'.
Proof.
  rewrite sendRequest_depth_S.
  destruct (cache_check request w) as [[cached w0]|] eqn:C.
  { intros [= <- <-]. now apply from_cache. }
  destruct (getBestProvider registry (provider request)) as [p|] eqn:P.
  2: { intros [= <- <-]. now apply no_provider. }
  destruct (dispatch network p request (model_or_first p (model request)) w)
    as [[r|e] w0] eqn:D.
  { intros [= <- <-]. now apply own_dispatch with p. }
  destruct (has_provider request) eqn:Hp; [discriminate|].
  intros [= <- <-]. now apply gave_up with p.
Qed.

(** Every run of [sendRequest] is one call, or a failed dispatch and one
    more call without provider. *)
Lemma sendRequest_routed request w out w' :
  sendRequest registry network request w = Some (out, w') ->
  routed registry network request w out w'.
Proof.
  unfold sendRequest. rewrite sendRequest_depth_S.
  destruct (cache_check request w) as [[cached w0]|] eqn:C.
  { intros [= <- <-]. now apply directly, from_cache. }
  destruct (getBestProvider registry (provider request)) as [p|] eqn:P.
  2: { intros [= <- <-]. now apply directly, no_provider. }
  destruct (dispatch network p request (model_or_first p (model request)) w)
    as [[r|e] w0] eqn:D.
  { intros [= <- <-]. now apply directly, own_dispatch with p. }
  destruct (has_provider request) eqn:Hp.
  - intros R. apply sendRequest_depth_single in R. now apply after_retry with p e w0.
  - intros [= <- <-]. now apply directly, gave_up with p.
Qed.

(** The request the [try] block sends, if the adapter builds one. *)
Lemma dispatch_sends p request m w out w' :
  dispatch network p request m w = (out, w') ->
  posts w' = (posts w ++
              match formatPromptForProvider p (prompt request) m with
              | Returns body => [call_of p request body]
              | Throws _ => []
              end)%list.
Proof.
  intros D. pose proof (dispatch_dispatched network p request m w) as Hd.
  rewrite D in Hd.
  inversion Hd; subst; clear Hd;
    match goal with E : formatPromptForProvider _ _ _ = _ |- _ => rewrite E end;
    try reflexivity; [now rewrite app_nil_r|].
  match goal with U : extractTokenUsage _ _ _ = _ |- _ =>
    apply extractTokenUsage_world in U; destruct U as (_ & Up & _) end.
  cbn [posts with_cache]. now rewrite Up.
Qed.

Lemma communication_error_not_no_provider e : communication_error e <> NO_PROVIDER.
Proof. discriminate. Qed.

(** X1.  [sendRequest] throws only two kinds of error.  One says that no
    provider is available: it is thrown before anything is sent or logged,
    and only when no provider of the registry has a credential.  The other
    is the communication error: it is thrown when a dispatch for a request
    without provider failed, be it the dispatch of the request itself or the
    one of the retry after a first failed dispatch; its message is the fixed
    prefix followed by the message of the error of that dispatch, which is
    the last the call makes: the call ends in the world the dispatch left,
    with one more line on the console. *)
Theorem sendRequest_throws_two_errors
  (request : LLMRequest) (w : World) (e : exn) (w' : World) :
  sendRequest registry network request w = Some (Throws e, w') ->
  (e = NO_PROVIDER /\ w' = w /\
   forall q, In q (registry_values registry) -> apiKey q = "") \/
  (exists last w0 p error w1,
     (last = request /\ w0 = w \/
      exists p0 e0 wf,
        has_provider request = true /\
        getBestProvider registry (provider request) = Some p0 /\
        dispatch network p0 request (model_or_first p0 (model request)) w
          = (Throws e0, wf) /\
        last = clear_provider request /\
        w0 = log RETRY (log (SEND_FAILED e0) wf)) /\
     has_provider last = false /\
     cache_check last w0 = None /\
     getBestProvider registry (provider last) = Some p /\
     apiKey p <> "" /\
     dispatch network p last (model_or_first p (model last)) w0 = (Throws error, w1) /\
     e = communication_error error /\
     message e = "Eroare la comunicarea cu API-ul LLM: " +:+ message error /\
     w' = log (SEND_FAILED error) w1).
Proof.
  intros R. apply sendRequest_routed in R.
  inversion R as [out w1 S|p e0 w0 out w1 C P D Hp S]; subst; clear R.
  - inversion S as [| C P | | p e0 w0 C P D Hp]; subst; clear S.
    + left. repeat split. now apply getBestProvider_none with (provider request).
    + right. exists request, w, p, e0, w0.
      split; [left; split; reflexivity|].
      split; [exact Hp|]. split; [exact C|]. split; [exact P|].
      split; [now apply getBestProvider_available in P|].
      split; [exact D|]. repeat split.
  - right.
    inversion S as [| C' P' | | p' e1 w2 C' P' D' Hp']; subst; clear S.
    + destruct (getBestProvider_default_exists _ _ _ P) as [q Q].
      cbn [provider clear_provider] in P'. congruence.
    + exists (clear_provider request), (log RETRY (log (SEND_FAILED e0) w0)), p', e1, w2.
      split; [right; exists p, e0, w0; repeat split; assumption|].
      split; [exact Hp'|]. split; [exact C'|]. split; [exact P'|].
      split; [now apply getBestProvider_available in P'|].
      split; [exact D'|]. repeat split.
Qed.

(** X2.  Without any credential a request that misses the cache fails at
    once with the error that says no provider is available: nothing is sent,
    nothing is logged, and naming a provider does not lead to a retry. *)
Theorem sendRequest_without_credentials (request : LLMRequest) (w : World) :
  (forall q, In q (registry_values registry) -> apiKey q = "") ->
  cache_check request w = None ->
  sendRequest registry network request w = Some (Throws NO_PROVIDER, w).
Proof.
  intros Hall C. unfold sendRequest.
  rewrite sendRequest_depth_S, C.
  now rewrite (getBestProvider_without_credentials registry (provider request) Hall).
Qed.


Lemma formatPromptForProvider_user_content p prompt model body :
  formatPromptForProvider p prompt model = Returns body ->
  user_content body = VStr prompt /\
  user_content (with_stream_flag body) = VStr prompt.
Proof.
  unfold formatPromptForProvider.
  destruct (family p) as [[]|]; intros [= <-]; split; reflexivity.
Qed.

(** What the [try] block sends: one request when the provider has an
    adapter, none otherwise. *)
Lemma dispatch_calls p request m w out w' :
  dispatch network p request m w = (out, w') ->
  exists calls,
    posts w' = (posts w ++ calls)%list /\ (length calls <= 1)%nat /\
    Forall (sent_to p) calls /\
    Forall (fun call => user_content (data call) = VStr (prompt request)) calls /\
    (family p <> None -> length calls = 1%nat).
Proof.
  intros D. apply dispatch_sends in D.
  destruct (formatPromptForProvider p (prompt request) m) as [body|e] eqn:E.
  - exists [call_of p request body]. split; [exact D|]. split; [cbn; lia|].
    apply formatPromptForProvider_user_content in E. destruct E as [E1 E2].
    split; [|split; [|reflexivity]].
    + constructor; [|constructor].
      unfold call_of. destruct (streamed p request); split; reflexivity.
    + constructor; [|constructor].
      unfold call_of. destruct (streamed p request); cbn [data]; assumption.
  - exists []. split; [exact D|]. split; [cbn; lia|].
    split; [constructor|]. split; [constructor|].
    intros Hf. destruct (formatPromptForProvider_known p (prompt request) m Hf) as [body E'].
    congruence.
Qed.

Lemma single_calls request w out w' :
  single registry network request w out w' ->
  exists calls,
    posts w' = (posts w ++ calls)%list /\ (length calls <= 1)%nat /\
    Forall (fun call =>
              exists p, getBestProvider registry (provider request) = Some p /\
                        sent_to p call) calls /\
    Forall (fun call => user_content (data call) = VStr (prompt request)) calls.
Proof.
  assert (G : forall p m out0 w0,
            getBestProvider registry (provider request) = Some p ->
            dispatch network p request m w = (out0, w0) ->
            exists calls,
              posts w0 = (posts w ++ calls)%list /\ (length calls <= 1)%nat /\
              Forall (fun call =>
                        exists p, getBestProvider registry (provider request) = Some p /\
                                  sent_to p call) calls /\
              Forall (fun call => user_content (data call) = VStr (prompt request)) calls).
  { intros p m out0 w0 P D. apply dispatch_calls in D.
    destruct D as (calls & Hp & Hl & Ht & Hu & _).
    exists calls. split; [exact Hp|]. split; [exact Hl|]. split; [|exact Hu].
    eapply Forall_impl; [exact Ht|]. intros call Hc. now exists p. }
  intros S. inversion S as [r w1 C | C P | p r w1 C P D | p e w0 C P D Hp];
    subst; clear S.
  - apply cache_check_inv in C. destruct C as (_ & -> & _).
    exists []. rewrite app_nil_r. repeat split; try constructor. cbn; lia.
  - exists []. rewrite app_nil_r. repeat split; try constructor. cbn; lia.
  - now apply (G p _ _ _ P D).
  - now apply (G p _ _ _ P D).
Qed.

Lemma selected_targets requested p call :
  getBestProvider registry requested = Some p -> sent_to p call -> targets registry call.
Proof.
  intros P Hc. apply getBestProvider_available in P. destruct P as [Hin Hk].
  now exists p.
Qed.

(** The requests of a run: each goes to the provider selected for the
    request or, on the retry, for the request without its provider; each
    carries the prompt. *)
Lemma sendRequest_calls request w out w' :
  sendRequest registry network request w = Some (out, w') ->
  exists calls,
    posts w' = (posts w ++ calls)%list /\
    Forall (fun call =>
              exists p, (getBestProvider registry (provider request) = Some p \/
                         getBestProvider registry None = Some p) /\
                        sent_to p call) calls /\
    Forall (fun call => user_content (data call) = VStr (prompt request)) calls.
Proof.
  intros R. apply sendRequest_routed in R.
  inversion R as [out1 w1 S|p e w0 out1 w1 C P D Hp S]; subst; clear R.
  - apply single_calls in S. destruct S as (calls & Hp & _ & Ht & Hu).
    exists calls. split; [exact Hp|]. split; [|exact Hu].
    eapply Forall_impl; [exact Ht|]. intros call (q & Q & Hc). exists q. tauto.
  - apply dispatch_calls in D. destruct D as (calls & Hp1 & _ & Ht & Hu & _).
    apply single_calls in S. destruct S as (calls' & Hp2 & _ & Ht' & Hu').
    exists (calls ++ calls')%list. split; [|split].
    + rewrite Hp2. cbn [posts log with_console]. now rewrite Hp1, app_assoc.
    + apply Forall_app. split.
      * eapply Forall_impl; [exact Ht|]. intros call Hc. exists p. tauto.
      * eapply Forall_impl; [exact Ht'|]. intros call (q & Q & Hc). exists q. tauto.
    + apply Forall_app. now split.
Qed.

(** X3.  Every request [sendRequest] sends goes to a provider of the
    registry that has a non-empty credential, at that provider's endpoint;
    its headers are [Content-Type: application/json] and [Authorization:
    Bearer] followed by that provider's key; and it carries the caller's
    prompt, unchanged, as the content of its last message. *)
Theorem sendRequest_sends_to_available_providers
  (request : LLMRequest) (w : World) (out : completion LLMResponse) (w' : World) :
  sendRequest registry network request w = Some (out, w') ->
  exists calls,
    posts w' = (posts w ++ calls)%list /\
    Forall (targets registry) calls /\
    Forall (fun call => user_content (data call) = VStr (prompt request)) calls.
Proof.
  intros R. apply sendRequest_calls in R. destruct R as (calls & Hp & Ht & Hu).
  exists calls. split; [exact Hp|]. split; [|exact Hu].
  eapply Forall_impl; [exact Ht|].
  intros call (p & [P|P] & Hc); now apply selected_targets with (2 := Hc) in P.
Qed.

(** With a provider of a known adapter selected, a request that misses the
    cache is sent to that provider first. *)
Lemma sendRequest_first_call request w p :
  cache_check request w = None ->
  getBestProvider registry (provider request) = Some p ->
  family p <> None ->
  exists out w' call rest,
    sendRequest registry network request w = Some (out, w') /\
    posts w' = (posts w ++ call :: rest)%list /\
    sent_to p call /\
    user_content (data call) = VStr (prompt request).
Proof.
  intros C P Hf.
  destruct (sendRequest_depth_two registry network 0 request w) as [_ [[out w'] R]].
  exists out, w'.
  assert (G : forall out0 w0,
            dispatch network p request (model_or_first p (model request)) w = (out0, w0) ->
            exists call, posts w0 = (posts w ++ [call])%list /\ sent_to p call /\
                         user_content (data call) = VStr (prompt request)).
  { intros out0 w0 D. apply dispatch_calls in D.
    destruct D as (calls & Hp & _ & Ht & Hu & Hl). specialize (Hl Hf).
    destruct calls as [|call [|? ?]]; try discriminate Hl.
    exists call. split; [exact Hp|].
    inversion Ht; subst. inversion Hu; subst. now split. }
  pose proof (sendRequest_routed _ _ _ _ R) as Hr.
  inversion Hr as [out1 w1 S|p0 e w0 out1 w1 C0 P0 D Hp S]; subst; clear Hr.
  - inversion S as [r w1 C1 | C1 P1 | p1 r w1 C1 P1 D | p1 e w0 C1 P1 D Hp];
      subst; clear S; try congruence.
    + assert (p1 = p) by congruence. subst p1.
      destruct (G _ _ D) as (call & Hs & Ht & Hu). exists call, []. tauto.
    + assert (p1 = p) by congruence. subst p1.
      destruct (G _ _ D) as (call & Hs & Ht & Hu). exists call, [].
      split; [exact R|]. split; [exact Hs|]. now split.
  - assert (p0 = p) by congruence. subst p0.
    destruct (G _ _ D) as (call & Hp1 & Ht & Hu).
    apply single_calls in S. destruct S as (calls' & Hp2 & _).
    exists call, calls'. split; [exact R|]. split; [|now split].
    rewrite Hp2. cbn [posts log with_console]. now rewrite Hp1, <- app_assoc.
Qed.

(** X4.  A call of [sendRequest] sends at most two requests, at most one
    when the request names no provider, and none when it is answered from
    the cache. *)
Theorem sendRequest_sends_at_most_two
  (request : LLMRequest) (w : World) (out : completion LLMResponse) (w' : World) :
  sendRequest registry network request w = Some (out, w') ->
  exists calls,
    posts w' = (posts w ++ calls)%list /\ (length calls <= 2)%nat /\
    (has_provider request = false -> (length calls <= 1)%nat) /\
    (cache_check request w <> None -> calls = []).
Proof.
  intros R. apply sendRequest_routed in R.
  inversion R as [out1 w1 S|p e w0 out1 w1 C P D Hp S]; subst; clear R.
  - pose proof (single_calls _ _ _ _ S) as (calls & Hp & Hl & _).
    exists calls. split; [exact Hp|]. split; [lia|]. split; [intros _; exact Hl|].
    intros Hc. inversion S; subst; try congruence.
    match goal with C : cache_check _ _ = Some _ |- _ =>
      apply cache_check_inv in C; destruct C as (_ & -> & _) end.
    cbn [posts log with_console] in Hp.
    rewrite <- (app_nil_r (posts w)) in Hp at 1. now apply app_inv_head in Hp.
  - apply dispatch_calls in D.
    destruct D as (calls & Hp1 & Hl1 & _).
    apply single_calls in S. destruct S as (calls' & Hp2 & Hl2 & _).
    exists (calls ++ calls')%list. split.
    { rewrite Hp2. cbn [posts log with_console]. now rewrite Hp1, app_assoc. }
    rewrite length_app. split; [lia|]. split; [congruence|].
    intros Hc. congruence.
Qed.

Lemma dispatch_cache_frame p request m w out w' :
  dispatch network p request m w = (out, w') ->
  (forall k, k <> createCacheKey request ->
             responseCache w' !! k = responseCache w !! k) /\
  (forall k, is_Some (responseCache w !! k) -> is_Some (responseCache w' !! k)).
Proof.
  intros D. apply dispatch_cache in D.
  destruct out as [r|e]; [destruct (streamed p request)|]; rewrite D; split;
    try tauto.
  - intros k Hk. now rewrite lookup_insert_ne.
  - intros k Hs. destruct (decide (createCacheKey request = k)) as [->|Hne].
    + rewrite lookup_insert_eq. eauto.
    + now rewrite lookup_insert_ne.
Qed.

Lemma single_cache_frame request w out w' :
  single registry network request w out w' ->
  (forall k, k <> createCacheKey request ->
             responseCache w' !! k = responseCache w !! k) /\
  (forall k, is_Some (responseCache w !! k) -> is_Some (responseCache w' !! k)).
Proof.
  intros S. inversion S as [r w1 C | C P | p r w1 C P D | p e w0 C P D Hp];
    subst; clear S.
  - apply cache_check_inv in C. destruct C as (_ & -> & _). split; tauto.
  - split; tauto.
  - now apply dispatch_cache_frame in D.
  - now apply dispatch_cache_frame in D.
Qed.

(** The entries [sendRequest] leaves as they are. *)
Lemma sendRequest_cache_untouched request w out w' k :
  sendRequest registry network request w = Some (out, w') ->
  k <> createCacheKey request ->
  k <> createCacheKey (clear_provider request) ->
  responseCache w' !! k = responseCache w !! k.
Proof.
  intros R Hk Hk'. apply sendRequest_routed in R.
  inversion R as [out1 w1 S|p e w0 out1 w1 C P D Hp S]; subst; clear R.
  - apply single_cache_frame in S. destruct S as [F _]. now apply F.
  - apply dispatch_cache_frame in D. destruct D as [F1 _].
    apply single_cache_frame in S. destruct S as [F2 _].
    cbn [responseCache log with_console] in F2.
    rewrite F2 by exact Hk'. now apply F1.
Qed.

(** X5.  [sendRequest] never removes an entry from the cache, expired or
    not, and leaves every entry alone but the one under the fingerprint of
    the request and the one under the fingerprint of the request with its
    provider cleared. *)
Theorem sendRequest_cache_frame
  (request : LLMRequest) (w : World) (out : completion LLMResponse) (w' : World) :
  sendRequest registry network request w = Some (out, w') ->
  (forall k, k <> createCacheKey request ->
             k <> createCacheKey (clear_provider request) ->
             responseCache w' !! k = responseCache w !! k) /\
  (forall k, is_Some (responseCache w !! k) -> is_Some (responseCache w' !! k)).
Proof.
  intros R. apply sendRequest_routed in R.
  inversion R as [out1 w1 S|p e w0 out1 w1 C P D Hp S]; subst; clear R.
  - apply single_cache_frame in S. destruct S as [F K]. split; [|exact K].
    intros k Hk _. now apply F.
  - apply dispatch_cache_frame in D. destruct D as [F1 K1].
    apply single_cache_frame in S. destruct S as [F2 K2].
    cbn [responseCache log with_console] in F2, K2. split.
    + intros k Hk Hk'. rewrite F2 by exact Hk'. now apply F1.
    + intros k Hs. now apply K2, K1.
Qed.

(** X6.  A cache hit changes nothing but the console: it sends nothing and
    does not refresh the entry, so the entry still expires [CACHE_DURATION]
    after it was stored, however often it was served in between. *)
Theorem cache_hit_does_not_refresh
  (request : LLMRequest) (w : World) (r : LLMResponse) (w' : World) :
  cache_check request w = Some (r, w') ->
  sendRequest registry network request w = Some (Returns r, w') /\
  responseCache w' = responseCache w /\ posts w' = posts w /\
  now w' = now w /\ streams w' = streams w /\
  exists item,
    responseCache w !! createCacheKey request = Some item /\
    forall t, (CACHE_DURATION <= t - timestamp item)%Z ->
              cache_check request (with_now t w') = None.
Proof.
  intros C. split.
  { unfold sendRequest. now rewrite sendRequest_depth_S, C. }
  apply cache_check_inv in C. destruct C as (_ & -> & item & L & _ & _).
  repeat split. exists item. split; [exact L|].
  intros t T. now apply cache_check_expired with item.
Qed.


Lemma dispatch_known_sends p request m w out w' body :
  formatPromptForProvider p (prompt request) m = Returns body ->
  dispatch network p request m w = (out, w') ->
  posts w' = (posts w ++ [call_of p request body])%list.
Proof. intros E D. apply dispatch_sends in D. now rewrite E in D. Qed.

Lemma cache_check_log request entry w :
  (cache_check request w = None -> cache_check request (log entry w) = None) /\
  (forall r w', cache_check request w = Some (r, w') ->
                cache_check request (log entry w) = Some (r, log CACHE_HIT (log entry w))).
Proof.
  unfold cache_check. cbn [responseCache now log with_console].
  destruct (negb (is_streaming request)); [|split; [reflexivity|discriminate]].
  destruct (responseCache w !! createCacheKey request) as [item|];
    [|split; [reflexivity|discriminate]].
  destruct (now w - timestamp item <? CACHE_DURATION)%Z;
    split; try reflexivity; try discriminate.
  now intros r w' [= <- _].
Qed.

(** X7.  The fallback does not move on to another provider when the
    provider the request names is itself the best available one: every
    request the call sends, the one of the retry included, goes to the
    endpoint of that provider with that provider's key.  When the first
    dispatch to it fails after its request was sent (the provider has an
    adapter), two cases remain.  If the cache has no fresh entry for the
    request without its provider, the retry sends a second request to the
    same provider, so the call sends exactly two.  If it has one, the retry
    is answered from the cache, and the call returns the cached response
    after its one request. *)
Theorem fallback_retries_best_provider
  (request : LLMRequest) (w : World) (p : LLMProviderConfig)
  (out : completion LLMResponse) (w' : World) :
  has_provider request = true ->
  getBestProvider registry (provider request) = Some p ->
  getBestProvider registry None = Some p ->
  sendRequest registry network request w = Some (out, w') ->
  exists calls,
    posts w' = (posts w ++ calls)%list /\
    Forall (sent_to p) calls /\
    (forall e w0,
       cache_check request w = None ->
       dispatch network p request (model_or_first p (model request)) w = (Throws e, w0) ->
       family p <> None ->
       (cache_check (clear_provider request) w0 = None -> length calls = 2%nat) /\
       (forall r w1,
          cache_check (clear_provider request) w0 = Some (r, w1) ->
          length calls = 1%nat /\ out = Returns r)).
Proof.
  intros Hp P P0 R.
  destruct (sendRequest_calls _ _ _ _ R) as (calls & Hposts & Ht & _).
  exists calls. split; [exact Hposts|]. split.
  { eapply Forall_impl; [exact Ht|].
    intros call (q & [Q|Q] & Hc); congruence. }
  intros e w0 C D Hf.
  destruct (formatPromptForProvider_known p (prompt request)
              (model_or_first p (model request)) Hf) as [body E].
  pose proof (dispatch_known_sends _ _ _ _ _ _ _ E D) as S1.
  set (w1 := log RETRY (log (SEND_FAILED e) w0)).
  assert (R1 : sendRequest registry network request w
               = sendRequest_depth registry network 1 (clear_provider request) w1).
  { unfold sendRequest. now rewrite sendRequest_depth_S, C, P, D, Hp. }
  rewrite R1, sendRequest_depth_S in R.
  destruct (cache_check_log (clear_provider request) RETRY (log (SEND_FAILED e) w0))
    as [N1 H1].
  destruct (cache_check_log (clear_provider request) (SEND_FAILED e) w0) as [N0 H0].
  fold w1 in N1, H1. split.
  - intros C0. rewrite (N1 (N0 C0)) in R.
    cbn [provider model clear_provider] in R. rewrite P0 in R.
    change (prompt request) with (prompt (clear_provider request)) in E.
    destruct (dispatch network p (clear_provider request)
                (model_or_first p (model request)) w1) as [[r|e1] w2] eqn:D1;
      pose proof (dispatch_known_sends _ _ _ _ _ _ _ E D1) as S2;
      cbn [posts w1 log with_console] in S2; rewrite S1, <- app_assoc in S2;
      [|rewrite has_provider_clear in R]; injection R as <- <-;
      cbn [posts log with_console] in Hposts; rewrite S2 in Hposts;
      apply app_inv_head in Hposts; now rewrite <- Hposts.
  - intros r wc C0. rewrite (H1 _ _ (H0 _ _ C0)) in R. injection R as <- <-.
    cbn [posts w1 log with_console] in Hposts. rewrite S1 in Hposts.
    apply app_inv_head in Hposts. now rewrite <- Hposts.
Qed.

(** X8.  The fingerprint does not record whether a request asked for
    streaming.  When a request with [streaming = true] is answered on the
    synchronous path (no callback, or a provider without streaming), the
    response it stores is served to a later request that differs only in
    its streaming fields and does not stream. *)
Theorem streaming_response_served_to_plain_request
  (request : LLMRequest) (w : World) (p : LLMProviderConfig)
  (r : LLMResponse) (w1 : World) (s : option bool) (cb : option StreamingCallback)
  (t : Z) :
  is_streaming request = true ->
  streamed p request = false ->
  getBestProvider registry (provider request) = Some p ->
  dispatch network p request (model_or_first p (model request)) w = (Returns r, w1) ->
  is_streaming (with_streaming s cb request) = false ->
  (t - now w1 < CACHE_DURATION)%Z ->
  sendRequest registry network request w = Some (Returns r, w1) /\
  sendRequest registry network (with_streaming s cb request) (with_now t w1)
    = Some (Returns r, log CACHE_HIT (with_now t w1)).
Proof.
  intros S N P D S' T. split.
  - eapply sendRequest_own_dispatch; [now apply cache_check_streaming|exact P|exact D].
  - apply (sendRequest_cache_hit registry network (with_streaming s cb request)
             (with_now t w1) {| response := r; timestamp := now w1 |} S');
      [|exact T].
    change (responseCache w1 !! createCacheKey request
            = Some {| response := r; timestamp := now w1 |}).
    exact (dispatch_sync_stores network p request _ w r w1 N D).
Qed.

(** X9.  A provider whose name has no adapter is never sent anything: the
    request fails inside the [try] block, and without a named provider the
    caller gets the communication error wrapping
    ["Provider necunoscut: " + name]. *)
Theorem unknown_adapter_sends_nothing
  (request : LLMRequest) (w : World) (p : LLMProviderConfig) :
  family p = None ->
  cache_check request w = None ->
  getBestProvider registry (provider request) = Some p ->
  has_provider request = false ->
  sendRequest registry network request w
    = Some (Throws (communication_error (unknown_provider p)),
            log (SEND_FAILED (unknown_provider p)) w) /\
  message (communication_error (unknown_provider p))
    = "Eroare la comunicarea cu API-ul LLM: Provider necunoscut: " +:+ name p.
Proof.
  intros Hf C P Hp. split; [|reflexivity].
  assert (E : formatPromptForProvider p (prompt request)
                (model_or_first p (model request)) = Throws (unknown_provider p)).
  { unfold formatPromptForProvider. now rewrite Hf. }
  unfold sendRequest.
  now rewrite sendRequest_depth_S, C, P, (dispatch_format_throws network _ _ _ _ _ E), Hp.
Qed.

Lemma dispatch_streams p request m w out w' :
  dispatch network p request m w = (out, w') ->
  (streams w' = streams w /\ (streamed p request = true -> exists e, out = Throws e)) \/
  (streamed p request = true /\
   exists chunks,
     out = Returns {| text := VStr ""; resp_provider := name p; resp_model := m;
                      tokenUsage := None |} /\
     streams w' = (streams w ++ [{| stream_provider := p; pending := chunks;
                                    accumulatedText := VStr ""; updates := [];
                                    stream_console := [] |}])%list).
Proof.
  intros D. pose proof (dispatch_dispatched network p request m w) as Hd.
  rewrite D in Hd.
  inversion Hd; subst; clear Hd.
  - left. split; [reflexivity|]. eauto.
  - left. split; [reflexivity|]. eauto.
  - right. split; [assumption|]. eexists. split; reflexivity.
  - left. split; [reflexivity|]. eauto.
  - left. split; [reflexivity|]. eauto.
  - left. match goal with U : extractTokenUsage _ _ _ = _ |- _ =>
      apply extractTokenUsage_world in U; destruct U as (_ & _ & _ & Us & _) end.
    cbn [streams with_cache]. split; [exact Us|].
    match goal with S0 : streamed p request = false |- _ => rewrite S0 end.
    discriminate.
Qed.

Lemma single_streams request w out w' :
  single registry network request w out w' ->
  streams w' = streams w \/
  (is_streaming request = true /\
   exists p m chunks,
     out = Returns {| text := VStr ""; resp_provider := name p; resp_model := m;
                      tokenUsage := None |} /\
     streams w' = (streams w ++ [{| stream_provider := p; pending := chunks;
                                    accumulatedText := VStr ""; updates := [];
                                    stream_console := [] |}])%list).
Proof.
  intros S. inversion S as [r w1 C | C P | p r w1 C P D | p e w0 C P D Hp];
    subst; clear S.
  - apply cache_check_inv in C. destruct C as (_ & -> & _). now left.
  - now left.
  - apply dispatch_streams in D. destruct D as [[D _]|(St & chunks & -> & D)].
    + now left.
    + right. split; [|eauto 6].
      unfold streamed in St. now destruct (is_streaming request).
  - apply dispatch_streams in D. destruct D as [[D _]|(_ & chunks & [=] & _)].
    now left.
Qed.

(** X10.  A call of [sendRequest] registers at most one stream listener, and
    only for a request with [streaming = true]; when it registers one, it
    returns the placeholder response with the empty text and no token usage,
    and the listener starts with an empty accumulator and no update
    reported. *)
Theorem sendRequest_registers_one_listener
  (request : LLMRequest) (w : World) (out : completion LLMResponse) (w' : World) :
  sendRequest registry network request w = Some (out, w') ->
  streams w' = streams w \/
  (is_streaming request = true /\
   exists p m chunks,
     out = Returns {| text := VStr ""; resp_provider := name p; resp_model := m;
                      tokenUsage := None |} /\
     streams w' = (streams w ++ [{| stream_provider := p; pending := chunks;
                                    accumulatedText := VStr ""; updates := [];
                                    stream_console := [] |}])%list).
Proof.
  intros R. apply sendRequest_routed in R.
  inversion R as [out1 w1 S|p e w0 out1 w1 C P D Hp S]; subst; clear R.
  - now apply single_streams.
  - apply dispatch_streams in D. destruct D as [[D _]|(_ & chunks & [=] & _)].
    apply single_streams in S. cbn [streams log with_console] in S.
    rewrite D in S. exact S.
Qed.

(** X11.  After [clearCache] no request is answered from the cache: the
    cache check fails for every request, and with a provider of a known
    adapter selected the request is sent to the network.  [clearCache]
    touches neither the requests sent, the clock nor the listeners. *)
Theorem clearCache_forces_dispatch (request : LLMRequest) (w : World) :
  cache_check request (clearCache w) = None /\
  posts (clearCache w) = posts w /\ now (clearCache w) = now w /\
  streams (clearCache w) = streams w /\
  forall p,
    getBestProvider registry (provider request) = Some p ->
    family p <> None ->
    exists out w' call rest,
      sendRequest registry network request (clearCache w) = Some (out, w') /\
      posts w' = (posts w ++ call :: rest)%list.
Proof.
  assert (C : cache_check request (clearCache w) = None).
  { apply cache_check_absent. apply lookup_empty. }
  repeat split; [exact C|].
  intros p P Hf.
  apply (sendRequest_reaches_network registry network 0 request (clearCache w) p C P Hf).
Qed.

(** X12.  The entry the synchronous path stores is stamped with the time at
    which the response arrived, the clock at the dispatch plus the time the
    request took, so the thirty minutes run from the arrival of the response
    and not from the submission of the request. *)
Theorem cache_entry_stamped_at_arrival
  (request : LLMRequest) (w : World) (p : LLMProviderConfig) (m : option string)
  (r : LLMResponse) (w' : World) :
  streamed p request = false ->
  dispatch network p request m w = (Returns r, w') ->
  exists body,
    formatPromptForProvider p (prompt request) m = Returns body /\
    now w' = (now w + elapsed (network (posts w) (call_of p request body)))%Z /\
    responseCache w' !! createCacheKey request
      = Some {| response := r;
                timestamp := (now w + elapsed (network (posts w) (call_of p request body)))%Z |}.
Proof.
  intros S D.
  pose proof (dispatch_sync_stores network p request m w r w' S D) as L.
  pose proof (dispatch_dispatched network p request m w) as Hd. rewrite D in Hd.
  inversion Hd; subst; clear Hd;
    try match goal with
        | S1 : streamed p request = true |- _ => rewrite S in S1; discriminate S1
        end.
  match goal with U : extractTokenUsage _ _ _ = _ |- _ =>
    apply extractTokenUsage_world in U; destruct U as (_ & _ & Un & _) end.
  eexists. split; [eassumption|].
  cbn [now with_cache] in L |- *. rewrite Un in L |- *.
  split; [reflexivity|exact L].
Qed.

End Further.

(** ** The stream listener *)

Section Listener.
Context `{Runtime}.

Lemma handle_lines_done post st : handle_lines (DONE_LINE :: post) st = st.
Proof. reflexivity. Qed.

Lemma handle_lines_until_done pre post st :
  handle_lines (pre ++ DONE_LINE :: post) st = handle_lines pre st.
Proof.
  revert st. induction pre as [|line pre IH]; intros st; [reflexivity|].
  cbn [app handle_lines].
  destruct (String.prefix "data: " line); [|apply IH].
  destruct (String.eqb (string_drop 6 line) "[DONE]"); [reflexivity|apply IH].
Qed.

Lemma handle_lines_with_pending chunks lines st :
  handle_lines lines (with_pending chunks st)
  = with_pending chunks (handle_lines lines st).
Proof.
  revert st. induction lines as [|line lines IH]; intros st; [reflexivity|].
  cbn [handle_lines]. cbn [stream_provider with_pending accumulatedText].
  destruct (String.prefix "data: " line); [|apply IH].
  destruct (String.eqb (string_drop 6 line) "[DONE]"); [reflexivity|].
  destruct (cbind _ _) as [content|e].
  - destruct (truthy content); [|apply IH].
    destruct (js_add (accumulatedText st) content) as [acc|e].
    + exact (IH {| stream_provider := stream_provider st; pending := pending st;
                   accumulatedText := acc; updates := updates st ++ [acc];
                   stream_console := stream_console st |}).
    + exact (IH {| stream_provider := stream_provider st; pending := pending st;
                   accumulatedText := accumulatedText st; updates := updates st;
                   stream_console :=
                     stream_console st ++
                     [console_error "Eroare la parsarea datelor de streaming:" e] |}).
  - exact (IH {| stream_provider := stream_provider st; pending := pending st;
                 accumulatedText := accumulatedText st; updates := updates st;
                 stream_console :=
                   stream_console st ++
                   [console_error "Eroare la parsarea datelor de streaming:" e] |}).
Qed.

Lemma fold_on_data_with_pending chunks chunks' st :
  fold_left (fun s chunk => on_data chunk s) chunks (with_pending chunks' st)
  = with_pending chunks' (fold_left (fun s chunk => on_data chunk s) chunks st).
Proof.
  revert st. induction chunks as [|chunk chunks IH]; intros st; [reflexivity|].
  cbn [fold_left]. rewrite <- IH. f_equal. apply handle_lines_with_pending.
Qed.

(** X13.  The end-of-stream sentinel ends the processing of the chunk it
    arrives in, not of the stream: the lines that follow it in the same
    chunk are dropped, while the chunks that arrive after it are processed
    as if it had not been sent. *)
Theorem done_sentinel_ends_the_chunk_only :
  (forall pre post st,
     handle_lines (pre ++ DONE_LINE :: post) st = handle_lines pre st) /\
  (forall chunks st,
     drain (with_pending (DONE_LINE :: chunks) st) = drain (with_pending chunks st)).
Proof.
  split; [apply handle_lines_until_done|].
  intros chunks st. unfold drain. cbn [pending with_pending fold_left].
  change (on_data DONE_LINE (with_pending (DONE_LINE :: chunks) st))
    with (with_pending (DONE_LINE :: chunks) st).
  now rewrite !fold_on_data_with_pending.
Qed.

(** X14.  The listener looks at the lines that start with [data: ] only:
    event names, comments and any other line change nothing. *)
Theorem listener_ignores_other_lines (lines : list string) (st : StreamState) :
  handle_lines lines st
  = handle_lines (List.filter (String.prefix "data: ") lines) st.
Proof.
  revert st. induction lines as [|line lines IH]; intros st; [reflexivity|].
  cbn [List.filter]. destruct (String.prefix "data: " line) eqn:P.
  - cbn [handle_lines]. rewrite P.
    destruct (String.eqb (string_drop 6 line) "[DONE]"); [reflexivity|apply IH].
  - cbn [handle_lines]. rewrite P. apply IH.
Qed.

Lemma told_refl st : told st st.
Proof. exists []. now rewrite app_nil_r. Qed.

Lemma told_trans st1 st2 st3 : told st1 st2 -> told st2 st3 -> told st1 st3.
Proof.
  intros (m1 & U1 & A1) (m2 & U2 & A2). exists (m1 ++ m2)%list. split.
  - now rewrite U2, U1, app_assoc.
  - rewrite A2, A1, last_app. now destruct (last m2).
Qed.

Lemma handle_lines_told lines st :
  told st (handle_lines lines st) /\
  stream_provider (handle_lines lines st) = stream_provider st /\
  pending (handle_lines lines st) = pending st /\
  extends (stream_console st) (stream_console (handle_lines lines st)).
Proof.
  revert st. induction lines as [|line lines IH]; intros st.
  { split; [apply told_refl|]. repeat split. exists []. now rewrite app_nil_r. }
  assert (Hst : told st st /\ stream_provider st = stream_provider st /\
                pending st = pending st /\
                extends (stream_console st) (stream_console st)).
  { split; [apply told_refl|]. repeat split. exists []. now rewrite app_nil_r. }
  cbn [handle_lines].
  destruct (String.prefix "data: " line); [|apply IH].
  destruct (String.eqb (string_drop 6 line) "[DONE]"); [exact Hst|].
  match goal with |- context [handle_lines lines ?s] => set (st' := s) end.
  assert (Hs : told st st' /\ stream_provider st' = stream_provider st /\
               pending st' = pending st /\
               extends (stream_console st) (stream_console st')).
  { subst st'.
    destruct (cbind _ _) as [content|e]; [destruct (truthy content);
      [destruct (js_add (accumulatedText st) content) as [acc|e]|]|];
      try exact Hst.
    - split; [|repeat split; exists []; now rewrite app_nil_r].
      exists [acc]. split; reflexivity.
    - split; [exists []; cbn; now rewrite app_nil_r|].
      repeat split. eexists. reflexivity.
    - split; [exists []; cbn; now rewrite app_nil_r|].
      repeat split. eexists. reflexivity. }
  destruct Hs as (T1 & P1 & P2 & [c1 K1]).
  destruct (IH st') as (T2 & Q1 & Q2 & [c2 K2]).
  split; [now apply told_trans with st'|].
  split; [congruence|]. split; [congruence|].
  exists (c1 ++ c2)%list. now rewrite K2, K1, app_assoc.
Qed.

(** X15.  The listener never takes back what it reported: when the stream
    has emitted all its chunks, the earlier calls of [onStreamingUpdate] are
    still the first ones, the accumulated text is the argument of the last
    new call (and untouched when there was none), the console has only
    grown, and the listener still belongs to the same provider. *)
Theorem listener_reports_append_only (st : StreamState) :
  told st (drain st) /\
  extends (stream_console st) (stream_console (drain st)) /\
  stream_provider (drain st) = stream_provider st /\
  pending (drain st) = [].
Proof.
  assert (G : forall chunks s,
            told s (fold_left (fun s chunk => on_data chunk s) chunks s) /\
            stream_provider (fold_left (fun s chunk => on_data chunk s) chunks s)
              = stream_provider s /\
            extends (stream_console s)
              (stream_console (fold_left (fun s chunk => on_data chunk s) chunks s))).
  { induction chunks as [|chunk chunks IH]; intros s.
    - split; [apply told_refl|]. split; [reflexivity|]. exists []. now rewrite app_nil_r.
    - cbn [fold_left]. destruct (IH (on_data chunk s)) as (T & P & [c K]).
      destruct (handle_lines_told
                  (List.filter (fun line => negb (String.eqb (trim line) ""))
                     (split_on newline chunk)) s) as (T' & P' & _ & [c' K']).
      fold (on_data chunk s) in T', P', K'.
      split; [now apply told_trans with (on_data chunk s)|].
      split; [congruence|].
      exists (c' ++ c)%list. now rewrite K, K', app_assoc. }
  destruct (G (pending st) st) as (T & P & K).
  unfold drain. split; [exact T|]. split; [exact K|]. split; [exact P|reflexivity].
Qed.

Lemma handle_lines_grows lines st a :
  (forall line v,
     In line lines -> String.prefix "data: " line = true ->
     cbind (JSON_parse (string_drop 6 line))
           (extractResponseFromProvider (stream_provider st)) = Returns v ->
     exists s, v = VStr s) ->
  accumulatedText st = VStr a ->
  exists b, accumulatedText (handle_lines lines st) = VStr (a +:+ b).
Proof.
  revert st a. induction lines as [|line lines IH]; intros st a Ht A.
  { exists "". now rewrite string_app_nil_r. }
  assert (Hst : exists b, accumulatedText st = VStr (a +:+ b)).
  { exists "". now rewrite string_app_nil_r. }
  assert (Ht' : forall line0 v,
            In line0 lines -> String.prefix "data: " line0 = true ->
            cbind (JSON_parse (string_drop 6 line0))
                  (extractResponseFromProvider (stream_provider st)) = Returns v ->
            exists s, v = VStr s).
  { intros line0 v Hin. apply Ht. now right. }
  cbn [handle_lines].
  destruct (String.prefix "data: " line) eqn:P; [|now apply IH].
  destruct (String.eqb (string_drop 6 line) "[DONE]"); [exact Hst|].
  destruct (cbind (JSON_parse (string_drop 6 line))
                  (extractResponseFromProvider (stream_provider st)))
    as [content|e] eqn:X; [|now apply IH].
  destruct (truthy content); [|now apply IH].
  destruct (Ht line content (or_introl eq_refl) P X) as [c ->].
  rewrite A, js_add_strings.
  destruct (IH {| stream_provider := stream_provider st; pending := pending st;
                  accumulatedText := VStr (a +:+ c);
                  updates := updates st ++ [VStr (a +:+ c)];
                  stream_console := stream_console st |} (a +:+ c) Ht' eq_refl)
    as [b Hb].
  exists (c +:+ b). now rewrite Hb, string_app_assoc.
Qed.

(** X16.  When the events of a stream carry their text as strings, the
    accumulated text only ever grows at its end: after the stream has
    emitted its chunks, the text the listener holds starts with the text it
    held before.  The condition is on the events of these chunks alone, the
    lines that start with [data: ]; what [JSON.parse] and the adapter make
    of other payloads does not matter. *)
Theorem accumulated_text_grows_at_its_end (st : StreamState) (a : string) :
  textual (stream_provider st) (pending st) ->
  accumulatedText st = VStr a ->
  exists b, accumulatedText (drain st) = VStr (a +:+ b).
Proof.
  intros Ht A. unfold drain. cbn [accumulatedText].
  assert (G : forall chunks s a0,
            textual (stream_provider s) chunks -> accumulatedText s = VStr a0 ->
            exists b,
              accumulatedText (fold_left (fun s chunk => on_data chunk s) chunks s)
              = VStr (a0 +:+ b)).
  { induction chunks as [|chunk chunks IH]; intros s a0 Hs As.
    - exists "". now rewrite string_app_nil_r.
    - cbn [fold_left].
      destruct (handle_lines_grows
                  (List.filter (fun line => negb (String.eqb (trim line) ""))
                     (split_on newline chunk)) s a0) as [b1 B1]; [|exact As|].
      { intros line v Hin P. apply (Hs chunk line v); [now left|].
        unfold event_lines. apply filter_In. now split. }
      fold (on_data chunk s) in B1.
      assert (Hs' : textual (stream_provider (on_data chunk s)) chunks).
      { unfold on_data. rewrite handle_lines_provider.
        intros chunk0 line v Hin. apply Hs. now right. }
      destruct (IH (on_data chunk s) (a0 +:+ b1) Hs' B1) as [b2 B2].
      exists (b1 +:+ b2). now rewrite B2, string_app_assoc. }
  now apply G.
Qed.

(** X17.  The listener reads the text of an event where a complete response
    has it, under [choices[0].message]: an event whose [choices[0]] has no
    [message], as the events of the OpenAI streaming protocol, which carry
    their text under [delta], contributes nothing, and causes neither an
    update nor an error. *)
Theorem events_without_message_are_ignored
  (line : string) (rest : list string) (st : StreamState) (parsedData : value) :
  family (stream_provider st) = Some OpenAI \/
  family (stream_provider st) = Some DeepSeek ->
  String.prefix "data: " line = true ->
  String.eqb (string_drop 6 line) "[DONE]" = false ->
  JSON_parse (string_drop 6 line) = Returns parsedData ->
  nullish parsedData = false ->
  nullish (member parsedData "choices") = false ->
  nullish (get_opt (element (member parsedData "choices") 0) "message") = true ->
  handle_lines (line :: rest) st = handle_lines rest st.
Proof.
  intros Hf P D J N1 N2 N3. cbn [handle_lines]. rewrite P, D, J. cbn [cbind].
  assert (X : extractResponseFromProvider (stream_provider st) parsedData
              = Returns (VStr "")).
  { unfold extractResponseFromProvider.
    assert (C : chat_completion_text parsedData = Returns (VStr "")).
    { apply chat_completion_text_guarded; [exact N1|exact N2|].
      unfold get_opt at 1. now rewrite N3. }
    now destruct Hf as [-> | ->]. }
  now rewrite X.
Qed.

End Listener.

(** ** The adapters, once more *)


Section Usage.
Context `{Runtime}.


End Usage.

(** ** Fingerprints *)

Lemma createCacheKey_prompt_inj r1 r2 :
  provider r1 = provider r2 -> model r1 = model r2 ->
  maxTokens r1 = maxTokens r2 -> temperature r1 = temperature r2 ->
  createCacheKey r1 = createCacheKey r2 -> prompt r1 = prompt r2.
Proof.
  unfold createCacheKey. intros -> -> -> -> E.
  repeat (apply String.app_inj in E). exact E.
Qed.

(** A provider name that does not start with [auto-] keeps the fingerprint
    of a request apart from the one of the request without provider. *)
Lemma auto_prefix_inj key t1 t2 :
  str_truthy key = true -> strip_prefix "auto-" key = None ->
  "auto" +:+ "-" +:+ t1 = key +:+ "-" +:+ t2 -> t1 = t2.
Proof.
  intros Hk Hp E.
  destruct key as [|c1 [|c2 [|c3 [|c4 [|c5 k]]]]]; cbv [String.append] in E;
    try discriminate E; try discriminate Hk.
  - now injection E.
  - injection E as <- <- <- <- <- E. cbn in Hp. discriminate Hp.
Qed.

Lemma provider_part_inj (pr : option string) t1 t2 :
  (forall key, pr = Some key -> strip_prefix "auto-" key = None) ->
  str_or None "auto" +:+ "-" +:+ t1 = str_or pr "auto" +:+ "-" +:+ t2 -> t1 = t2.
Proof.
  intros Hk. unfold str_or.
  assert (T : "auto" +:+ "-" +:+ t1 = "auto" +:+ "-" +:+ t2 -> t1 = t2).
  { intros Hab. now do 2 apply String.app_inj in Hab. }
  destruct pr as [key|]; [|exact T].
  destruct (str_truthy key) eqn:K; [|exact T].
  apply (auto_prefix_inj key); [exact K|now apply Hk].
Qed.

Lemma createCacheKey_cleared_prompt_inj r1 r2 :
  provider r1 = None ->
  (forall key, provider r2 = Some key -> strip_prefix "auto-" key = None) ->
  model r1 = model r2 -> maxTokens r1 = maxTokens r2 ->
  temperature r1 = temperature r2 ->
  createCacheKey r1 = createCacheKey r2 -> prompt r1 = prompt r2.
Proof.
  unfold createCacheKey. intros -> Hk -> -> -> E.
  apply provider_part_inj in E; [|exact Hk].
  now repeat apply String.app_inj in E.
Qed.

Lemma question_prompt_inj q1 q2 dataContextStr :
  question_prompt q1 dataContextStr = question_prompt q2 dataContextStr -> q1 = q2.
Proof.
  unfold question_prompt, quoted. intros E.
  do 2 apply String.app_inj in E.
  rewrite !string_app_assoc in E.
  apply String.app_inj in E.
  now apply string_app_inv_tail in E.
Qed.

Section Fingerprints.
Context `{Runtime}.
Variable registry : list (string * LLMProviderConfig).
Variable network : list PostCall -> PostCall -> Reply.

(** X20.  The fingerprint joins its components with [-] and so cannot tell
    where one ends: a request for provider [x-y] and model [z] has the
    fingerprint of the request for provider [x] and model [y-z].  A response
    cached for the one is served to the other. *)
Theorem fingerprint_separator_is_ambiguous
  (request : LLMRequest) (x y z : string) (w : World) (item : CacheItem) :
  x <> "" -> z <> "" ->
  let r1 := with_route (Some (x +:+ "-" +:+ y)) (Some z) request in
  let r2 := with_route (Some x) (Some (y +:+ "-" +:+ z)) request in
  createCacheKey r1 = createCacheKey r2 /\
  provider r1 <> provider r2 /\
  (is_streaming request = false ->
   responseCache w !! createCacheKey r1 = Some item ->
   (now w - timestamp item < CACHE_DURATION)%Z ->
   sendRequest registry network r2 w
     = Some (Returns (response item), log CACHE_HIT w)).
Proof.
  intros Hx Hz r1 r2.
  assert (K : createCacheKey r1 = createCacheKey r2).
  { unfold createCacheKey, r1, r2. cbn [provider model maxTokens temperature prompt with_route].
    unfold str_or.
    rewrite (str_truthy_app_r x ("-" +:+ y)) by discriminate.
    rewrite (str_truthy_app_r y ("-" +:+ z)) by discriminate.
    apply str_truthy_spec in Hx, Hz. rewrite Hx, Hz.
    now rewrite !string_app_assoc. }
  split; [exact K|]. split.
  - unfold r1, r2. cbn [provider with_route]. intros [= E].
    rewrite <- (string_app_nil_r x) in E at 2.
    apply String.app_inj in E. discriminate.
  - intros S L T. rewrite K in L.
    now apply sendRequest_cache_hit.
Qed.

(** X21.  Two different questions about the same data, asked with the same
    options (which carry no prompt of their own, and whose provider name, if
    any, does not start with [auto-]), never share a cache entry.  A call of
    [interpretQuestion] for the one neither creates nor changes the entry of
    the other, whether it was answered by the named provider or by the
    fallback.  So when the other question had no entry before, it has none
    afterwards, and whenever it is asked then, it is not answered with the
    response to the first: with a provider of a known adapter selected, it
    is sent to that provider, with the prompt that contains it. *)
Theorem questions_do_not_share_cache_entries
  (q1 q2 : string) (dataContext : value) (options : RequestOptions)
  (w : World) (out1 : completion value) (w1 : World) :
  q1 <> q2 ->
  opt_prompt options = None ->
  (forall key, opt_provider options = Some key -> strip_prefix "auto-" key = None) ->
  interpretQuestion registry network q1 dataContext options w = Some (out1, w1) ->
  let request2 :=
    with_options (question_prompt q2 (JSON_stringify dataContext)) options in
  responseCache w1 !! createCacheKey request2
    = responseCache w !! createCacheKey request2 /\
  (responseCache w !! createCacheKey request2 = None ->
   forall t p,
     getBestProvider registry (provider request2) = Some p ->
     family p <> None ->
     exists out2 w2 call rest,
       interpretQuestion registry network q2 dataContext options (with_now t w1)
         = Some (out2, w2) /\
       posts w2 = (posts w1 ++ call :: rest)%list /\
       sent_to p call /\
       user_content (data call)
         = VStr (question_prompt q2 (JSON_stringify dataContext))).
Proof.
  intros Hq Ho Hk R1 request2.
  set (request1 := with_options (question_prompt q1 (JSON_stringify dataContext)) options).
  assert (Hp : forall q,
            prompt (with_options (question_prompt q (JSON_stringify dataContext)) options)
            = question_prompt q (JSON_stringify dataContext)).
  { intros q. cbn [prompt with_options]. now rewrite Ho. }
  assert (K1 : createCacheKey request2 <> createCacheKey request1).
  { intros E. apply createCacheKey_prompt_inj in E; try reflexivity.
    unfold request1, request2 in E. rewrite !Hp in E.
    apply question_prompt_inj in E. now apply Hq. }
  assert (K2 : createCacheKey request2 <> createCacheKey (clear_provider request1)).
  { intros E. symmetry in E.
    apply createCacheKey_cleared_prompt_inj in E; try reflexivity; [|exact Hk].
    change (prompt (clear_provider request1)) with (prompt request1) in E.
    unfold request1, request2 in E. rewrite !Hp in E.
    apply question_prompt_inj in E. now apply Hq. }
  assert (F : responseCache w1 !! createCacheKey request2
              = responseCache w !! createCacheKey request2).
  { unfold interpretQuestion in R1. fold request1 in R1.
    destruct (sendRequest registry network request1 w) as [[[r|e] w0]|] eqn:S;
      [| |discriminate]; injection R1 as _ <-;
      exact (sendRequest_cache_untouched registry network _ _ _ _ _ S K1 K2). }
  split; [exact F|].
  intros L t p P Hf.
  assert (C : cache_check request2 (with_now t w1) = None).
  { apply cache_check_absent. cbn [responseCache with_now]. now rewrite F. }
  destruct (sendRequest_first_call registry network request2 (with_now t w1) p C P Hf)
    as (out & w2 & call & rest & R2 & Hposts & Ht & Hu).
  unfold interpretQuestion. fold request2. rewrite R2.
  unfold request2 in Hu. rewrite Hp in Hu.
  destruct out as [r|e]; eexists _, w2, call, rest; repeat split;
    solve [exact Hposts | apply Ht | exact Hu].
Qed.

(** X22.  [generateReport] goes through the cache of [sendRequest]: when a
    report request misses the cache and completes through its own dispatch,
    the same report asked for again less than [CACHE_DURATION] later is
    answered with the same text and sends nothing. *)
Theorem generateReport_repeated_within_ttl
  (dataContext : value) (promptTemplate : string) (options : RequestOptions)
  (w : World) (p : LLMProviderConfig) (r : LLMResponse) (w1 : World) (t : Z) :
  let request :=
    with_options (report_prompt promptTemplate (JSON_stringify dataContext)) options in
  is_streaming request = false ->
  cache_check request w = None ->
  getBestProvider registry (provider request) = Some p ->
  dispatch network p request (model_or_first p (model request)) w = (Returns r, w1) ->
  (t - now w1 < CACHE_DURATION)%Z ->
  generateReport registry network dataContext promptTemplate options w
    = Some (Returns (text r), w1) /\
  generateReport registry network dataContext promptTemplate options (with_now t w1)
    = Some (Returns (text r), log CACHE_HIT (with_now t w1)) /\
  posts (log CACHE_HIT (with_now t w1)) = posts w1.
Proof.
  intros request S C P D T.
  assert (R1 : sendRequest registry network request w = Some (Returns r, w1))
    by now apply sendRequest_own_dispatch with p.
  assert (L : responseCache w1 !! createCacheKey request
              = Some {| response := r; timestamp := now w1 |}).
  { exact (dispatch_sync_stores network p request _ w r w1
             (streamed_not_streaming p request S) D). }
  assert (R2 : sendRequest registry network request (with_now t w1)
               = Some (Returns r, log CACHE_HIT (with_now t w1))).
  { apply (sendRequest_cache_hit registry network request (with_now t w1)
             {| response := r; timestamp := now w1 |} S L T). }
  unfold generateReport. fold request. rewrite R1, R2. repeat split.
Qed.

(** X23.  [suggestInsights] needs the text of the response to be a string.
    When the adapter extracted something else (a number, an object: whatever
    truthy value the response has in the place of its text), the call throws
    a [TypeError], after the response has been fetched and cached, while
    [generateReport] and [interpretQuestion] hand such a text on as it is. *)
Theorem suggestInsights_needs_string_text
  (dataContext : value) (options : RequestOptions) (w : World)
  (r : LLMResponse) (w' : World) :
  sendRequest registry network
    (with_options (insights_prompt (JSON_stringify dataContext)) options) w
    = Some (Returns r, w') ->
  (forall t, text r <> VStr t) ->
  exists msg,
    suggestInsights registry network dataContext options w
      = Some (Throws (TypeError msg), w').
Proof.
  intros R N. unfold suggestInsights. rewrite R.
  destruct (text r) as [| | | | t | |] eqn:T; cbn; eauto.
  now destruct (N t).
Qed.

End Fingerprints.

(** ** The registry of the source *)

(** X24.  In the registry of the source the providers are declared in the
    order of their priorities and every one has an adapter: whatever the
    environment, the available providers are OpenAI, Claude and DeepSeek, in
    this order, without those that lack a key, and the provider chosen for a
    request that names none is the first of the three with a key. *)
Theorem source_registry_in_priority_order (env : ProcessEnv) :
  getAvailableProviders (LLM_PROVIDERS env)
    = List.filter available (registry_values (LLM_PROVIDERS env)) /\
  map name (registry_values (LLM_PROVIDERS env)) = ["OpenAI"; "Claude"; "DeepSeek"] /\
  Forall (fun p => family p <> None) (registry_values (LLM_PROVIDERS env)) /\
  getBestProvider (LLM_PROVIDERS env) None
    = find available (registry_values (LLM_PROVIDERS env)).
Proof.
  assert (E : getAvailableProviders (LLM_PROVIDERS env)
              = List.filter available (registry_values (LLM_PROVIDERS env))).
  { unfold getAvailableProviders, registry_values, LLM_PROVIDERS.
    cbn [map snd List.filter]. unfold available. cbn [apiKey].
    destruct (str_truthy (str_or (NEXT_PUBLIC_OPENAI_API_KEY env) ""));
      destruct (str_truthy (str_or (NEXT_PUBLIC_ANTHROPIC_API_KEY env) ""));
      destruct (str_truthy (str_or (NEXT_PUBLIC_DEEPSEEK_API_KEY env) ""));
      reflexivity. }
  split; [exact E|]. split; [reflexivity|]. split.
  - repeat constructor; discriminate.
  - unfold getBestProvider. rewrite E.
    generalize (registry_values (LLM_PROVIDERS env)). intros l.
    induction l as [|q l IH]; [reflexivity|].
    cbn [List.filter find]. now destruct (available q).
Qed.

(** ** The further properties on concrete runs *)

Lemma sendRequest_throws_two_errors_witness :
  exists error,
    message error = "Network Error" /\
    Error "Eroare la comunicarea cu API-ul LLM: Network Error" = communication_error error.
Proof.
  destruct (sendRequest_throws_two_errors (H := example_runtime)
              example_registry net_down (ask_provider "claude" "p") boot
              (Error "Eroare la comunicarea cu API-ul LLM: Network Error")
              (world_after (run net_down (ask_provider "claude" "p") boot)))
    as [(E & _)|(last & w0 & p & error & w1 & _ & _ & _ & _ & _ & _ & E & M & _)].
  - apply run_eta. reflexivity.
  - discriminate E.
  - exists error. split; [|exact E].
    change ("Eroare la comunicarea cu API-ul LLM: " +:+ "Network Error"
            = "Eroare la comunicarea cu API-ul LLM: " +:+ message error) in M.
    apply String.app_inj in M. now symmetry.
Defined.

Lemma sendRequest_without_credentials_witness :
  run_without_keys (ask_provider "openai" "p") boot = Some (Throws NO_PROVIDER, boot).
Proof.
  apply (sendRequest_without_credentials (H := example_runtime)
           (LLM_PROVIDERS no_keys) net_hi (ask_provider "openai" "p") boot).
  - intros q [<-|[<-|[<-|[]]]]; reflexivity.
  - reflexivity.
Defined.

Lemma sendRequest_sends_to_available_providers_witness :
  exists calls,
    posts (world_after (run net_fail_first (ask_provider "deepseek" "p") boot))
      = (posts boot ++ calls)%list /\
    Forall (targets example_registry) calls /\
    Forall (fun call => user_content (data call) = VStr "p") calls /\
    map url calls = [ "https://api.deepseek.com/v1/chat/completions";
                      "https://api.openai.com/v1/chat/completions" ] /\
    map headers calls
      = [ [("Content-Type", "application/json"); ("Authorization", "Bearer sk-c")];
          [("Content-Type", "application/json"); ("Authorization", "Bearer sk-a")] ].
Proof.
  destruct (sendRequest_sends_to_available_providers (H := example_runtime)
              example_registry net_fail_first (ask_provider "deepseek" "p") boot
              (Returns hi_response)
              (world_after (run net_fail_first (ask_provider "deepseek" "p") boot)))
    as (calls & P & T & U).
  - apply run_eta. reflexivity.
  - exists calls. split; [exact P|]. split; [exact T|]. split; [exact U|].
    cbn [posts boot app] in P. rewrite <- P. split; reflexivity.
Defined.

Lemma sendRequest_sends_at_most_two_witness :
  exists calls,
    posts (world_after (run net_down (ask_provider "claude" "p") boot))
      = (posts boot ++ calls)%list /\ (length calls <= 2)%nat.
Proof.
  destruct (sendRequest_sends_at_most_two (H := example_runtime)
              example_registry net_down (ask_provider "claude" "p") boot
              (Throws (Error "Eroare la comunicarea cu API-ul LLM: Network Error"))
              (world_after (run net_down (ask_provider "claude" "p") boot)))
    as (calls & P & L & _).
  - apply run_eta. reflexivity.
  - exists calls. split; [exact P|exact L].
Defined.

Lemma sendRequest_cache_frame_witness :
  responseCache (world_after (run net_hi (ask "q") answered)) !! createCacheKey (ask "p")
  = responseCache answered !! createCacheKey (ask "p").
Proof.
  apply (sendRequest_cache_frame (H := example_runtime)
           example_registry net_hi (ask "q") answered (Returns hi_response)).
  - apply run_eta. vm_compute. reflexivity.
  - discriminate.
  - discriminate.
Defined.

Lemma cache_hit_does_not_refresh_witness :
  run net_hi (ask "p") answered = Some (Returns hi_response, log CACHE_HIT answered) /\
  posts (log CACHE_HIT answered) = posts answered.
Proof.
  assert (C : cache_check (ask "p") answered = Some (hi_response, log CACHE_HIT answered)).
  { apply (cache_check_hit (ask "p") answered {| response := hi_response; timestamp := 5 |}).
    - reflexivity.
    - vm_compute. reflexivity.
    - vm_compute. reflexivity. }
  destruct (cache_hit_does_not_refresh (H := example_runtime)
              example_registry net_hi (ask "p") answered hi_response
              (log CACHE_HIT answered) C) as (R & _ & P & _).
  split; [exact R|exact P].
Defined.

Lemma fallback_retries_best_provider_witness :
  (exists calls,
     posts (world_after (run net_down (ask_provider "openai" "p") boot))
       = (posts boot ++ calls)%list /\
     Forall (sent_to example_openai) calls /\
     length calls = 2%nat) /\
  (exists calls,
     posts (world_after (run net_down (ask_provider "openai" "p") answered))
       = (posts answered ++ calls)%list /\
     Forall (sent_to example_openai) calls /\
     length calls = 1%nat).
Proof.
  split.
  - destruct (fallback_retries_best_provider (H := example_runtime)
                example_registry net_down (ask_provider "openai" "p") boot
                example_openai
                (Throws (Error "Eroare la comunicarea cu API-ul LLM: Network Error"))
                (world_after (run net_down (ask_provider "openai" "p") boot)))
      as (calls & P & T & L).
    + reflexivity.
    + reflexivity.
    + reflexivity.
    + apply run_eta. reflexivity.
    + exists calls. split; [exact P|]. split; [exact T|].
      apply (L (Error "Network Error")
               (snd (try_openai net_down (ask_provider "openai" "p") boot))).
      * reflexivity.
      * apply pair_eta. reflexivity.
      * discriminate.
      * reflexivity.
  - destruct (fallback_retries_best_provider (H := example_runtime)
                example_registry net_down (ask_provider "openai" "p") answered
                example_openai (Returns hi_response)
                (world_after (run net_down (ask_provider "openai" "p") answered)))
      as (calls & P & T & L).
    + reflexivity.
    + reflexivity.
    + reflexivity.
    + apply run_eta. vm_compute. reflexivity.
    + exists calls. split; [exact P|]. split; [exact T|].
      destruct (L (Error "Network Error")
                  (snd (try_openai net_down (ask_provider "openai" "p") answered)))
        as [_ L1].
      * apply cache_check_absent. vm_compute. reflexivity.
      * apply pair_eta. vm_compute. reflexivity.
      * discriminate.
      * apply (L1 hi_response
                 (log CACHE_HIT
                    (snd (try_openai net_down (ask_provider "openai" "p") answered)))).
        apply (cache_check_hit (clear_provider (ask_provider "openai" "p"))
                 (snd (try_openai net_down (ask_provider "openai" "p") answered))
                 {| response := hi_response; timestamp := 5 |}).
        -- reflexivity.
        -- vm_compute. reflexivity.
        -- vm_compute. reflexivity.
Defined.

Lemma streaming_response_served_to_plain_request_witness :
  let w1 := snd (dispatch (H := example_runtime) net_hi example_deepseek
                   (ask_streaming_from "deepseek" "p" (Some (callback 0)))
                   (Some "deepseek-chat") boot) in
  sendRequest (H := example_runtime) example_registry net_hi
    (ask_provider "deepseek" "p") (with_now 9 w1)
  = Some (Returns hi_response_deepseek, log CACHE_HIT (with_now 9 w1)).
Proof.
  intros w1.
  apply (proj2 (streaming_response_served_to_plain_request (H := example_runtime)
                  example_registry net_hi
                  (ask_streaming_from "deepseek" "p" (Some (callback 0))) boot
                  example_deepseek hi_response_deepseek w1 None None 9
                  eq_refl eq_refl eq_refl (pair_eta _ _ eq_refl) eq_refl eq_refl)).
Defined.

Lemma unknown_adapter_sends_nothing_witness :
  sendRequest (H := example_runtime) mistral_registry net_hi (ask "p") boot
  = Some (Throws (Error "Eroare la comunicarea cu API-ul LLM: Provider necunoscut: Mistral"),
          log (SEND_FAILED (Error "Provider necunoscut: Mistral")) boot).
Proof.
  apply (proj1 (unknown_adapter_sends_nothing (H := example_runtime)
                  mistral_registry net_hi (ask "p") boot (adapter "Mistral")
                  eq_refl eq_refl eq_refl eq_refl)).
Defined.

Lemma sendRequest_registers_one_listener_witness :
  length (streams (world_after (run net_hi (ask_streaming "p" (Some (callback 0))) boot)))
  = 1%nat.
Proof.
  destruct (sendRequest_registers_one_listener (H := example_runtime)
              example_registry net_hi (ask_streaming "p" (Some (callback 0))) boot
              (Returns {| text := VStr ""; resp_provider := "OpenAI";
                          resp_model := Some "gpt-4-turbo"; tokenUsage := None |})
              (world_after (run net_hi (ask_streaming "p" (Some (callback 0))) boot)))
    as [E|(_ & p & m & chunks & _ & E)].
  - apply run_eta. reflexivity.
  - reflexivity.
  - rewrite E. reflexivity.
Defined.

Lemma clearCache_forces_dispatch_witness :
  cache_check (ask "p") (clearCache answered) = None /\
  exists out w' call rest,
    run net_hi (ask "p") (clearCache answered) = Some (out, w') /\
    posts w' = (posts answered ++ call :: rest)%list.
Proof.
  destruct (clearCache_forces_dispatch (H := example_runtime)
              example_registry net_hi (ask "p") answered) as (C & _ & _ & _ & D).
  split; [exact C|]. apply (D example_openai); [reflexivity|discriminate].
Defined.

Lemma cache_entry_stamped_at_arrival_witness :
  exists body,
    formatPromptForProvider example_openai "p" (Some "gpt-4-turbo") = Returns body /\
    now (snd (try_openai net_hi (ask "p") (with_now 100 boot)))
    = (100 + elapsed (net_hi [] (call_of example_openai (ask "p") body)))%Z.
Proof.
  destruct (cache_entry_stamped_at_arrival (H := example_runtime)
              net_hi (ask "p") (with_now 100 boot) example_openai (Some "gpt-4-turbo")
              hi_response (snd (try_openai net_hi (ask "p") (with_now 100 boot))))
    as (body & F & N & _).
  - reflexivity.
  - apply pair_eta. reflexivity.
  - exists body. split; [exact F|exact N].
Defined.

Lemma accumulated_text_grows_at_its_end_witness :
  exists b,
    accumulatedText (drain (H := two_payload_runtime) (fresh_listener hi_chunks))
    = VStr ("" +:+ b).
Proof.
  apply (accumulated_text_grows_at_its_end (H := two_payload_runtime)
           (fresh_listener hi_chunks) "").
  - intros chunk line v [<-|[<-|[]]] Hin; vm_compute in Hin.
    + destruct Hin as [<-|[<-|[]]]; intros [= <-]; now exists "hi".
    + destruct Hin as [<-|[<-|[]]]; discriminate.
  - reflexivity.
Defined.

Lemma events_without_message_are_ignored_witness :
  handle_lines (H := delta_runtime) ["data: delta"] (fresh_listener [])
  = fresh_listener [].
Proof.
  apply (events_without_message_are_ignored (H := delta_runtime)
           "data: delta" [] (fresh_listener []) delta_body);
    solve [reflexivity | left; reflexivity].
Defined.



Lemma fingerprint_separator_is_ambiguous_witness :
  createCacheKey (with_route (Some "open-ai") (Some "gpt") (ask "p"))
  = createCacheKey (with_route (Some "open") (Some "ai-gpt") (ask "p")).
Proof.
  apply (proj1 (fingerprint_separator_is_ambiguous (H := example_runtime)
                  example_registry net_hi (ask "p") "open" "ai" "gpt" boot
                  {| response := hi_response; timestamp := 0 |}
                  ltac:(discriminate) ltac:(discriminate))).
Defined.

Lemma questions_do_not_share_cache_entries_witness :
  let w1 :=
    world_after (interpretQuestion (H := example_runtime) example_registry net_hi
                   "one?" VNull no_options boot) in
  exists out2 w2 call rest,
    interpretQuestion (H := example_runtime) example_registry net_hi
      "two?" VNull no_options (with_now 9 w1) = Some (out2, w2) /\
    posts w2 = (posts w1 ++ call :: rest)%list /\
    user_content (data call) = VStr (question_prompt "two?" "{}").
Proof.
  intros w1.
  destruct (questions_do_not_share_cache_entries (H := example_runtime)
              example_registry net_hi "one?" "two?" VNull no_options boot
              (Returns (VStr "hi")) w1) as [_ D].
  - discriminate.
  - reflexivity.
  - discriminate.
  - apply run_eta. vm_compute. reflexivity.
  - destruct (D (lookup_empty _) 9%Z example_openai eq_refl ltac:(discriminate))
      as (out2 & w2 & call & rest & R & P & _ & U).
    exists out2, w2, call, rest. split; [exact R|]. split; [exact P|exact U].
Defined.

Lemma generateReport_repeated_within_ttl_witness :
  let request :=
    with_options (report_prompt "t" (JSON_stringify (Runtime := example_runtime) VNull))
                 no_options in
  let w1 := snd (try_openai net_hi request boot) in
  generateReport (H := example_runtime) example_registry net_hi VNull "t" no_options boot
    = Some (Returns (VStr "hi"), w1) /\
  generateReport (H := example_runtime) example_registry net_hi VNull "t" no_options
    (with_now 9 w1)
    = Some (Returns (VStr "hi"), log CACHE_HIT (with_now 9 w1)).
Proof.
  intros request w1.
  destruct (generateReport_repeated_within_ttl (H := example_runtime)
              example_registry net_hi VNull "t" no_options boot example_openai
              hi_response w1 9) as (R1 & R2 & _).
  - reflexivity.
  - reflexivity.
  - reflexivity.
  - apply pair_eta. vm_compute. reflexivity.
  - vm_compute. reflexivity.
  - split; [exact R1|exact R2].
Defined.

Lemma suggestInsights_needs_string_text_witness :
  exists msg w',
    suggestInsights (H := example_runtime) example_registry net_number VNull no_options boot
    = Some (Throws (TypeError msg), w').
Proof.
  destruct (suggestInsights_needs_string_text (H := example_runtime)
              example_registry net_number VNull no_options boot number_response
              (world_after
                 (run net_number
                    (with_options
                       (insights_prompt (JSON_stringify (Runtime := example_runtime) VNull))
                       no_options) boot))) as [msg E].
  - apply run_eta. vm_compute. reflexivity.
  - discriminate.
  - eauto.
Defined.
